(** * Word-frequency significance testing: a shallow embedding of [main.py]
    and [determine_p_values.py].

    The development follows the Python sources function by function.
    Python [int] is [Z]; Python [float] is IEEE-754 binary64 in the
    executable specification [SpecFloat] (precision 53, [emax] 1024);
    a per-document [Counter] loaded from JSON is a [gmap string Z]; an
    insertion-ordered [dict]/[Counter] whose order matters is an association
    list; exceptions are identified by the name of their Python class; calls
    to [random.randint] are nodes of a program tree, interpreted against a
    tape of drawn values. *)

From Stdlib Require Import ZArith Lia Floats.SpecFloat Permutation Ascii String QArith Qcanon.
From stdpp Require Import gmap strings list.

Local Open Scope string_scope.
Local Open Scope list_scope.
Local Open Scope Z_scope.

(** ** Exceptions and the two effect layers *)

(** A Python exception, identified by the name of its class. *)
Definition exn : Type := string.

(** Code that either returns or raises, and draws no random number. *)
Inductive result (A : Type) : Type :=
| Ok (a : A)
| Err (e : exn).
Arguments Ok {A} a.
Arguments Err {A} e.

#[global] Instance result_ret : MRet result := fun A a => Ok a.
#[global] Instance result_bind : MBind result := fun A B f r =>
  match r with
  | Ok a => f a
  | Err e => Err e
  end.

(** Code that may in addition call [random.randint lo hi]: the continuation
    receives the drawn integer. *)
Inductive prog (A : Type) : Type :=
| Ret (a : A)
| Raise (e : exn)
| RandInt (lo hi : Z) (k : Z -> prog A).
Arguments Ret {A} a.
Arguments Raise {A} e.
Arguments RandInt {A} lo hi k.

Fixpoint prog_bind_fix {A B : Type} (f : A -> prog B) (p : prog A) : prog B :=
  match p with
  | Ret a => f a
  | Raise e => Raise e
  | RandInt lo hi k => RandInt lo hi (fun v => prog_bind_fix f (k v))
  end.

#[global] Instance prog_ret : MRet prog := fun A a => Ret a.
#[global] Instance prog_bind : MBind prog := fun A B f p => prog_bind_fix f p.

Definition lift {A : Type} (r : result A) : prog A :=
  match r with
  | Ok a => Ret a
  | Err e => Raise e
  end.

(** ** Python floats *)

Definition prec : Z := 53.
Definition emax : Z := 1024.
Definition float : Type := spec_float.

(** Exact embedding of a Python [int]; the mantissa is not rounded here, the
    division below rounds once. *)
Definition int_to_float (z : Z) : float :=
  match z with
  | Z0 => S754_zero false
  | Zpos p => S754_finite false p 0
  | Zneg p => S754_finite true p 0
  end.

(** [a / b] on two Python ints: the correctly rounded quotient,
    [ZeroDivisionError] for [b = 0], [OverflowError] when the quotient is
    too large for a float. *)
Definition truediv (a b : Z) : result float :=
  if b =? 0 then Err "ZeroDivisionError"
  else match SFdiv prec emax (int_to_float a) (int_to_float b) with
       | S754_infinity _ => Err "OverflowError"
       | q => Ok q
       end.

Definition float_sub (a b : float) : float := SFsub prec emax a b.
Definition float_abs (a : float) : float := SFabs a.

(** [a >= b] on floats; false as soon as one side is a NaN. *)
Definition float_ge (a b : float) : bool :=
  match SFcompare a b with
  | Some Gt | Some Eq => true
  | _ => false
  end.

Definition is_nan (f : float) : bool :=
  match f with S754_nan => true | _ => false end.

Definition is_finite (f : float) : bool :=
  match f with S754_zero _ | S754_finite _ _ _ => true | _ => false end.

(** [+0.0] *)
Definition float_zero : float := S754_zero false.
(** [1.0], that is [2^52 * 2^-52]. *)
Definition float_one : float := SFone prec emax.

(** ** Python lists and the random source *)

Definition len {A : Type} (l : list A) : Z := Z.of_nat (length l).

(** [sum(l)]: left fold from the int 0. *)
Definition py_sum (l : list Z) : Z := foldl Z.add 0 l.

(** [l[i]], with Python's negative indices and its [IndexError]. *)
Definition getitem {A : Type} (l : list A) (i : Z) : result A :=
  let j := if i <? 0 then i + len l else i in
  if j <? 0 then Err "IndexError"
  else match l !! Z.to_nat j with
       | Some a => Ok a
       | None => Err "IndexError"
       end.

(** [random.randint(lo, hi)]: an integer of the inclusive range, or
    [ValueError] when the range is empty. *)
Definition randint (lo hi : Z) : prog Z :=
  if lo <=? hi then RandInt lo hi Ret else Raise "ValueError".

(** ** The permutation test, [calculate_p_value] *)

(** One document: word to number of occurrences. *)
Abbreviation doc := (gmap string Z).

(** [d.get(word, dflt)] *)
Definition get (d : doc) (word : string) (dflt : Z) : Z :=
  default dflt (d !! word).

(** [[uni_sample[random.randint(0, len(uni_sample) - 1)] for i in range(k)]] *)
Fixpoint resample (uni_sample : list Z) (k : nat) : prog (list Z) :=
  match k with
  | O => Ret []
  | S k' =>
      i ← randint 0 (len uni_sample - 1);
      v ← lift (getitem uni_sample i);
      rest ← resample uni_sample k';
      Ret (v :: rest)
  end.

(** Lines 139-140 of [main.py]: the two resamples of one round, [n] draws
    for A and then [m] draws for B. *)
Definition round_resamples (uni_sample : list Z) (n m : Z) : prog (list Z * list Z) :=
  a_resample ← resample uni_sample (Z.to_nat n);
  b_resample ← resample uni_sample (Z.to_nat m);
  Ret (a_resample, b_resample).

(** The body of [for x in range(10000)], with [count] threaded through;
    [iters] is the number of iterations still to run. *)
Fixpoint resample_loop (iters : nat) (uni_sample : list Z) (n m : Z)
    (observed_diff : float) (count : Z) : prog Z :=
  match iters with
  | O => Ret count
  | S iters' =>
      resamples ← round_resamples uni_sample n m;
      let a_resample := resamples.1 in
      let b_resample := resamples.2 in
      mua ← lift (truediv (py_sum a_resample) n);
      mub ← lift (truediv (py_sum b_resample) m);
      let diff := float_abs (float_sub mua mub) in
      resample_loop iters' uni_sample n m observed_diff
        (if float_ge diff observed_diff then count + 1 else count)
  end.

(** The number of resampling rounds, the literal of [range(10000)]. *)
Definition ROUNDS : Z := 10000.

(** Lines 130-134 of [main.py] (96-101 of [determine_p_values.py]). *)
Definition observed_diff_of (post_nums llm_response_nums : list Z) : result float :=
  let n := len post_nums in
  let m := len llm_response_nums in
  mu_posts ← truediv (py_sum post_nums) n;
  mu_llm ← truediv (py_sum llm_response_nums) m;
  Ok (float_abs (float_sub mu_posts mu_llm)).

(** [main.py], [calculate_p_value]: returns [[observed, p]]. *)
Definition calculate_p_value (posts llm_responses : list doc) (word : string)
    : prog (list float) :=
  let post_nums := map (fun post => get post word 0) posts in
  let llm_response_nums := map (fun response => get response word 0) llm_responses in
  let n := len post_nums in
  let m := len llm_response_nums in
  observed_diff ← lift (observed_diff_of post_nums llm_response_nums);
  let uni_sample := post_nums ++ llm_response_nums in
  count ← resample_loop (Z.to_nat ROUNDS) uni_sample n m observed_diff 0;
  observed ← lift (observed_diff_of post_nums llm_response_nums);
  p ← lift (truediv count ROUNDS);
  Ret [observed; p].

(** [determine_p_values.py] has the same functions; its [calculate_p_value]
    differs in returning the p-value alone. *)
Module determine_p_values.

Definition calculate_p_value (posts llm_responses : list doc) (word : string)
    : prog float :=
  let post_nums := map (fun post => get post word 0) posts in
  let llm_response_nums := map (fun response => get response word 0) llm_responses in
  let n := len post_nums in
  let m := len llm_response_nums in
  observed_diff ← lift (observed_diff_of post_nums llm_response_nums);
  let uni_sample := post_nums ++ llm_response_nums in
  count ← resample_loop (Z.to_nat ROUNDS) uni_sample n m observed_diff 0;
  lift (truediv count ROUNDS).

End determine_p_values.

(** ** Running a program against a tape of draws *)

Inductive outcome (A : Type) : Type :=
| Returned (a : A)
| Raised (e : exn).
Arguments Returned {A} a.
Arguments Raised {A} e.

(** [run p tape pos] feeds [tape pos], [tape (pos+1)], ... to the successive
    [randint] calls of [p].  It yields the outcome and the ranges that were
    requested, in order; it is undefined when the tape offers a value outside
    the requested range, which [randint] cannot return. *)
Fixpoint run {A : Type} (p : prog A) (tape : nat -> Z) (pos : nat)
    : option (outcome A * list (Z * Z)) :=
  match p with
  | Ret a => Some (Returned a, [])
  | Raise e => Some (Raised e, [])
  | RandInt lo hi k =>
      let v := tape pos in
      if (lo <=? v) && (v <=? hi) then
        match run (k v) tape (S pos) with
        | Some (o, reqs) => Some (o, (lo, hi) :: reqs)
        | None => None
        end
      else None
  end.

(** ** The test as the specification words it *)

(** The per-document counts of [word] over a corpus. *)
Definition counts (corpus : list doc) (word : string) : list Z :=
  map (fun d => get d word 0) corpus.

(** The floating-point mean of a sequence of counts. *)
Definition spec_mean (l : list Z) : float :=
  SFdiv prec emax (int_to_float (py_sum l)) (int_to_float (len l)).

(** [|mean(A) - mean(B)|] *)
Definition spec_diff (A B : list Z) : float :=
  float_abs (float_sub (spec_mean A) (spec_mean B)).

(** The pool values selected by [k] consecutive draws starting at [pos]. *)
Definition drawn (pool : list Z) (tape : nat -> Z) (pos k : nat) : list Z :=
  map (fun j => nth (Z.to_nat (tape j)) pool 0) (seq pos k).

(** Round [i] uses the draws [i*(n+m) .. i*(n+m)+n-1] for A and the next [m]
    for B. *)
Definition round_hit (pool : list Z) (tape : nat -> Z) (n m : nat)
    (observed : float) (i : nat) : bool :=
  float_ge (spec_diff (drawn pool tape (i * (n + m)) n)
                      (drawn pool tape (i * (n + m) + n) m)) observed.

(** The number of rounds, among the first [R], whose difference reaches the
    observed one. *)
Definition spec_counter (pool : list Z) (tape : nat -> Z) (n m : nat)
    (observed : float) (R : nat) : Z :=
  len (filter (fun i => round_hit pool tape n m observed i = true) (seq 0 R)).

(** counter / R *)
Definition spec_p_value (counter : Z) : float :=
  SFdiv prec emax (int_to_float counter) (int_to_float ROUNDS).

(** Counts small enough for every mean to be a finite float. *)
Definition count_bound : Z := 2 ^ 1022.
Definition bounded_counts (l : list Z) : Prop :=
  Forall (fun v => Z.abs v < count_bound) l.

(** A tape all of whose draws are indices into a pool of [size] values. *)
Definition valid_tape (tape : nat -> Z) (size : Z) : Prop :=
  forall i : nat, 0 <= tape i < size.

(** ** The distribution of a program under uniform draws *)

(** The integers [lo], [lo + 1], ..., [hi]. *)
Definition int_range (lo hi : Z) : list Z :=
  map (fun i => lo + Z.of_nat i) (seq 0 (Z.to_nat (hi - lo + 1))).

Definition Qc_sum (l : list Qc) : Qc := foldr Qcplus 0%Qc l.
Definition Qc_prod (l : list Qc) : Qc := foldr Qcmult 1%Qc l.

(** The probability that the outcome of [p] satisfies [ev] when every
    [random.randint(lo, hi)] returns each integer of [lo .. hi] with the same
    probability, independently of the other draws. *)
Fixpoint prob {A : Type} (p : prog A) (ev : outcome A -> bool) : Qc :=
  match p with
  | Ret a => if ev (Returned a) then 1%Qc else 0%Qc
  | Raise e => if ev (Raised e) then 1%Qc else 0%Qc
  | RandInt lo hi k =>
      (Qc_sum (map (fun v => prob (k v) ev) (int_range lo hi))
       / Qc_of_Z (hi - lo + 1))%Qc
  end.

(** The event "the program returns [a]". *)
Definition returns `{EqDecision A} (a : A) (o : outcome A) : bool :=
  match o with
  | Returned a' => bool_decide (a' = a)
  | Raised _ => false
  end.

(** The number of positions of [pool] that hold [v]. *)
Definition multiplicity (pool : list Z) (v : Z) : Z :=
  len (filter (fun w => w = v) pool).

(** The corpora of the specification's worked example: word ["x"] occurs
    2, 0 and 1 times in the community documents and never in the generated
    ones. *)
Definition example_posts : list doc := [ {[ "x" := 2 ]}; ∅; {[ "x" := 1 ]} ].
Definition example_llm_responses : list doc := [ ∅; ∅; ∅ ].

(** ** CSV files and the two loaders *)

(** A CSV file, as the rows that [csv.reader] yields. *)
Abbreviation csv := (list (list string)).

(** [open(path, 'r')] followed by [csv.reader]. *)
Definition open_csv (fs : gmap string csv) (path : string) : result csv :=
  match fs !! path with
  | Some rows => Ok rows
  | None => Err "FileNotFoundError"
  end.

(** The loop of [x_most_common_words]: [i] is the index given by
    [enumerate], [data] the list built so far. *)
Fixpoint x_most_common_loop (x i : Z) (rows : csv) (data : list string)
    : result (list string) :=
  match rows with
  | [] => Ok data
  | row :: rest =>
      if x <=? i then Ok data
      else match row with
           | [] => Err "IndexError"
           | word :: _ => x_most_common_loop x (i + 1) rest (data ++ [word])
           end
  end.

Definition x_most_common_words (fs : gmap string csv) (x : Z) : result (list string) :=
  rows ← open_csv fs "unigram_freq.csv";
  x_most_common_loop x 0 rows [].

(** [dataset_to_list]: [return row] inside the loop over the rows; [None]
    (Python's [None]) when the loop body never runs. *)
Definition dataset_to_list (fs : gmap string csv) (file_path : string)
    : result (option (list string)) :=
  rows ← open_csv fs file_path;
  match rows with
  | row :: _ => Ok (Some row)
  | [] => Ok None
  end.

(** Iterating over the value returned by [dataset_to_list]. *)
Definition iterate (v : option (list string)) : result (list string) :=
  match v with
  | Some l => Ok l
  | None => Err "TypeError"
  end.

(** ** Insertion-ordered dictionaries and [Counter] *)

Abbreviation odict := (list (string * Z)).

Definition keys (d : odict) : list string := map fst d.

Fixpoint dict_get (d : odict) (k : string) : option Z :=
  match d with
  | [] => None
  | (k', v) :: rest => if decide (k' = k) then Some v else dict_get rest k
  end.

(** [d[k] = v]: a present key keeps its position, a new one goes last. *)
Fixpoint dict_set (d : odict) (k : string) (v : Z) : odict :=
  match d with
  | [] => [(k, v)]
  | (k', v') :: rest =>
      if decide (k' = k) then (k, v) :: rest else (k', v') :: dict_set rest k v
  end.

(** [d[k]] on a plain [dict]. *)
Definition dict_getitem (d : odict) (k : string) : result Z :=
  match dict_get d k with
  | Some v => Ok v
  | None => Err "KeyError"
  end.

(** [c[k]] on a [Counter]: a missing key counts 0. *)
Definition counter_getitem (c : odict) (k : string) : Z := default 0 (dict_get c k).

(** [Counter(l)]: one increment per element, in order. *)
Definition Counter (l : list string) : odict :=
  foldl (fun c word => dict_set c word (counter_getitem c word + 1)) [] l.

(** A dict comprehension over (key, value) pairs. *)
Definition dict_of_items (items : list (string * Z)) : odict :=
  foldl (fun d item => dict_set d (fst item) (snd item)) [] items.

(** Stable insertion into a list sorted by decreasing count: [item] goes
    before the first entry whose count is not larger. *)
Fixpoint insert_desc (item : string * Z) (l : odict) : odict :=
  match l with
  | [] => [item]
  | q :: rest =>
      if snd q <=? snd item then item :: q :: rest else q :: insert_desc item rest
  end.

(** [sorted(items, key=itemgetter(1), reverse=True)]; entries of equal count
    keep their relative order. *)
Definition sorted_desc (items : odict) : odict := foldr insert_desc [] items.

(** [c.most_common(y)] for an int [y]: the first [y] entries by decreasing
    count, none for [y <= 0]. *)
Definition most_common (c : odict) (y : Z) : odict := take (Z.to_nat y) (sorted_desc c).

(** ["'" in word] *)
Fixpoint apostrophe_in (word : string) : bool :=
  match word with
  | EmptyString => false
  | String c rest => if Ascii.eqb c "'"%char then true else apostrophe_in rest
  end.

(** [mapM] of the error layer over a list. *)
Fixpoint result_mapM {A B : Type} (f : A -> result B) (l : list A) : result (list B) :=
  match l with
  | [] => Ok []
  | a :: rest => b ← f a; bs ← result_mapM f rest; Ok (b :: bs)
  end.

(** ** The selector, [make_y_most_common_word_dicts] *)

Section Selector.

(** [langdetect.detect]: a language code, or an exception. *)
Variable detect : string -> result string.

(** The order in which Python iterates over the set with the given elements
    (it depends on the hashes of the strings). *)
Variable set_order : list string -> list string.

(** The body of the [try] in the loop over [counts]; [except: continue]
    leaves [discussion_dict] as it was. *)
Definition detect_step (counts discussion_dict : odict) (word : string) : odict :=
  match detect word with
  | Ok lang =>
      if String.eqb lang "en" && negb (apostrophe_in word)
      then dict_set discussion_dict word (counter_getitem counts word)
      else discussion_dict
  | Err _ => discussion_dict
  end.

(** Lines 65-72: the community words kept by the language filter. *)
Definition discussion_dict_of (discussion_list : list string) : odict :=
  let counts := Counter discussion_list in
  foldl (detect_step counts) [] (keys counts).

(** Lines 73 and 75: the generated words, with their counts. *)
Definition llm_dict_of (llm_list : list string) : odict :=
  let counts := Counter llm_list in
  map (fun i => (i, counter_getitem counts i)) (keys counts).

Definition make_y_most_common_word_dicts (fs : gmap string csv) (y x : Z)
    (discussion_csv llm_csv : string) : result odict :=
  common ← x_most_common_words fs x;
  let words_to_exclude : gset string := list_to_set common in
  discussion_list ← dataset_to_list fs discussion_csv;
  llm_list ← dataset_to_list fs llm_csv;
  discussion_list ← iterate discussion_list;
  let discussion_list := filter (fun word => word ∉ words_to_exclude) discussion_list in
  llm_list ← iterate llm_list;
  let llm_list := filter (fun word => word ∉ words_to_exclude) llm_list in
  let discussion_dict := discussion_dict_of discussion_list in
  let discussion_dict :=
    map (fun i => (i, counter_getitem discussion_dict i)) (keys discussion_dict) in
  let llm_dict := llm_dict_of llm_list in
  let common_keys_set :=
    set_order (filter (fun key => key ∈ keys llm_dict) (keys discussion_dict)) in
  items ← result_mapM (fun key => v ← dict_getitem discussion_dict key; Ok (key, v))
                      common_keys_set;
  Ok (dict_of_items (most_common (dict_of_items items) y)).

End Selector.

(** ** The selector as the specification words it *)

(** The number of occurrences of [word] in a token list. *)
Definition occurrences (l : list string) (word : string) : Z :=
  len (filter (fun w => w = word) l).

Section SelectorSpec.

Variable detect : string -> result string.

(** The language/contraction filter: classified English, no apostrophe; a
    detector failure counts as not English. *)
Definition passes_filter (word : string) : bool :=
  match detect word with
  | Ok lang => String.eqb lang "en" && negb (apostrophe_in word)
  | Err _ => false
  end.

(** The words that survive the exclusion set, the language filter on the
    community side, and the presence in both corpora, each listed once. *)
Definition survivors (exclude discussion_row llm_row : list string) : list string :=
  filter (fun w => (w ∉ exclude) /\ passes_filter w = true /\ (w ∈ llm_row))
         (remove_dups discussion_row).

End SelectorSpec.

Section SelectorClosedForm.

Variable detect : string -> result string.
Variable set_order : list string -> list string.

(** What the selector returns once its three inputs are loaded: the
    candidate words in set order, paired with their community counts, sorted
    by decreasing count and cut after [y] entries. *)
Definition selected (y : Z) (exclude discussion_row llm_row : list string) : odict :=
  let words_to_exclude : gset string := list_to_set exclude in
  let discussion_list := filter (fun word => word ∉ words_to_exclude) discussion_row in
  let llm_list := filter (fun word => word ∉ words_to_exclude) llm_row in
  let candidates :=
    filter (fun key => key ∈ keys (llm_dict_of llm_list))
           (filter (fun k => passes_filter detect k = true)
                   (keys (Counter discussion_list))) in
  take (Z.to_nat y)
       (sorted_desc (map (fun k => (k, occurrences discussion_list k))
                         (set_order candidates))).

End SelectorClosedForm.

(** A small file system, detector and set order to run the selector on. *)
Definition example_fs : gmap string csv :=
  {[ "unigram_freq.csv" := [ ["the"; "23135851162"]; ["of"; "13151942776"];
                             ["and"; "12997637966"] ];
     "words.csv" := [ ["the"; "hike"; "is"; "a"; "short"; "hike"; "it's"; "zzz";
                       "chat"; "of"] ];
     "llm.csv" := [ ["a"; "hike"; "the"; "short"; "zzz"; "it's"; "chat"] ];
     "empty.csv" := [] ]}.

Definition example_detect (word : string) : result string :=
  if decide (word = "zzz") then Err "LangDetectException"
  else if decide (word = "chat") then Ok "fr"
  else Ok "en".

Definition example_set_order (l : list string) : list string := l.

(** ** JSON dumps, the object store and [format_posts] *)

(** The third entry of a dump: the dict written by
    [write_all_relevant_data], or the list written by [format_posts]. *)
Inductive words_json : Type :=
| WordsDict (d : odict)
| WordsList (l : list string).

(** The content of a dump file, [[posts, llm_responses, words]]. *)
Record dump : Type := Dump {
  dump_posts : list doc;
  dump_llm_responses : list doc;
  dump_words : words_json
}.

(** The address of a dict object. *)
Definition loc : Type := nat.

(** The JSON files on disk and the dict objects in memory. *)
Record state : Type := State {
  files : gmap string dump;
  heap : list doc
}.

(** The object at an address. *)
Definition deref (h : list doc) (l : loc) : doc := default ∅ (h !! l).

(** Fresh objects for the documents of a loaded file. *)
Definition alloc_docs (ds : list doc) (h : list doc) : list loc * list doc :=
  (seq (length h) (length ds), h ++ ds).

(** [json.load]: the two corpora come back as lists of references to
    freshly allocated dicts. *)
Definition json_load (path : string) (st : state)
    : result (list loc * list loc * words_json * state) :=
  match files st !! path with
  | None => Err "FileNotFoundError"
  | Some d =>
      let '(posts, h1) := alloc_docs (dump_posts d) (heap st) in
      let '(llm_responses, h2) := alloc_docs (dump_llm_responses d) h1 in
      Ok (posts, llm_responses, dump_words d, State (files st) h2)
  end.

(** The keys of a document, in the order of iteration. *)
Definition doc_keys (d : doc) : list string := (map_to_list d).*1.

(** [del post[key]]: the object at [post] loses [key], in place. *)
Definition del_item (h : list doc) (post : loc) (key : string) : result (list doc) :=
  match deref h post !! key with
  | Some _ => Ok (<[post := delete key (deref h post)]> h)
  | None => Err "KeyError"
  end.

(** [for key in keys_to_remove: del post[key]] *)
Fixpoint del_keys (post : loc) (keys_to_remove : list string) (h : list doc)
    : result (list doc) :=
  match keys_to_remove with
  | [] => Ok h
  | key :: rest => h' ← del_item h post key; del_keys post rest h'
  end.

(** [for post in posts: ...], lines 112-116 and again 117-121. *)
Fixpoint filter_loop (words_to_check : gset string) (posts : list loc) (h : list doc)
    : result (list doc) :=
  match posts with
  | [] => Ok h
  | post :: rest =>
      let keys_to_remove :=
        filter (fun key => key ∉ words_to_check) (doc_keys (deref h post)) in
      h' ← del_keys post keys_to_remove h;
      filter_loop words_to_check rest h'
  end.

(** [dicts[2].keys()] *)
Definition words_keys (third : words_json) : result (list string) :=
  match third with
  | WordsDict d => Ok (keys d)
  | WordsList _ => Err "AttributeError"
  end.

Definition format_posts (set_order : list string -> list string)
    (json_path : string) (st : state) : result state :=
  loaded ← json_load json_path st;
  let '(posts, llm_responses, third, st1) := loaded in
  words ← words_keys third;
  let words_to_check : gset string := list_to_set words in
  h1 ← filter_loop words_to_check posts (heap st1);
  h2 ← filter_loop words_to_check llm_responses h1;
  Ok (State (<["second_" +:+ json_path :=
                 Dump (map (deref h2) posts) (map (deref h2) llm_responses)
                      (WordsList (set_order (elements words_to_check)))]> (files st1))
            h2).

(** A document cut down to the candidate words, as a new mapping. *)
Definition restrict (words_to_check : gset string) (d : doc) : doc :=
  filter (fun kv => kv.1 ∈ words_to_check) d.

(** ** The batch driver *)

(** Iterating over the third entry of a dump: the keys of a dict, the items
    of a list. *)
Definition words_iter (third : words_json) : list string :=
  match third with
  | WordsDict d => keys d
  | WordsList l => l
  end.

(** The result mapping, word to [[observed, p]]. *)
Abbreviation p_values := (gmap string (list float)).

(** [for word in words_to_check: final_p_values[word] = calculate_p_value(...)] *)
Fixpoint p_values_loop (posts llm_responses : list doc) (words_to_check : list string)
    (final_p_values : p_values) : prog p_values :=
  match words_to_check with
  | [] => Ret final_p_values
  | word :: rest =>
      r ← calculate_p_value posts llm_responses word;
      p_values_loop posts llm_responses rest (<[word := r]> final_p_values)
  end.

(** [calculate_p_values] of [main.py]; the documents it loads are only read,
    so they are taken by value. *)
Definition calculate_p_values (json_path : string) (st : state) : prog p_values :=
  match files st !! ("second_" +:+ json_path) with
  | None => Raise "FileNotFoundError"
  | Some d =>
      p_values_loop (dump_posts d) (dump_llm_responses d) (words_iter (dump_words d)) ∅
  end.

(** The loop over [paths] of [calculate_p_values_from_scratch]: [p_values]
    is the list built so far; the state reached is returned with it. *)
Fixpoint trials_loop (set_order : list string -> list string)
    (paths : list string) (st : state) (results : list p_values)
    : prog (list p_values * state) :=
  match paths with
  | [] => Ret (results, st)
  | path :: rest =>
      st' ← lift (format_posts set_order path st);
      r ← calculate_p_values path st';
      trials_loop set_order rest st' (results ++ [r])
  end.

(** [combined_dict.update(p_value_dict)] for each trial in turn. *)
Definition combine (results : list p_values) : p_values :=
  foldl (fun combined_dict p_value_dict => p_value_dict ∪ combined_dict) ∅ results.

(** [calculate_p_values_from_scratch], from the dump files on: [paths] and
    [st] stand for what [write_all_relevant_data] returned and wrote. *)
Definition calculate_p_values_from_scratch (set_order : list string -> list string)
    (paths : list string) (st : state) : prog p_values :=
  done ← trials_loop set_order paths st [];
  Ret (combine done.1).

(** A dump as [write_all_relevant_data] leaves it: two community documents,
    one generated document, one candidate word. *)
Definition example_state : state :=
  State {[ "0dump.json" :=
             Dump [ {[ "hike" := 2; "the" := 1 ]}; {[ "a" := 1 ]} ]
                  [ {[ "hike" := 1; "so" := 3 ]} ]
                  (WordsDict [("hike", 2)]) ]}
        [].

(** Two trials: the first dump has no community document, the second is a
    regular one. *)
Definition example_trials_state : state :=
  State {[ "0dump.json" := Dump [] [ {[ "hike" := 1 ]} ] (WordsDict [("hike", 2)]);
           "1dump.json" := Dump [ {[ "hike" := 2 ]} ] [ {[ "hike" := 1 ]} ]
                                (WordsDict [("hike", 2)]) ]}
        [].

(** A filtered dump in which the count of ["hike"] is too large for a float
    while the counts of ["a"] are ordinary. *)
Definition example_overflow_state : state :=
  State {[ "second_dump.json" :=
             Dump [ {[ "hike" := 2 ^ 1100; "a" := 1 ]} ] [ {[ "a" := 1 ]} ]
                  (WordsList ["hike"; "a"]) ]}
        [].

(** * Further definitions *)

From Stdlib Require Sorted.
From stdpp Require sorting.

(** The order in which [most_common] lists its entries: counts never
    increase. *)
Definition count_desc (a b : string * Z) : Prop := snd b <= snd a.

(** What the entry of the result mapping for [word] holds when the test of
    [word] on the two corpora returns: the observed statistic, never
    negative, and a p-value between [0.0] and [1.0]. *)
Definition tested (posts llm_responses : list doc) (word : string) (r : list float)
    : Prop :=
  exists s p : float,
    r = [s; p]
    /\ observed_diff_of (counts posts word) (counts llm_responses word) = Ok s
    /\ float_ge s float_zero = true
    /\ float_ge p float_zero = true /\ float_ge float_one p = true.

(** A filtered dump of the example corpora with two listed words, and the
    two dumps of a run with two trials on them. *)
Definition example_filtered_state : state :=
  State {[ "second_dump.json" :=
             Dump example_posts example_llm_responses (WordsList ["x"; "y"]) ]}
        [].

Definition example_two_trials_state : state :=
  State {[ "0dump.json" := Dump example_posts example_llm_responses (WordsDict [("x", 3)]);
           "1dump.json" := Dump example_posts example_llm_responses
                                (WordsDict [("y", 1); ("x", 3)]) ]}
        [].

(** ** The datasets: [combined_scrape] and [generate_all_responses] *)

From Stdlib Require DecimalString DecimalNat DecimalFacts.

(** [open(path, 'w')] followed by one [writer.writerow] per row: the file
    then holds these rows. *)
Definition write_rows (fs : gmap string csv) (path : string) (rows : csv)
    : gmap string csv :=
  <[path := rows]> fs.

(** [range(n)] *)
Definition range (n : Z) : list Z := map Z.of_nat (seq 0 (Z.to_nat n)).

(** [str(index)] for the index given by [enumerate]. *)
Definition str (index : nat) : string :=
  DecimalString.NilEmpty.string_of_uint (Nat.to_uint index).

(** A [Counter] after [json.dump] and [json.load]: the document with the
    same counts. *)
Definition json_doc (c : odict) : doc := list_to_map c.

Section Datasets.

(** [str.split()] and the cleaning of a generated response (line 86 of
    [generate_llm_responses.py]). *)
Variable split : string -> list string.
Variable clean : string -> string.

(** The network: [scrape_for_posts], and the value returned by the call
    number [call] of [scrape_for_content]. *)
Variable scrape_for_posts : string -> result (list string).
Variable scrape_for_content : nat -> string -> result (list string * list string).

(** The model: call number [call] of [model.generate_content]; [None] is a
    response whose [text] cannot be read. *)
Variable generate_content : nat -> string -> result (option string).

(** [for sublist in words: ...], lines 165-167 of the scraper. *)
Fixpoint words_loop (words : list (list string)) (total_contents : list string)
    (reply_contents : list odict) : list string * list odict :=
  match words with
  | [] => (total_contents, reply_contents)
  | sublist :: rest =>
      words_loop rest (total_contents ++ sublist) (reply_contents ++ [Counter sublist])
  end.

(** [for link in links: ...], lines 157-167; [call] counts the calls of
    [scrape_for_content] made so far. *)
Fixpoint links_loop (links : list string) (call : nat) (total_ops : csv)
    (total_contents : list string) (reply_contents : list odict)
    : result (csv * list string * list odict) :=
  match links with
  | [] => Ok (total_ops, total_contents, reply_contents)
  | link :: rest =>
      scraped ← scrape_for_content call link;
      let '(op_content, thread_content) := scraped in
      if bool_decide (op_content = []) || bool_decide (thread_content = [])
      then links_loop rest (S call) total_ops total_contents reply_contents
      else
        let total_ops := total_ops ++ [op_content] in
        let words := map split thread_content in
        let '(total_contents, reply_contents) :=
          words_loop words total_contents reply_contents in
        links_loop rest (S call) total_ops total_contents reply_contents
  end.

Definition combined_scrape (fs : gmap string csv)
    (url contents_filename op_filename : string)
    : result (list odict * gmap string csv) :=
  links ← scrape_for_posts url;
  scraped ← links_loop links 0 [] [] [];
  let '(total_ops, total_contents, reply_contents) := scraped in
  let fs := write_rows fs contents_filename [total_contents] in
  let fs := write_rows fs op_filename total_ops in
  Ok (reply_contents, fs).

(** [read_from_csv]: all the rows. *)
Definition read_from_csv (fs : gmap string csv) (csv_path : string) : result csv :=
  open_csv fs csv_path.

Definition generate_llm_response (call : nat) (game_title : string)
    (formatted_topic : list string) : result string :=
  match formatted_topic with
  | title :: content :: _ =>
      let llm_text_input :=
        "You are a player (do not act like a dev, that is dishonest and unhelpful) on a forum discussing "
        +:+ game_title +:+ ". Reply to a post with the title [" +:+ title
        +:+ "] with content [" +:+ content +:+ "]" in
      response ← generate_content call llm_text_input;
      match response with
      | Some text => Ok text
      | None => Ok ""
      end
  | _ => Err "IndexError"
  end.

(** [for sublist in words: total_contents += sublist] *)
Definition flatten (words : list (list string)) : list string :=
  foldl (fun total_contents sublist => total_contents ++ sublist) [] words.

Definition generate_llm_dataset (fs : gmap string csv) (responses : list string)
    (filename : string) : gmap string csv :=
  let words := map split responses in
  write_rows fs filename [flatten words].

(** [for topic in topics: all_responses.append(...)] *)
Fixpoint topics_loop (game_title : string) (topics : csv) (call : nat)
    (all_responses : list string) : result (list string) :=
  match topics with
  | [] => Ok all_responses
  | topic :: rest =>
      response ← generate_llm_response call game_title topic;
      topics_loop game_title rest (S call) (all_responses ++ [response])
  end.

Definition generate_all_responses (fs : gmap string csv)
    (game_title old_csv_path new_csv_path : string)
    : result (list odict * gmap string csv) :=
  topics ← read_from_csv fs old_csv_path;
  all_responses ← topics_loop game_title topics 0 [];
  let cleaned_responses := map clean all_responses in
  let fs := generate_llm_dataset fs cleaned_responses new_csv_path in
  let cleaned_responses := map (fun i => Counter (split i)) all_responses in
  Ok (cleaned_responses, fs).

(** ** [write_all_relevant_data] *)

Definition NUM_COMMON_WORDS : Z := 10.
Definition NUM_MOST_ENGLISH_WORDS : Z := 0.

Variable detect : string -> result string.
Variable set_order : list string -> list string.

(** [for i in range(num_common_word_trials): words_to_check.append(...)] *)
Fixpoint selector_loop (fs : gmap string csv) (num_common_word_intervals : Z)
    (contents_filename new_csv_path : string) (trials : list Z)
    (words_to_check : list odict) : result (list odict) :=
  match trials with
  | [] => Ok words_to_check
  | i :: rest =>
      d ← make_y_most_common_word_dicts detect set_order fs NUM_COMMON_WORDS
            (NUM_MOST_ENGLISH_WORDS + i * num_common_word_intervals)
            contents_filename new_csv_path;
      selector_loop fs num_common_word_intervals contents_filename new_csv_path rest
                    (words_to_check ++ [d])
  end.

(** [for index, d in enumerate(words_to_check): ...], lines 94-97. *)
Fixpoint dump_loop (posts llm_responses : list doc) (index : nat)
    (words_to_check : list odict) (st : state) (paths : list string)
    : list string * state :=
  match words_to_check with
  | [] => (paths, st)
  | d :: rest =>
      let path := str index +:+ "dump.json" in
      let st := State (<[path := Dump posts llm_responses (WordsDict d)]> (files st))
                      (heap st) in
      dump_loop posts llm_responses (S index) rest st (paths ++ [path])
  end.

Definition write_all_relevant_data (num_common_word_intervals num_common_word_trials : Z)
    (url game_title contents_filename op_filename new_csv_path : string)
    (fs : gmap string csv) (st : state)
    : result (list string * gmap string csv * state) :=
  scraped ← combined_scrape fs url contents_filename op_filename;
  let '(posts, fs) := scraped in
  generated ← generate_all_responses fs game_title op_filename new_csv_path;
  let '(llm_responses, fs) := generated in
  words_to_check ← selector_loop fs num_common_word_intervals contents_filename
                     new_csv_path (range num_common_word_trials) [];
  let '(paths, st) :=
    dump_loop (map json_doc posts) (map json_doc llm_responses) 0 words_to_check st [] in
  Ok (paths, fs, st).

(** [calculate_p_values_from_scratch] with the call of
    [write_all_relevant_data()] it starts with. *)
Definition run_entire_program (fs : gmap string csv) (st : state) : prog p_values :=
  written ← lift (write_all_relevant_data 500 3
                    "https://steamcommunity.com/app/1055540/discussions/0/"
                    "A Short Hike" "words.csv" "op.csv" "llm.csv" fs st);
  let '(paths, _, st) := written in
  calculate_p_values_from_scratch set_order paths st.

End Datasets.

(** What holds of the three lists at every turn of the loop over the links. *)
Definition scrape_inv (total_ops : csv) (total_contents : list string)
    (reply_contents : list odict) : Prop :=
  (forall w : string,
      py_sum (map (fun c => counter_getitem c w) reply_contents)
      = occurrences total_contents w)
  /\ (length total_ops <= length reply_contents)%nat
  /\ (total_ops = [] -> reply_contents = [])
  /\ Forall (fun op => op <> []) total_ops.

(** A network with two threads, the first without replies, and a model
    that answers every post the same way. *)
Definition example_split (s : string) : list string :=
  if decide (s = "a hike") then ["a"; "hike"]
  else if decide (s = "hike") then ["hike"]
  else if decide (s = "A hike!") then ["A"; "hike!"]
  else [s].

Definition example_clean (s : string) : string :=
  if decide (s = "A hike!") then "a hike" else s.

Definition example_scrape_for_posts (url : string) : result (list string) :=
  Ok ["thread1"; "thread2"].

Definition example_scrape_for_content (call : nat) (link : string)
    : result (list string * list string) :=
  if decide (link = "thread1") then Ok (["title1"; "content1"], [])
  else Ok (["title2"; "content2"], ["a hike"; "hike"]).

Definition example_generate_content (call : nat) (llm_text_input : string)
    : result (option string) :=
  Ok (Some "A hike!").

(** What the example network and model leave behind: the counters of the
    two replies, the counter of the one response, the CSV files and the
    three dumps. *)
Definition example_reply_contents : list odict := [ [("a", 1); ("hike", 1)]; [("hike", 1)] ].

Definition example_responses : list odict := [ [("A", 1); ("hike!", 1)] ].

Definition example_scraped_fs : gmap string csv :=
  write_rows (write_rows example_fs "words.csv" [ ["a"; "hike"; "hike"] ])
             "op.csv" [ ["title2"; "content2"] ].

Definition example_generated_fs : gmap string csv :=
  write_rows example_scraped_fs "llm.csv" [ ["a"; "hike"] ].

Definition example_dump (d : odict) : dump :=
  Dump (map json_doc example_reply_contents) (map json_doc example_responses) (WordsDict d).

Definition example_dumped_state : state :=
  State {[ "0dump.json" := example_dump [("hike", 2); ("a", 1)];
           "1dump.json" := example_dump [("hike", 2); ("a", 1)];
           "2dump.json" := example_dump [("hike", 2); ("a", 1)] ]}
        [].

Definition example_empty_state : state := State ∅ [].

(** * Proofs *)

(** ** Rounding never overflows on bounded quotients *)

Lemma digits2_log2 (p : positive) : Zpos (digits2_pos p) = Z.log2 (Zpos p) + 1.
Proof.
  induction p as [p IH|p IH|]; simpl digits2_pos.
  - rewrite Pos2Z.inj_succ, IH.
    change (Z.pos p~1) with (2 * Z.pos p + 1).
    rewrite Z.log2_succ_double by lia. lia.
  - rewrite Pos2Z.inj_succ, IH.
    change (Z.pos p~0) with (2 * Z.pos p).
    rewrite Z.log2_double by lia. lia.
  - reflexivity.
Qed.

Lemma Zdigits2_bound (m k : Z) : 0 <= k -> 0 <= m < 2 ^ k -> Zdigits2 m <= k.
Proof.
  intros Hk [Hm0 Hm]. destruct m as [|p|p]; simpl; try lia.
  rewrite digits2_log2.
  assert (Z.log2 (Z.pos p) < k) by (apply Z.log2_lt_pow2; lia). lia.
Qed.

Lemma shr_1_m (mrs : shr_record) :
  0 <= shr_m mrs -> shr_m (shr_1 mrs) = shr_m mrs / 2.
Proof.
  destruct mrs as [m r s]. simpl. intros Hm.
  destruct m as [|q|q]; [reflexivity| |lia].
  destruct q as [q|q|]; simpl shr_m.
  - rewrite Pos2Z.inj_xI. apply Z.div_unique with 1; lia.
  - rewrite Pos2Z.inj_xO. apply Z.div_unique with 0; lia.
  - reflexivity.
Qed.

Lemma iter_shr_1_m (p : positive) (mrs : shr_record) :
  0 <= shr_m mrs -> shr_m (SpecFloat.iter_pos shr_1 p mrs) = shr_m mrs / 2 ^ Zpos p.
Proof.
  revert mrs. induction p as [p IH|p IH|]; intros mrs Hm; simpl SpecFloat.iter_pos.
  - assert (H1 : 0 <= shr_m (shr_1 mrs)) by (rewrite shr_1_m by lia; apply Z.div_pos; lia).
    assert (H2 : 0 <= shr_m (SpecFloat.iter_pos shr_1 p (shr_1 mrs)))
      by (rewrite IH by lia; apply Z.div_pos; lia).
    rewrite IH, IH, shr_1_m by lia.
    rewrite !Z.div_div by lia.
    f_equal. change 2 with (2 ^ 1) at 1. rewrite <- !Z.pow_add_r by lia. f_equal. lia.
  - assert (H2 : 0 <= shr_m (SpecFloat.iter_pos shr_1 p mrs))
      by (rewrite IH by lia; apply Z.div_pos; lia).
    rewrite IH, IH by lia.
    rewrite !Z.div_div by lia.
    f_equal. rewrite <- Z.pow_add_r by lia. f_equal. lia.
  - rewrite shr_1_m by lia. reflexivity.
Qed.

Lemma shr_record_of_loc_m (m : Z) (l : location) : shr_m (shr_record_of_loc m l) = m.
Proof. destruct l as [|[ | | ]]; reflexivity. Qed.

Lemma shr_m_nonneg (mrs : shr_record) (e n : Z) :
  0 <= shr_m mrs -> 0 <= shr_m (fst (shr mrs e n)).
Proof.
  intros Hm. destruct n as [|p|p]; simpl; try lia.
  rewrite iter_shr_1_m by lia. apply Z.div_pos; lia.
Qed.

Lemma round_nearest_even_bounds (m : Z) (l : location) :
  m <= round_nearest_even m l <= m + 1.
Proof.
  unfold round_nearest_even. destruct l as [|[ | | ]]; try lia.
  destruct (Z.even m); lia.
Qed.

Lemma binary_round_aux_not_nan (s : bool) (mx ex : Z) (lx : location) :
  0 <= mx -> is_nan (binary_round_aux prec emax s mx ex lx) = false.
Proof.
  intros Hmx. unfold binary_round_aux, shr_fexp.
  destruct (shr (shr_record_of_loc mx lx) ex _) as [mrs' e'] eqn:E1.
  assert (H1 : 0 <= shr_m mrs').
  { change mrs' with (fst (mrs', e')). rewrite <- E1.
    apply shr_m_nonneg. rewrite shr_record_of_loc_m. exact Hmx. }
  destruct (shr (shr_record_of_loc (round_nearest_even _ _) _) e' _) as [mrs'' e''] eqn:E2.
  assert (H2 : 0 <= shr_m mrs'').
  { change mrs'' with (fst (mrs'', e'')). rewrite <- E2.
    apply shr_m_nonneg. rewrite shr_record_of_loc_m.
    pose proof (round_nearest_even_bounds (shr_m mrs') (loc_of_shr_record mrs')). lia. }
  destruct (shr_m mrs'') as [|p|p]; try reflexivity; try lia.
  destruct (_ <=? _); reflexivity.
Qed.

Lemma fexp_eq (e : Z) : fexp prec emax e = Z.max (e - 53) (-1074).
Proof. reflexivity. Qed.

Lemma shr_fexp_spec (m e : Z) (l : location) (K : Z) :
  0 <= m < 2 ^ (K - e) -> 0 <= K - e -> -1021 <= K ->
  let r := shr_fexp prec emax m e l in
  e <= snd r <= Z.max e (K - 53) /\
  0 <= shr_m (fst r) < 2 ^ (K - snd r) /\
  (snd r = e \/ snd r = fexp prec emax (Zdigits2 m + e)).
Proof.
  intros Hm HK HK'. unfold shr_fexp.
  pose proof (Zdigits2_bound m (K - e) HK Hm) as Hd.
  assert (Hf : fexp prec emax (Zdigits2 m + e) <= Z.max (K - 53) (-1074))
    by (rewrite fexp_eq; lia).
  assert (Hf' : -1074 <= fexp prec emax (Zdigits2 m + e))
    by (rewrite fexp_eq; lia).
  destruct (fexp prec emax (Zdigits2 m + e) - e) as [|p|p] eqn:En; simpl.
  - rewrite shr_record_of_loc_m. split; [lia|]. split; [lia|]. left; reflexivity.
  - rewrite iter_shr_1_m by (rewrite shr_record_of_loc_m; lia).
    rewrite shr_record_of_loc_m.
    assert (He : e + Z.pos p = fexp prec emax (Zdigits2 m + e)) by lia.
    split; [rewrite fexp_eq in *; lia|]. split; [|right; lia].
    split; [apply Z.div_pos; lia|].
    apply Z.div_lt_upper_bound; [lia|].
    rewrite <- Z.pow_add_r by lia.
    replace (Z.pos p + (K - (e + Z.pos p))) with (K - e) by lia. lia.
  - rewrite shr_record_of_loc_m. split; [lia|]. split; [lia|]. left; reflexivity.
Qed.

Lemma binary_round_aux_finite (s : bool) (mx ex : Z) (lx : location) :
  0 <= mx < 2 ^ (1022 - ex) -> ex <= 0 ->
  is_finite (binary_round_aux prec emax s mx ex lx) = true.
Proof.
  intros Hmx Hex. unfold binary_round_aux.
  pose proof (shr_fexp_spec mx ex lx 1022 Hmx ltac:(lia) ltac:(lia)) as H1.
  destruct (shr_fexp prec emax mx ex lx) as [mrs' e']. simpl in H1.
  destruct H1 as (He' & Hm' & _).
  set (mx' := round_nearest_even (shr_m mrs') (loc_of_shr_record mrs')).
  assert (Hr : 0 <= mx' < 2 ^ (1023 - e')).
  { pose proof (round_nearest_even_bounds (shr_m mrs') (loc_of_shr_record mrs')).
    fold mx' in H. replace (1023 - e') with (1 + (1022 - e')) by lia.
    rewrite Z.pow_add_r by lia. change (2 ^ 1) with 2. lia. }
  pose proof (shr_fexp_spec mx' e' loc_Exact 1023 Hr ltac:(lia) ltac:(lia)) as H2.
  destruct (shr_fexp prec emax mx' e' loc_Exact) as [mrs'' e'']. simpl in H2.
  destruct H2 as (He'' & Hm'' & _).
  destruct (shr_m mrs'') as [|p|p]; try reflexivity; try lia.
  replace (e'' <=? emax - prec) with true; [reflexivity|].
  symmetry. apply Z.leb_le. unfold emax, prec. lia.
Qed.

Lemma SFdiv_int_finite (a b : Z) :
  b <> 0 -> Z.abs a < Z.abs b * 2 ^ 1022 ->
  is_finite (SFdiv prec emax (int_to_float a) (int_to_float b)) = true.
Proof.
  intros Hb Hab.
  assert (Hpos : forall (sa sb : bool) (pa pb : positive),
    Z.pos pa < Z.pos pb * 2 ^ 1022 ->
    is_finite (SFdiv prec emax (S754_finite sa pa 0) (S754_finite sb pb 0)) = true).
  { intros sa sb pa pb Hlt. unfold SFdiv, SFdiv_core_binary.
    set (e' := Z.min _ _).
    assert (He' : e' <= 0) by (subst e'; lia).
    set (mm := match 0 - 0 - e' with Z0 => Z.pos pa | Zpos _ => Z.shiftl (Z.pos pa) (0 - 0 - e') | Zneg _ => 0 end).
    assert (Hmm : mm = Z.pos pa * 2 ^ (- e')).
    { subst mm. destruct (0 - 0 - e') as [|p|p] eqn:Es.
      - replace (- e') with 0 by lia. lia.
      - rewrite Z.shiftl_mul_pow2 by lia. replace (- e') with (Z.pos p) by lia. reflexivity.
      - lia. }
    pose proof (Z.div_eucl_eq mm (Z.pos pb) ltac:(lia)) as Hdiv.
    pose proof (Z.mod_pos_bound mm (Z.pos pb) ltac:(lia)) as Hmod.
    unfold Z.modulo in Hmod.
    destruct (Z.div_eucl mm (Z.pos pb)) as [q r].
    apply binary_round_aux_finite; [|exact He'].
    assert (H2 : 0 < 2 ^ (- e')) by (apply Z.pow_pos_nonneg; lia).
    replace (1022 - e') with (1022 + - e') by lia.
    rewrite Z.pow_add_r by lia. nia. }
  destruct a as [|pa|pa], b as [|pb|pb]; try lia; try reflexivity;
    apply Hpos; simpl in Hab; lia.
Qed.

(** ** Float facts used by the test *)

Lemma float_sub_self (x : float) : is_finite x = true -> float_sub x x = float_zero.
Proof.
  destruct x as [[|]| |  |s m e]; try discriminate; try reflexivity.
  intros _. unfold float_sub, SFsub.
  rewrite Z.min_id. unfold shl_align. rewrite Z.sub_diag. simpl fst.
  reflexivity.
Qed.

Lemma binary_normalize_not_nan (m e : Z) (sz : bool) :
  is_nan (binary_normalize prec emax m e sz) = false.
Proof.
  destruct m as [|p|p]; [reflexivity| |]; unfold binary_normalize, binary_round;
    destruct (shl_align _ _ _) as [mz ez]; apply binary_round_aux_not_nan; lia.
Qed.

Lemma float_sub_not_nan (x y : float) :
  is_finite x = true -> is_finite y = true -> is_nan (float_sub x y) = false.
Proof.
  destruct x as [[|]| | |sx mx ex], y as [[|]| | |sy my ey];
    try discriminate; try reflexivity; intros _ _.
  apply binary_normalize_not_nan.
Qed.

Lemma float_ge_abs_zero (x : float) :
  is_nan x = false -> float_ge (float_abs x) float_zero = true.
Proof. destruct x as [[|]|[|]| |[|] m e]; try discriminate; reflexivity. Qed.

(** ** Means of bounded counts *)

Lemma foldl_add_acc (l : list Z) (acc : Z) : foldl Z.add acc l = acc + foldl Z.add 0 l.
Proof.
  revert acc. induction l as [|w l IH]; intros acc; cbn [foldl]; [lia|].
  rewrite (IH (acc + w)), (IH (0 + w)). lia.
Qed.

Lemma py_sum_cons (v : Z) (l : list Z) : py_sum (v :: l) = v + py_sum l.
Proof. unfold py_sum. simpl. apply foldl_add_acc. Qed.

Lemma py_sum_abs_bound (l : list Z) :
  bounded_counts l -> Z.abs (py_sum l) <= len l * (count_bound - 1).
Proof.
  induction 1 as [|v l Hv Hl IH]; [reflexivity|].
  rewrite py_sum_cons. unfold len in *. simpl length. lia.
Qed.

Lemma truediv_finite (a b : Z) :
  b <> 0 -> Z.abs a < Z.abs b * count_bound ->
  truediv a b = Ok (SFdiv prec emax (int_to_float a) (int_to_float b)) /\
  is_finite (SFdiv prec emax (int_to_float a) (int_to_float b)) = true.
Proof.
  intros Hb Hab. pose proof (SFdiv_int_finite a b Hb Hab) as Hfin.
  split; [|exact Hfin]. unfold truediv.
  destruct (Z.eqb_spec b 0) as [->|_]; [lia|].
  destruct (SFdiv prec emax _ _); try reflexivity; discriminate.
Qed.

Lemma count_bound_pos : 0 < count_bound.
Proof. unfold count_bound. apply Z.pow_pos_nonneg; lia. Qed.

(** Dividing the sum of [k >= 1] bounded counts by [k] is a finite mean. *)
Lemma truediv_mean (l : list Z) :
  l <> [] -> bounded_counts l ->
  truediv (py_sum l) (len l) = Ok (spec_mean l) /\ is_finite (spec_mean l) = true.
Proof.
  intros Hne Hb. apply truediv_finite.
  - unfold len. destruct l; [congruence|simpl; lia].
  - pose proof (py_sum_abs_bound l Hb). pose proof count_bound_pos.
    assert (0 < len l) by (unfold len; destruct l; [congruence|simpl; lia]).
    nia.
Qed.

(** ** Running binds, resamples and the loop *)

Lemma result_bind_Ok {A B : Type} (a : A) (f : A -> result B) : (Ok a ≫= f) = f a.
Proof. reflexivity. Qed.

Lemma result_bind_inv {A B : Type} (r : result A) (f : A -> result B) (b : B) :
  (r ≫= f) = Ok b -> exists a, r = Ok a /\ f a = Ok b.
Proof. destruct r as [a|e]; [intros H; exists a; split; [reflexivity|exact H]|discriminate]. Qed.

Lemma iterate_inv (v : option (list string)) (l : list string) :
  iterate v = Ok l -> v = Some l.
Proof. destruct v; [intros [= ->]; reflexivity|discriminate]. Qed.

Lemma bind_Ret {A B : Type} (a : A) (f : A -> prog B) : (Ret a ≫= f) = f a.
Proof. reflexivity. Qed.

Lemma run_bind {A B : Type} (p : prog A) (f : A -> prog B) (tape : nat -> Z) (pos : nat) :
  run (p ≫= f) tape pos =
  match run p tape pos with
  | Some (Returned a, reqs) =>
      match run (f a) tape (pos + length reqs)%nat with
      | Some (o, reqs') => Some (o, reqs ++ reqs')
      | None => None
      end
  | Some (Raised e, reqs) => Some (Raised e, reqs)
  | None => None
  end.
Proof.
  revert pos. induction p as [a|e|lo hi k IH]; intros pos.
  - simpl. rewrite Nat.add_0_r. change (Ret a ≫= f) with (f a).
    destruct (run (f a) tape pos) as [[o reqs]|]; reflexivity.
  - reflexivity.
  - change (RandInt lo hi k ≫= f) with (RandInt lo hi (fun v => k v ≫= f)).
    simpl. destruct ((lo <=? tape pos) && (tape pos <=? hi)); [|reflexivity].
    rewrite IH. destruct (run (k (tape pos)) tape (S pos)) as [[[a|e] reqs]|]; try reflexivity.
    simpl length. replace (pos + S (length reqs))%nat with (S pos + length reqs)%nat by lia.
    destruct (run (f a) tape _) as [[o reqs']|]; reflexivity.
Qed.

Lemma getitem_in_range (pool : list Z) (i : Z) :
  0 <= i < len pool -> getitem pool i = Ok (nth (Z.to_nat i) pool 0).
Proof.
  intros Hi. unfold getitem.
  destruct (Z.ltb_spec i 0) as [?|_]; [lia|].
  destruct (Z.ltb_spec i 0) as [?|_]; [lia|].
  destruct (pool !! Z.to_nat i) as [a|] eqn:E.
  - f_equal. symmetry. apply nth_lookup_Some with (d := 0) in E. exact E.
  - apply lookup_ge_None in E. unfold len in Hi. lia.
Qed.

Lemma run_resample (pool : list Z) (tape : nat -> Z) (k pos : nat) :
  valid_tape tape (len pool) ->
  run (resample pool k) tape pos =
  Some (Returned (drawn pool tape pos k), repeat (0, len pool - 1) k).
Proof.
  intros Hv. revert pos. induction k as [|k IH]; intros pos; [reflexivity|].
  simpl resample. unfold randint.
  pose proof (Hv pos) as Hp.
  destruct (Z.leb_spec 0 (len pool - 1)) as [_|?]; [|lia].
  change (RandInt 0 (len pool - 1) Ret ≫= ?f) with (RandInt 0 (len pool - 1) f).
  simpl run.
  destruct (Z.leb_spec 0 (tape pos)) as [_|?]; [|lia].
  destruct (Z.leb_spec (tape pos) (len pool - 1)) as [_|?]; [|lia].
  simpl andb. cbv iota.
  rewrite getitem_in_range by lia. simpl lift. rewrite bind_Ret.
  rewrite run_bind, IH. simpl. rewrite app_nil_r. reflexivity.
Qed.

Lemma drawn_length (pool : list Z) (tape : nat -> Z) (pos k : nat) :
  length (drawn pool tape pos k) = k.
Proof. unfold drawn. rewrite length_map, length_seq. reflexivity. Qed.

Lemma counts_length (corpus : list doc) (word : string) :
  length (counts corpus word) = length corpus.
Proof. apply length_map. Qed.

Create Rewrite HintDb list_len.
#[local] Hint Rewrite @length_map @length_app drawn_length counts_length : list_len.

(** A list whose length is known to be positive is not empty. *)
Ltac nonempty :=
  let E := fresh "E" in
  intros E; apply (f_equal length) in E; autorewrite with list_len in E;
  simpl in E; lia.

Lemma drawn_bounded (pool : list Z) (tape : nat -> Z) (pos k : nat) :
  bounded_counts pool -> bounded_counts (drawn pool tape pos k).
Proof.
  intros Hb. unfold bounded_counts, drawn in *. apply Forall_forall.
  intros v Hin. apply list_elem_of_In, in_map_iff in Hin. destruct Hin as (j & <- & _).
  destruct (nth_in_or_default (Z.to_nat (tape j)) pool 0) as [Hin| ->].
  - rewrite Forall_forall in Hb. apply Hb, list_elem_of_In, Hin.
  - apply count_bound_pos.
Qed.

(** The mean that the loop computes for a resample of [k >= 1] draws. *)
Lemma truediv_drawn (pool : list Z) (tape : nat -> Z) (pos k : nat) :
  bounded_counts pool -> (0 < k)%nat ->
  truediv (py_sum (drawn pool tape pos k)) (Z.of_nat k)
  = Ok (spec_mean (drawn pool tape pos k)).
Proof.
  intros Hb Hk.
  assert (Hne : drawn pool tape pos k <> []).
  { nonempty. }
  destruct (truediv_mean _ Hne (drawn_bounded pool tape pos k Hb)) as [H _].
  unfold len in H. rewrite drawn_length in H. exact H.
Qed.

Lemma spec_counter_succ (pool : list Z) (tape : nat -> Z) (n m : nat)
    (observed : float) (r0 iters : nat) :
  len (filter (fun i => round_hit pool tape n m observed i = true) (seq r0 (S iters)))
  = (if round_hit pool tape n m observed r0 then 1 else 0)
    + len (filter (fun i => round_hit pool tape n m observed i = true) (seq (S r0) iters)).
Proof.
  simpl seq. rewrite filter_cons.
  destruct (decide (round_hit pool tape n m observed r0 = true)) as [->|Hn].
  - unfold len. simpl length. lia.
  - destruct (round_hit pool tape n m observed r0); [congruence|]. lia.
Qed.

Lemma run_round_resamples (pool : list Z) (tape : nat -> Z) (n m pos : nat) :
  valid_tape tape (len pool) ->
  run (round_resamples pool (Z.of_nat n) (Z.of_nat m)) tape pos
  = Some (Returned (drawn pool tape pos n, drawn pool tape (pos + n) m),
          repeat (0, len pool - 1) n ++ repeat (0, len pool - 1) m).
Proof.
  intros Hv. unfold round_resamples. rewrite !Nat2Z.id.
  rewrite run_bind, run_resample by exact Hv. rewrite repeat_length.
  rewrite run_bind, run_resample by exact Hv. cbn [run]. rewrite app_nil_r.
  reflexivity.
Qed.

Lemma run_resample_loop (pool : list Z) (tape : nat -> Z) (n m : nat) (observed : float) :
  (0 < n)%nat -> (0 < m)%nat ->
  valid_tape tape (len pool) -> bounded_counts pool ->
  forall (iters r0 : nat) (count : Z),
  run (resample_loop iters pool (Z.of_nat n) (Z.of_nat m) observed count)
      tape (r0 * (n + m))
  = Some (Returned
            (count + len (filter (fun i => round_hit pool tape n m observed i = true)
                                 (seq r0 iters))),
          repeat (0, len pool - 1) (iters * (n + m))).
Proof.
  intros Hn Hm Hv Hb. induction iters as [|iters IH]; intros r0 count.
  - simpl. unfold len. simpl. rewrite Z.add_0_r. reflexivity.
  - cbn [resample_loop]. rewrite run_bind, run_round_resamples by assumption.
    rewrite length_app, !repeat_length. cbn [fst snd].
    rewrite !truediv_drawn by assumption. simpl lift. rewrite !bind_Ret.
    rewrite Nat.add_assoc.
    replace (r0 * (n + m) + n + m)%nat with (S r0 * (n + m))%nat by lia.
    rewrite IH. rewrite spec_counter_succ.
    fold (spec_diff (drawn pool tape (r0 * (n + m)) n) (drawn pool tape (r0 * (n + m) + n) m)).
    fold (round_hit pool tape n m observed r0).
    rewrite <- !repeat_app.
    replace (n + m + iters * (n + m))%nat with (S iters * (n + m))%nat by lia.
    do 3 f_equal. destruct (round_hit pool tape n m observed r0); lia.
Qed.

Lemma spec_counter_range (pool : list Z) (tape : nat -> Z) (n m : nat)
    (observed : float) (R : nat) :
  0 <= spec_counter pool tape n m observed R <= Z.of_nat R.
Proof.
  unfold spec_counter, len. split; [lia|].
  apply Nat2Z.inj_le. etransitivity; [apply length_filter|]. rewrite length_seq. lia.
Qed.

Lemma truediv_counter (c : Z) :
  0 <= c <= ROUNDS -> truediv c ROUNDS = Ok (spec_p_value c).
Proof.
  intros Hc. apply truediv_finite; [discriminate|].
  assert (2 ^ 1 <= count_bound) by (apply Z.pow_le_mono_r; lia).
  change (2 ^ 1) with 2 in *. unfold ROUNDS in *.
  change (Z.abs 10000) with 10000. rewrite Z.abs_eq by lia. nia.
Qed.

Lemma bounded_counts_app (l1 l2 : list Z) :
  bounded_counts (l1 ++ l2) <-> bounded_counts l1 /\ bounded_counts l2.
Proof. apply Forall_app. Qed.

(** The observed statistic of a pair of non-empty, bounded corpora. *)
Lemma observed_diff_of_ok (post_nums llm_response_nums : list Z) :
  post_nums <> [] -> llm_response_nums <> [] ->
  bounded_counts (post_nums ++ llm_response_nums) ->
  observed_diff_of post_nums llm_response_nums
  = Ok (spec_diff post_nums llm_response_nums).
Proof.
  intros Hp Hl Hb. apply bounded_counts_app in Hb as [Hb1 Hb2].
  unfold observed_diff_of.
  destruct (truediv_mean _ Hp Hb1) as [-> _].
  destruct (truediv_mean _ Hl Hb2) as [-> _].
  reflexivity.
Qed.

(** The whole run of the test on a valid tape, for both source variants. *)
Lemma run_calculate_p_value (posts llm_responses : list doc) (word : string)
    (tape : nat -> Z) :
  let n := length posts in
  let m := length llm_responses in
  let pool := counts posts word ++ counts llm_responses word in
  let observed := spec_diff (counts posts word) (counts llm_responses word) in
  let counter := spec_counter pool tape n m observed (Z.to_nat ROUNDS) in
  (1 <= n)%nat -> (1 <= m)%nat ->
  bounded_counts pool -> valid_tape tape (Z.of_nat (n + m)) ->
  run (calculate_p_value posts llm_responses word) tape 0
  = Some (Returned [observed; spec_p_value counter],
          repeat (0, Z.of_nat (n + m) - 1) (Z.to_nat ROUNDS * (n + m)))
  /\ run (determine_p_values.calculate_p_value posts llm_responses word) tape 0
  = Some (Returned (spec_p_value counter),
          repeat (0, Z.of_nat (n + m) - 1) (Z.to_nat ROUNDS * (n + m))).
Proof.
  intros n m pool observed counter Hn Hm Hb Hv.
  assert (Hlen : len pool = Z.of_nat (n + m)).
  { unfold len, pool. rewrite length_app, !counts_length. reflexivity. }
  assert (Hp : counts posts word <> []).
  { nonempty. }
  assert (Hl : counts llm_responses word <> []).
  { nonempty. }
  pose proof (observed_diff_of_ok _ _ Hp Hl Hb) as Hobs.
  assert (Hloop : run (resample_loop (Z.to_nat ROUNDS) pool (Z.of_nat n) (Z.of_nat m)
                         observed 0) tape 0
                  = Some (Returned counter,
                          repeat (0, Z.of_nat (n + m) - 1) (Z.to_nat ROUNDS * (n + m)))).
  { change 0%nat with (0 * (n + m))%nat at 1.
    rewrite run_resample_loop; try assumption; try lia.
    - rewrite Hlen, Z.add_0_l. reflexivity.
    - rewrite Hlen. exact Hv. }
  pose proof (spec_counter_range pool tape n m observed (Z.to_nat ROUNDS)) as Hc.
  fold counter in Hc. rewrite Z2Nat.id in Hc by (unfold ROUNDS; lia).
  unfold calculate_p_value, determine_p_values.calculate_p_value.
  fold (counts posts word) (counts llm_responses word). fold pool.
  unfold len at 1 2 3 4. rewrite !counts_length. fold n m.
  rewrite Hobs. simpl lift. rewrite !bind_Ret. fold observed.
  split.
  - rewrite run_bind, Hloop, bind_Ret. rewrite truediv_counter by exact Hc.
    cbn [lift mbind prog_bind prog_bind_fix run]. rewrite app_nil_r. reflexivity.
  - rewrite run_bind, Hloop. rewrite truediv_counter by exact Hc.
    cbn [lift run]. rewrite app_nil_r. reflexivity.
Qed.

Lemma example_counts :
  counts example_posts "x" = [2; 0; 1] /\ counts example_llm_responses "x" = [0; 0; 0].
Proof. split; reflexivity. Qed.

Lemma example_bounded :
  bounded_counts (counts example_posts "x" ++ counts example_llm_responses "x").
Proof.
  destruct example_counts as [-> ->]. unfold bounded_counts.
  repeat constructor.
Qed.

Lemma Permutation_py_sum (l1 l2 : list Z) : Permutation l1 l2 -> py_sum l1 = py_sum l2.
Proof.
  induction 1 as [|v l1 l2 _ IH|v w l|l1 l2 l3 _ IH1 _ IH2].
  - reflexivity.
  - rewrite !py_sum_cons, IH. reflexivity.
  - rewrite !py_sum_cons. lia.
  - congruence.
Qed.

Lemma spec_mean_Permutation (l1 l2 : list Z) :
  Permutation l1 l2 -> spec_mean l1 = spec_mean l2.
Proof.
  intros H. unfold spec_mean, len.
  rewrite (Permutation_py_sum _ _ H), (Permutation_length H). reflexivity.
Qed.

(** With an observed difference of [+0.0] every round is a hit. *)
Lemma round_hit_zero (pool : list Z) (tape : nat -> Z) (n m i : nat) :
  bounded_counts pool -> (0 < n)%nat -> (0 < m)%nat ->
  round_hit pool tape n m float_zero i = true.
Proof.
  intros Hb Hn Hm. unfold round_hit, spec_diff.
  apply float_ge_abs_zero, float_sub_not_nan.
  - apply truediv_mean; [|apply drawn_bounded, Hb].
    nonempty.
  - apply truediv_mean; [|apply drawn_bounded, Hb].
    nonempty.
Qed.

Lemma spec_counter_all_hits (pool : list Z) (tape : nat -> Z) (n m : nat)
    (observed : float) (R : nat) :
  (forall i, round_hit pool tape n m observed i = true) ->
  spec_counter pool tape n m observed R = Z.of_nat R.
Proof.
  intros Hall. unfold spec_counter, len. f_equal.
  generalize 0%nat. induction R as [|R IH]; intros s; [reflexivity|].
  simpl seq. rewrite filter_cons_True by apply Hall. simpl. f_equal. apply IH.
Qed.

(** ** Resamples are uniform and independent *)

Local Open Scope Qc_scope.

Lemma Qc_sum_zero {A : Type} (l : list A) : Qc_sum (map (fun _ => 0) l) = 0.
Proof. induction l as [|a l IH]; simpl; [reflexivity|]. rewrite IH. ring. Qed.

Lemma Qc_sum_scale {A : Type} (f : A -> Qc) (c : Qc) (l : list A) :
  Qc_sum (map (fun a => f a * c) l) = Qc_sum (map f l) * c.
Proof. induction l as [|a l IH]; simpl; [ring|]. rewrite IH. ring. Qed.

Lemma Qc_div_scale (s c d : Qc) : s * c / d = s / d * c.
Proof. unfold Qcdiv. ring. Qed.

Lemma prob_bind_cons (p : prog (list Z)) (x v0 : Z) (vs : list Z) :
  prob (p ≫= fun rest => Ret (x :: rest)) (returns (v0 :: vs))
  = if decide (x = v0) then prob p (returns vs) else 0.
Proof.
  induction p as [l|e|lo hi k IH].
  - change (Ret l ≫= _) with (@Ret (list Z) (x :: l)). cbn [prob returns].
    destruct (decide (x = v0)) as [->|Hne].
    + destruct (decide (l = vs)) as [->|Hl].
      * rewrite !bool_decide_eq_true_2; reflexivity.
      * rewrite !bool_decide_eq_false_2; [reflexivity|exact Hl|congruence].
    + rewrite bool_decide_eq_false_2 by congruence. reflexivity.
  - cbn. destruct (decide (x = v0)); reflexivity.
  - change (RandInt lo hi k ≫= ?f) with (RandInt lo hi (fun v => k v ≫= f)).
    cbn [prob]. destruct (decide (x = v0)) as [->|Hne].
    + f_equal. f_equal. apply map_ext. intros v. apply IH.
    + replace (map _ (int_range lo hi)) with (map (fun _ : Z => 0) (int_range lo hi)).
      * rewrite Qc_sum_zero. unfold Qcdiv. ring.
      * apply map_ext. intros v. symmetry. apply IH.
Qed.

Lemma prob_bind_pair {A B : Type} `{EqDecision A} `{EqDecision B}
    (q : prog B) (a va : A) (vb : B) :
  prob (q ≫= fun b => Ret (a, b)) (returns (va, vb))
  = if decide (a = va) then prob q (returns vb) else 0.
Proof.
  induction q as [b|e|lo hi k IH].
  - change (Ret b ≫= _) with (@Ret (A * B) (a, b)). cbn [prob returns].
    destruct (decide (a = va)) as [->|Hne].
    + destruct (decide (b = vb)) as [->|Hb].
      * rewrite !bool_decide_eq_true_2; reflexivity.
      * rewrite !bool_decide_eq_false_2; [reflexivity|exact Hb|congruence].
    + rewrite bool_decide_eq_false_2 by congruence. reflexivity.
  - cbn. destruct (decide (a = va)); reflexivity.
  - change (RandInt lo hi k ≫= ?f) with (RandInt lo hi (fun v => k v ≫= f)).
    cbn [prob]. destruct (decide (a = va)) as [->|Hne].
    + f_equal. f_equal. apply map_ext. intros v. apply IH.
    + replace (map _ (int_range lo hi)) with (map (fun _ : Z => 0) (int_range lo hi)).
      * rewrite Qc_sum_zero. unfold Qcdiv. ring.
      * apply map_ext. intros v. symmetry. apply IH.
Qed.

(** Two programs run one after the other return a given pair with the
    product of the two probabilities. *)
Lemma prob_pair {A B : Type} `{EqDecision A} `{EqDecision B}
    (p : prog A) (q : prog B) (va : A) (vb : B) :
  prob (p ≫= fun a => q ≫= fun b => Ret (a, b)) (returns (va, vb))
  = prob p (returns va) * prob q (returns vb).
Proof.
  induction p as [a|e|lo hi k IH].
  - change (Ret a ≫= ?f) with (f a). cbv beta. rewrite prob_bind_pair.
    cbn [prob returns]. destruct (decide (a = va)) as [->|Hne].
    + rewrite bool_decide_eq_true_2 by reflexivity. ring.
    + rewrite bool_decide_eq_false_2 by exact Hne. ring.
  - cbn. ring.
  - change (RandInt lo hi k ≫= ?f) with (RandInt lo hi (fun v => k v ≫= f)).
    cbn [prob].
    replace (map (fun v => prob (k v ≫= _) (returns (va, vb))) (int_range lo hi))
      with (map (fun v => prob (k v) (returns va) * prob q (returns vb)) (int_range lo hi))
      by (apply map_ext; intros v; rewrite IH; reflexivity).
    rewrite Qc_sum_scale. apply Qc_div_scale.
Qed.

Lemma int_range_index (pool : list Z) :
  pool <> [] ->
  int_range 0 (len pool - 1) = map Z.of_nat (seq 0 (length pool)).
Proof.
  intros Hne. unfold int_range, len.
  replace (Z.to_nat (Z.of_nat (length pool) - 1 - 0 + 1)) with (length pool) by lia.
  apply map_ext. intros i. lia.
Qed.

Lemma multiplicity_cons (a : Z) (pool : list Z) (v : Z) :
  multiplicity (a :: pool) v = ((if decide (a = v) then 1 else 0) + multiplicity pool v)%Z.
Proof.
  unfold multiplicity, len. rewrite filter_cons.
  destruct (decide (a = v)); simpl length; lia.
Qed.

Lemma Qc_sum_indicator (pool : list Z) (v0 : Z) (c : Qc) :
  Qc_sum (map (fun i : nat => if decide (nth i pool 0%Z = v0) then c else 0)
              (seq 0 (length pool)))
  = Qc_of_Z (multiplicity pool v0) * c.
Proof.
  induction pool as [|a pool IH].
  - change (multiplicity [] v0) with 0%Z. rewrite Z2Qc_inj_0.
    cbn [length seq map Qc_sum foldr]. ring.
  - simpl length. cbn [seq map Qc_sum foldr]. rewrite <- seq_shift, map_map.
    cbn [nth]. fold (Qc_sum (map (fun i : nat => if decide (nth i pool 0%Z = v0) then c else 0)
                                 (seq 0 (length pool)))).
    rewrite IH, multiplicity_cons, Z2Qc_inj_add.
    destruct (decide (a = v0)); [rewrite Z2Qc_inj_1|rewrite Z2Qc_inj_0]; ring.
Qed.

(** A resample returns a given sequence with the product, over its entries,
    of the share of the pool positions that hold the entry. *)
Lemma prob_resample (pool : list Z) (vs : list Z) :
  pool <> [] ->
  prob (resample pool (length vs)) (returns vs)
  = Qc_prod (map (fun v => Qc_of_Z (multiplicity pool v) / Qc_of_Z (len pool)) vs).
Proof.
  intros Hne. induction vs as [|v0 vs IH].
  - cbn. rewrite bool_decide_eq_true_2 by reflexivity. reflexivity.
  - simpl length. cbn [resample]. unfold randint.
    assert (Hlen : (0 < len pool)%Z)
      by (unfold len; destruct pool; [congruence|simpl; lia]).
    destruct (Z.leb_spec 0 (len pool - 1)) as [_|?]; [|lia].
    change (RandInt 0 (len pool - 1) Ret ≫= ?f) with (RandInt 0 (len pool - 1) f).
    cbn [prob map Qc_prod foldr].
    fold (Qc_prod (map (fun v => Qc_of_Z (multiplicity pool v) / Qc_of_Z (len pool)) vs)).
    rewrite <- IH. rewrite int_range_index by exact Hne. rewrite map_map.
    replace (len pool - 1 - 0 + 1)%Z with (len pool) by lia.
    replace (map _ (seq 0 (length pool)))
      with (map (fun i : nat => if decide (nth i pool 0%Z = v0)
                                then prob (resample pool (length vs)) (returns vs) else 0)
                (seq 0 (length pool))).
    + rewrite Qc_sum_indicator. unfold Qcdiv. ring.
    + apply map_ext_in. intros i Hi. apply in_seq in Hi.
      rewrite getitem_in_range by (unfold len; lia).
      cbn [lift]. rewrite bind_Ret, Nat2Z.id. symmetry. apply prob_bind_cons.
Qed.

(** The two resamples of a round are independent. *)
Lemma prob_round_resamples (pool : list Z) (n m : Z) (va vb : list Z) :
  prob (round_resamples pool n m) (returns (va, vb))
  = prob (resample pool (Z.to_nat n)) (returns va)
    * prob (resample pool (Z.to_nat m)) (returns vb).
Proof. unfold round_resamples. apply prob_pair. Qed.

Local Close Scope Qc_scope.

(** ** Insertion-ordered dictionaries *)

Lemma dict_get_None (d : odict) (k : string) : dict_get d k = None <-> k ∉ keys d.
Proof.
  induction d as [|[k' v] d IH]; simpl.
  - split; [intros _; apply not_elem_of_nil|reflexivity].
  - rewrite not_elem_of_cons. destruct (decide (k' = k)) as [->|Hne].
    + split; [discriminate|intros [? _]; congruence].
    + rewrite IH. split; [intros H; split; [congruence|exact H]|intros [_ H]; exact H].
Qed.

Lemma elem_keys (d : odict) (k : string) (v : Z) : (k, v) ∈ d -> k ∈ keys d.
Proof.
  intros H. unfold keys. apply list_elem_of_In, in_map_iff.
  exists (k, v). split; [reflexivity|apply list_elem_of_In, H].
Qed.

Lemma elem_dict_get (d : odict) (k : string) (v : Z) :
  NoDup (keys d) -> (k, v) ∈ d -> dict_get d k = Some v.
Proof.
  induction d as [|[k' v'] d IH]; simpl; intros Hnd Hin.
  - apply elem_of_nil in Hin. contradiction.
  - apply NoDup_cons in Hnd as [Hk' Hnd]. apply elem_of_cons in Hin as [[= -> ->]|Hin].
    + rewrite decide_True by reflexivity. reflexivity.
    + destruct (decide (k' = k)) as [->|Hne].
      * exfalso. apply Hk'. eapply elem_keys, Hin.
      * apply IH; assumption.
Qed.

Lemma dict_set_fresh (d : odict) (k : string) (v : Z) :
  k ∉ keys d -> dict_set d k v = d ++ [(k, v)].
Proof.
  induction d as [|[k' v'] d IH]; simpl; intros Hk; [reflexivity|].
  apply not_elem_of_cons in Hk as [Hne Hk].
  rewrite decide_False by congruence. rewrite IH by exact Hk. reflexivity.
Qed.

Lemma keys_dict_set_present (d : odict) (k : string) (v : Z) :
  k ∈ keys d -> keys (dict_set d k v) = keys d.
Proof.
  induction d as [|[k' v'] d IH]; simpl; intros Hk.
  - apply elem_of_nil in Hk. contradiction.
  - destruct (decide (k' = k)) as [->|Hne]; [reflexivity|].
    apply elem_of_cons in Hk as [->|Hk]; [congruence|].
    simpl. rewrite IH by exact Hk. reflexivity.
Qed.

Lemma keys_app (d1 d2 : odict) : keys (d1 ++ d2) = keys d1 ++ keys d2.
Proof. apply map_app. Qed.

Lemma dict_get_set (d : odict) (k k' : string) (v : Z) :
  dict_get (dict_set d k v) k' = if decide (k = k') then Some v else dict_get d k'.
Proof.
  induction d as [|[k0 v0] d IH]; simpl.
  - reflexivity.
  - destruct (decide (k0 = k)) as [->|Hne]; simpl.
    + destruct (decide (k = k')); reflexivity.
    + destruct (decide (k0 = k')) as [->|Hne'].
      * rewrite decide_False by congruence. reflexivity.
      * exact IH.
Qed.

(** Rebuilding a dictionary from its own keys gives it back. *)
Lemma odict_rebuild (d : odict) :
  NoDup (keys d) -> map (fun i => (i, counter_getitem d i)) (keys d) = d.
Proof.
  intros Hnd. unfold keys. rewrite map_map.
  rewrite <- (map_id d) at 2. apply map_ext_in.
  intros [k v] Hin. simpl. unfold counter_getitem.
  rewrite (elem_dict_get d k v Hnd) by (apply list_elem_of_In, Hin). reflexivity.
Qed.

(** A comprehension over pairs with distinct keys is the list of pairs. *)
Lemma dict_of_items_NoDup (items : list (string * Z)) :
  NoDup (keys items) -> dict_of_items items = items.
Proof.
  unfold dict_of_items.
  enough (H : forall acc, NoDup (keys (acc ++ items)) ->
            foldl (fun d item => dict_set d (fst item) (snd item)) acc items = acc ++ items)
    by (intros Hnd; apply (H [] Hnd)).
  induction items as [|[k v] items IH]; intros acc Hnd; simpl.
  - rewrite app_nil_r. reflexivity.
  - rewrite dict_set_fresh.
    + rewrite IH; rewrite <- app_assoc; [reflexivity|exact Hnd].
    + rewrite keys_app in Hnd. apply NoDup_app in Hnd as (_ & Hdis & _).
      intros Hk. apply (Hdis k Hk). apply list_elem_of_here.
Qed.

(** ** [Counter] *)

Lemma keys_dict_set_NoDup (d : odict) (k : string) (v : Z) :
  NoDup (keys d) -> NoDup (keys (dict_set d k v)).
Proof.
  intros Hnd. destruct (decide (k ∈ keys d)) as [Hin|Hnin].
  - rewrite keys_dict_set_present by exact Hin. exact Hnd.
  - rewrite dict_set_fresh, keys_app by exact Hnin. apply NoDup_app.
    split; [exact Hnd|]. split; [|apply NoDup_singleton].
    intros x Hx Hx'. apply list_elem_of_singleton in Hx'. simpl in Hx'. congruence.
Qed.

Lemma elem_keys_dict_set (d : odict) (k k' : string) (v : Z) :
  k' ∈ keys (dict_set d k v) <-> k' = k \/ k' ∈ keys d.
Proof.
  destruct (decide (k ∈ keys d)) as [Hin|Hnin].
  - rewrite keys_dict_set_present by exact Hin. split; [auto|intros [->|H]; assumption].
  - rewrite dict_set_fresh, keys_app, elem_of_app by exact Hnin.
    simpl. rewrite list_elem_of_singleton. tauto.
Qed.

Lemma occurrences_cons (w : string) (l : list string) (k : string) :
  occurrences (w :: l) k = (if decide (w = k) then 1 else 0) + occurrences l k.
Proof.
  unfold occurrences, len. rewrite filter_cons.
  destruct (decide (w = k)); simpl length; lia.
Qed.

Lemma occurrences_nonneg (l : list string) (k : string) : 0 <= occurrences l k.
Proof. unfold occurrences, len. lia. Qed.

Lemma occurrences_pos (l : list string) (k : string) : k ∈ l <-> 1 <= occurrences l k.
Proof.
  induction l as [|w l IH].
  - split; [intros H; apply elem_of_nil in H; contradiction|].
    unfold occurrences, len. simpl. lia.
  - rewrite occurrences_cons, elem_of_cons. pose proof (occurrences_nonneg l k).
    destruct (decide (w = k)) as [->|Hne].
    + split; [lia|auto].
    + rewrite IH. split; [intros [?|?]; [congruence|lia]|intros ?; right; lia].
Qed.

Lemma Counter_fold (l : list string) (c : odict) :
  NoDup (keys c) ->
  let r := foldl (fun c word => dict_set c word (counter_getitem c word + 1)) c l in
  NoDup (keys r)
  /\ (forall k, counter_getitem r k = counter_getitem c k + occurrences l k)
  /\ (forall k, k ∈ keys r <-> k ∈ keys c \/ k ∈ l).
Proof.
  revert c. induction l as [|w l IH]; intros c Hnd; simpl.
  - split; [exact Hnd|]. split.
    + intros k. unfold occurrences, len. simpl. lia.
    + intros k. rewrite elem_of_nil. tauto.
  - destruct (IH (dict_set c w (counter_getitem c w + 1))
                (keys_dict_set_NoDup c w _ Hnd)) as (H1 & H2 & H3).
    split; [exact H1|]. split.
    + intros k. rewrite H2, occurrences_cons. unfold counter_getitem at 1.
      rewrite dict_get_set. destruct (decide (w = k)) as [->|Hne]; simpl; [lia|].
      fold (counter_getitem c k). lia.
    + intros k. rewrite H3, elem_keys_dict_set, elem_of_cons. tauto.
Qed.

Lemma Counter_NoDup (l : list string) : NoDup (keys (Counter l)).
Proof. apply (Counter_fold l []). apply NoDup_nil_2. Qed.

Lemma Counter_getitem (l : list string) (k : string) :
  counter_getitem (Counter l) k = occurrences l k.
Proof.
  destruct (Counter_fold l [] (NoDup_nil_2)) as (_ & H & _).
  unfold Counter. rewrite H. reflexivity.
Qed.

Lemma Counter_keys (l : list string) (k : string) : k ∈ keys (Counter l) <-> k ∈ l.
Proof.
  destruct (Counter_fold l [] (NoDup_nil_2)) as (_ & _ & H).
  unfold Counter. rewrite H, elem_of_nil. tauto.
Qed.

(** ** Sorting by decreasing count *)

Lemma insert_desc_perm (item : string * Z) (l : odict) : insert_desc item l ≡ₚ item :: l.
Proof.
  induction l as [|q l IH]; simpl; [reflexivity|].
  destruct (snd q <=? snd item); [reflexivity|].
  rewrite IH. apply perm_swap.
Qed.

Lemma sorted_desc_perm (l : odict) : sorted_desc l ≡ₚ l.
Proof.
  induction l as [|item l IH]; simpl; [reflexivity|].
  rewrite insert_desc_perm, IH. reflexivity.
Qed.

Lemma keys_perm (d1 d2 : odict) : d1 ≡ₚ d2 -> keys d1 ≡ₚ keys d2.
Proof. intros H. unfold keys. apply Permutation_map, H. Qed.

Lemma keys_take (n : nat) (d : odict) : keys (take n d) = take n (keys d).
Proof.
  unfold keys. revert n. induction d as [|q d IH]; intros [|n]; simpl; try reflexivity.
  rewrite IH. reflexivity.
Qed.

Lemma keys_pairs (f : string -> Z) (ks : list string) :
  keys (map (fun k => (k, f k)) ks) = ks.
Proof. unfold keys. rewrite map_map. simpl. apply map_id. Qed.

Lemma dict_get_pairs (f : string -> Z) (ks : list string) (k : string) :
  k ∈ ks -> dict_get (map (fun k => (k, f k)) ks) k = Some (f k).
Proof.
  induction ks as [|k0 ks IH]; intros Hin.
  - apply elem_of_nil in Hin. contradiction.
  - simpl. destruct (decide (k0 = k)) as [->|Hne]; [reflexivity|].
    apply elem_of_cons in Hin as [->|Hin]; [congruence|]. apply IH, Hin.
Qed.

(** ** The selector *)

(** The generated side keeps every word outside the exclusion set. *)
Lemma elem_keys_llm_dict_of (exclude llm_row : list string) (w : string) :
  w ∈ keys (llm_dict_of (filter (fun word => word ∉ (list_to_set exclude : gset string)) llm_row))
  <-> w ∈ llm_row /\ (w ∉ exclude).
Proof.
  unfold llm_dict_of. rewrite keys_pairs, Counter_keys, list_elem_of_filter.
  rewrite elem_of_list_to_set. tauto.
Qed.

Section SelectorProofs.

Variable detect : string -> result string.
Variable set_order : list string -> list string.
Hypothesis set_order_perm : forall l : list string, set_order l ≡ₚ l.

Lemma detect_step_cases (counts acc : odict) (word : string) :
  detect_step detect counts acc word
  = if passes_filter detect word
    then dict_set acc word (counter_getitem counts word) else acc.
Proof.
  unfold detect_step, passes_filter. destruct (detect word) as [lang|e]; reflexivity.
Qed.

Lemma detect_fold (counts : odict) (ks : list string) (acc : odict) :
  NoDup ks -> (forall k, k ∈ ks -> k ∉ keys acc) ->
  foldl (detect_step detect counts) acc ks
  = acc ++ map (fun k => (k, counter_getitem counts k))
               (filter (fun k => passes_filter detect k = true) ks).
Proof.
  revert acc. induction ks as [|k ks IH]; intros acc Hnd Hdis; simpl.
  - rewrite app_nil_r. reflexivity.
  - apply NoDup_cons in Hnd as [Hk Hnd]. rewrite detect_step_cases, filter_cons.
    destruct (passes_filter detect k) eqn:Hp.
    + rewrite decide_True by reflexivity.
      rewrite dict_set_fresh by (apply Hdis, list_elem_of_here).
      rewrite IH; [rewrite <- app_assoc; reflexivity|exact Hnd|].
      intros k' Hk'. rewrite keys_app, elem_of_app. simpl.
      rewrite list_elem_of_singleton. intros [Hin| ->]; [|contradiction].
      apply (Hdis k'); [apply list_elem_of_further, Hk'|exact Hin].
    + rewrite decide_False by discriminate.
      apply IH; [exact Hnd|]. intros k' Hk'. apply Hdis, list_elem_of_further, Hk'.
Qed.

Lemma discussion_dict_of_eq (discussion_list : list string) :
  discussion_dict_of detect discussion_list
  = map (fun k => (k, occurrences discussion_list k))
        (filter (fun k => passes_filter detect k = true) (keys (Counter discussion_list))).
Proof.
  unfold discussion_dict_of. rewrite detect_fold.
  - simpl. apply map_ext. intros k. rewrite Counter_getitem. reflexivity.
  - apply Counter_NoDup.
  - intros k _. apply not_elem_of_nil.
Qed.

Lemma result_mapM_getitem (d : odict) (ks : list string) :
  (forall k, k ∈ ks -> k ∈ keys d) ->
  result_mapM (fun key => v ← dict_getitem d key; Ok (key, v)) ks
  = Ok (map (fun k => (k, counter_getitem d k)) ks).
Proof.
  induction ks as [|k ks IH]; intros Hin; [reflexivity|].
  cbn [result_mapM]. rewrite IH by (intros k' Hk'; apply Hin, list_elem_of_further, Hk').
  unfold dict_getitem, counter_getitem. cbn [map].
  destruct (dict_get d k) as [v|] eqn:E; [reflexivity|].
  apply dict_get_None in E. exfalso. apply E, Hin, list_elem_of_here.
Qed.

Lemma candidates_NoDup (P Q : string -> Prop) `{!forall k, Decision (P k)}
    `{!forall k, Decision (Q k)} (l : list string) :
  NoDup (filter P (filter Q (keys (Counter l)))).
Proof. apply NoDup_filter, NoDup_filter, Counter_NoDup. Qed.

(** Once the three files are loaded the selector returns [selected]. *)
Lemma make_y_most_common_word_dicts_ok (fs : gmap string csv) (y x : Z)
    (discussion_csv llm_csv : string) (exclude discussion_row llm_row : list string) :
  x_most_common_words fs x = Ok exclude ->
  dataset_to_list fs discussion_csv = Ok (Some discussion_row) ->
  dataset_to_list fs llm_csv = Ok (Some llm_row) ->
  make_y_most_common_word_dicts detect set_order fs y x discussion_csv llm_csv
  = Ok (selected detect set_order y exclude discussion_row llm_row).
Proof.
  intros Hx Hd Hl. unfold make_y_most_common_word_dicts, selected.
  rewrite Hx, result_bind_Ok, Hd, result_bind_Ok, Hl, result_bind_Ok.
  cbn [iterate]. rewrite !result_bind_Ok.
  set (dl := filter _ discussion_row). set (ll := filter _ llm_row).
  rewrite discussion_dict_of_eq.
  set (kept := filter (fun k => passes_filter detect k = true) (keys (Counter dl))).
  assert (Hkept : NoDup kept) by apply NoDup_filter, Counter_NoDup.
  rewrite keys_pairs.
  replace (map (fun i => (i, counter_getitem (map (fun k => (k, occurrences dl k)) kept) i)) kept)
    with (map (fun k => (k, occurrences dl k)) kept).
  2:{ apply map_ext_in. intros k Hk. unfold counter_getitem.
      rewrite dict_get_pairs by (apply list_elem_of_In, Hk). reflexivity. }
  rewrite keys_pairs.
  set (cands := filter _ kept).
  assert (Hcands : NoDup (set_order cands)).
  { rewrite set_order_perm. apply NoDup_filter, Hkept. }
  assert (Hsub : forall k, k ∈ set_order cands -> k ∈ kept).
  { intros k Hk. rewrite set_order_perm in Hk.
    apply list_elem_of_filter in Hk as [_ Hk]. exact Hk. }
  rewrite result_mapM_getitem by (intros k Hk; rewrite keys_pairs; apply Hsub, Hk).
  rewrite result_bind_Ok.
  replace (map (fun k => (k, counter_getitem (map (fun k0 => (k0, occurrences dl k0)) kept) k))
               (set_order cands))
    with (map (fun k => (k, occurrences dl k)) (set_order cands)).
  2:{ apply map_ext_in. intros k Hk. unfold counter_getitem.
      rewrite dict_get_pairs by (apply Hsub, list_elem_of_In, Hk). reflexivity. }
  rewrite (dict_of_items_NoDup (map _ (set_order cands)))
    by (rewrite keys_pairs; exact Hcands).
  unfold most_common. rewrite dict_of_items_NoDup; [reflexivity|].
  rewrite keys_take. eapply sublist_NoDup; [|apply sublist_take].
  rewrite (keys_perm _ _ (sorted_desc_perm _)), keys_pairs. exact Hcands.
Qed.

(** A successful selection has loaded its three files. *)
Lemma make_y_most_common_word_dicts_inv (fs : gmap string csv) (y x : Z)
    (discussion_csv llm_csv : string) (res : odict) :
  make_y_most_common_word_dicts detect set_order fs y x discussion_csv llm_csv = Ok res ->
  exists exclude discussion_row llm_row,
    x_most_common_words fs x = Ok exclude
    /\ dataset_to_list fs discussion_csv = Ok (Some discussion_row)
    /\ dataset_to_list fs llm_csv = Ok (Some llm_row)
    /\ res = selected detect set_order y exclude discussion_row llm_row.
Proof.
  intros H. pose proof H as H0. unfold make_y_most_common_word_dicts in H.
  apply result_bind_inv in H as (exclude & Hx & H).
  apply result_bind_inv in H as (dv & Hd & H).
  apply result_bind_inv in H as (lv & Hl & H).
  apply result_bind_inv in H as (drow & Hdi & H).
  apply result_bind_inv in H as (lrow & Hli & _).
  apply iterate_inv in Hdi as ->. apply iterate_inv in Hli as ->.
  exists exclude, drow, lrow. repeat split; try assumption.
  rewrite (make_y_most_common_word_dicts_ok _ y x _ _ _ _ _ Hx Hd Hl) in H0.
  congruence.
Qed.

Lemma passes_filter_true (word : string) :
  passes_filter detect word = true <-> detect word = Ok "en" /\ apostrophe_in word = false.
Proof.
  unfold passes_filter. destruct (detect word) as [lang|e].
  - rewrite andb_true_iff, negb_true_iff, String.eqb_eq.
    split; [intros [-> H]; split; [reflexivity|exact H]|intros [[= ->] H]; split; [reflexivity|exact H]].
  - split; [discriminate|intros [? _]; discriminate].
Qed.

Lemma passes_filter_raises (word : string) (e : exn) :
  detect word = Err e -> passes_filter detect word = false.
Proof. unfold passes_filter. intros ->. reflexivity. Qed.

Lemma occurrences_filter (P : string -> Prop) `{!forall w, Decision (P w)}
    (l : list string) (word : string) :
  P word -> occurrences (filter P l) word = occurrences l word.
Proof.
  intros HP. unfold occurrences. f_equal. rewrite list_filter_filter.
  apply list_filter_iff. intros w. split; [tauto|]. intros ->. split; [reflexivity|exact HP].
Qed.

(** The community side keeps the words outside the exclusion set that pass
    the language filter. *)
Lemma elem_keys_discussion_dict_of (exclude discussion_row : list string) (w : string) :
  w ∈ keys (discussion_dict_of detect
              (filter (fun word => word ∉ (list_to_set exclude : gset string)) discussion_row))
  <-> w ∈ discussion_row /\ (w ∉ exclude) /\ passes_filter detect w = true.
Proof.
  rewrite discussion_dict_of_eq, keys_pairs, list_elem_of_filter, Counter_keys.
  rewrite list_elem_of_filter, elem_of_list_to_set. tauto.
Qed.

Lemma candidates_survivors (exclude discussion_row llm_row : list string) :
  let words_to_exclude : gset string := list_to_set exclude in
  set_order
    (filter (fun key => key ∈ keys (llm_dict_of (filter (fun word => word ∉ words_to_exclude) llm_row)))
       (filter (fun k => passes_filter detect k = true)
          (keys (Counter (filter (fun word => word ∉ words_to_exclude) discussion_row)))))
  ≡ₚ survivors detect exclude discussion_row llm_row.
Proof.
  intros words_to_exclude. rewrite set_order_perm. apply NoDup_Permutation.
  - apply candidates_NoDup.
  - apply NoDup_filter, NoDup_remove_dups.
  - intros k. unfold survivors, words_to_exclude.
    rewrite !list_elem_of_filter. cbv beta.
    rewrite elem_keys_llm_dict_of, Counter_keys, list_elem_of_filter, elem_of_remove_dups.
    rewrite elem_of_list_to_set. tauto.
Qed.

Lemma selected_keys_sorted (y : Z) (exclude discussion_row llm_row : list string) :
  exists full : odict,
    selected detect set_order y exclude discussion_row llm_row = take (Z.to_nat y) full
    /\ keys full ≡ₚ survivors detect exclude discussion_row llm_row.
Proof.
  eexists. split; [reflexivity|].
  rewrite (keys_perm _ _ (sorted_desc_perm _)), keys_pairs.
  apply candidates_survivors.
Qed.

Lemma selected_length (y : Z) (exclude discussion_row llm_row : list string) :
  length (selected detect set_order y exclude discussion_row llm_row)
  = Nat.min (Z.to_nat y) (length (survivors detect exclude discussion_row llm_row)).
Proof.
  destruct (selected_keys_sorted y exclude discussion_row llm_row) as (full & -> & Hp).
  rewrite length_take, <- (Permutation_length Hp). unfold keys. rewrite length_map.
  reflexivity.
Qed.

Lemma selected_all (y : Z) (exclude discussion_row llm_row : list string) :
  (length (survivors detect exclude discussion_row llm_row) <= Z.to_nat y)%nat ->
  keys (selected detect set_order y exclude discussion_row llm_row)
  ≡ₚ survivors detect exclude discussion_row llm_row.
Proof.
  intros Hle.
  destruct (selected_keys_sorted y exclude discussion_row llm_row) as (full & -> & Hp).
  rewrite take_ge; [exact Hp|].
  rewrite <- (Permutation_length Hp) in Hle. unfold keys in Hle.
  rewrite length_map in Hle. exact Hle.
Qed.

Lemma selected_elem (y : Z) (exclude discussion_row llm_row : list string)
    (w : string) (c : Z) :
  (w, c) ∈ selected detect set_order y exclude discussion_row llm_row ->
  w ∈ survivors detect exclude discussion_row llm_row
  /\ c = occurrences discussion_row w.
Proof.
  intros Hin. unfold selected in Hin.
  apply (fun H => elem_of_submseteq _ _ _ H (sublist_submseteq _ _ (sublist_take _ _))) in Hin.
  rewrite sorted_desc_perm in Hin.
  apply list_elem_of_In, in_map_iff in Hin as (k & [= -> <-] & Hk).
  apply list_elem_of_In in Hk. rewrite candidates_survivors in Hk.
  split; [exact Hk|].
  apply occurrences_filter. unfold survivors in Hk.
  apply list_elem_of_filter in Hk as [(Hex & _) _].
  rewrite elem_of_list_to_set. exact Hex.
Qed.

Lemma elem_survivors (exclude discussion_row llm_row : list string) (w : string) :
  w ∈ survivors detect exclude discussion_row llm_row
  <-> w ∈ discussion_row /\ w ∈ llm_row /\ (w ∉ exclude)
      /\ detect w = Ok "en" /\ apostrophe_in w = false.
Proof.
  unfold survivors. rewrite list_elem_of_filter, elem_of_remove_dups, passes_filter_true.
  tauto.
Qed.

End SelectorProofs.

(** The selection depends on the detector only through [passes_filter]. *)
Lemma selected_ext (detect1 detect2 : string -> result string)
    (set_order : list string -> list string) (y : Z)
    (exclude discussion_row llm_row : list string) :
  (forall w, passes_filter detect1 w = passes_filter detect2 w) ->
  selected detect1 set_order y exclude discussion_row llm_row
  = selected detect2 set_order y exclude discussion_row llm_row.
Proof.
  intros Hext. unfold selected. cbv zeta.
  set (L := keys (Counter _)).
  assert (E : filter (fun k => passes_filter detect1 k = true) L
              = filter (fun k => passes_filter detect2 k = true) L)
    by (apply list_filter_iff; intros w; rewrite Hext; reflexivity).
  rewrite E. reflexivity.
Qed.

(** A detector that answers the empty language code where [detect] raises. *)
Lemma passes_filter_total (detect : string -> result string) (w : string) :
  passes_filter detect w
  = passes_filter (fun w => match detect w with Ok lang => Ok lang | Err _ => Ok "" end) w.
Proof. unfold passes_filter. destruct (detect w); reflexivity. Qed.

Lemma dataset_to_list_cases (fs : gmap string csv) (path : string) :
  dataset_to_list fs path
  = match fs !! path with
    | Some (row :: _) => Ok (Some row)
    | Some [] => Ok None
    | None => Err "FileNotFoundError"
    end.
Proof.
  unfold dataset_to_list, open_csv. destruct (fs !! path) as [[|row rest]|]; reflexivity.
Qed.

(** The selector never fails because of the detector: whatever [detect]
    does, the outcome is the one obtained with the total detector. *)
Lemma make_y_most_common_word_dicts_total_detect
    (detect : string -> result string) (set_order : list string -> list string)
    (set_order_perm : forall l : list string, set_order l ≡ₚ l)
    (fs : gmap string csv) (y x : Z) (discussion_csv llm_csv : string) :
  make_y_most_common_word_dicts detect set_order fs y x discussion_csv llm_csv
  = make_y_most_common_word_dicts
      (fun w => match detect w with Ok lang => Ok lang | Err _ => Ok "" end)
      set_order fs y x discussion_csv llm_csv.
Proof.
  destruct (x_most_common_words fs x) as [exclude|e] eqn:Hx.
  2:{ unfold make_y_most_common_word_dicts. rewrite Hx. reflexivity. }
  destruct (dataset_to_list fs discussion_csv) as [dv|e] eqn:Hd.
  2:{ unfold make_y_most_common_word_dicts. rewrite Hx, Hd. reflexivity. }
  destruct (dataset_to_list fs llm_csv) as [lv|e] eqn:Hl.
  2:{ unfold make_y_most_common_word_dicts. rewrite Hx, Hd, Hl. reflexivity. }
  destruct dv as [drow|].
  2:{ unfold make_y_most_common_word_dicts. rewrite Hx, Hd, Hl. reflexivity. }
  destruct lv as [lrow|].
  2:{ unfold make_y_most_common_word_dicts. rewrite Hx, Hd, Hl. reflexivity. }
  rewrite !(make_y_most_common_word_dicts_ok _ _ set_order_perm _ y x _ _ _ _ _ Hx Hd Hl).
  f_equal. apply selected_ext, passes_filter_total.
Qed.

(** ** [format_posts]: deletion in place *)

Lemma elem_doc_keys (d : doc) (k : string) : k ∈ doc_keys d <-> is_Some (d !! k).
Proof.
  unfold doc_keys. rewrite list_elem_of_fmap. split.
  - intros ([k' v] & -> & Hin). apply elem_of_map_to_list in Hin. simpl. eauto.
  - intros [v Hv]. exists (k, v). split; [reflexivity|]. apply elem_of_map_to_list, Hv.
Qed.

Lemma doc_keys_NoDup (d : doc) : NoDup (doc_keys d).
Proof. apply NoDup_fst_map_to_list. Qed.

Lemma deref_lookup (h : list doc) (l : loc) (d : doc) : h !! l = Some d -> deref h l = d.
Proof. unfold deref. intros ->. reflexivity. Qed.

Lemma del_keys_spec (ks : list string) (post : loc) (h : list doc) (d : doc) :
  h !! post = Some d -> NoDup ks -> (forall k, k ∈ ks -> is_Some (d !! k)) ->
  del_keys post ks h = Ok (<[post := foldl (fun d k => delete k d) d ks]> h).
Proof.
  revert h d. induction ks as [|k ks IH]; intros h d Hd Hnd Hin; simpl.
  - rewrite list_insert_id by exact Hd. reflexivity.
  - apply NoDup_cons in Hnd as [Hk Hnd].
    unfold del_item. rewrite (deref_lookup h post d Hd).
    destruct (Hin k (list_elem_of_here _ _)) as [v ->]. rewrite result_bind_Ok.
    rewrite (IH _ (delete k d)).
    + rewrite list_insert_insert_eq. reflexivity.
    + apply list_lookup_insert_eq. eapply lookup_lt_Some, Hd.
    + exact Hnd.
    + intros k' Hk'. rewrite lookup_delete_ne by (intros ->; contradiction).
      apply Hin, list_elem_of_further, Hk'.
Qed.

Lemma lookup_foldl_delete (ks : list string) (d : doc) (i : string) :
  foldl (fun d k => delete k d) d ks !! i = if decide (i ∈ ks) then None else d !! i.
Proof.
  revert d. induction ks as [|k ks IH]; intros d; cbn [foldl].
  - rewrite decide_False by apply not_elem_of_nil. reflexivity.
  - rewrite IH. destruct (decide (i ∈ ks)) as [Hin|Hnin].
    + rewrite decide_True by (apply list_elem_of_further, Hin). reflexivity.
    + destruct (decide (i = k)) as [->|Hne].
      * rewrite decide_True by apply list_elem_of_here. apply lookup_delete_eq.
      * rewrite decide_False by (rewrite elem_of_cons; tauto).
        apply lookup_delete_ne. congruence.
Qed.

(** Deleting the keys outside the candidate set leaves the restriction. *)
Lemma foldl_delete_restrict (words_to_check : gset string) (d : doc) :
  foldl (fun d k => delete k d) d (filter (fun key => key ∉ words_to_check) (doc_keys d))
  = restrict words_to_check d.
Proof.
  apply map_eq. intros i. rewrite lookup_foldl_delete. unfold restrict.
  rewrite map_lookup_filter.
  destruct (d !! i) as [v|] eqn:Hi; simpl.
  - destruct (decide (i ∈ words_to_check)) as [Hw|Hw].
    + rewrite decide_False; [|rewrite list_elem_of_filter; tauto].
      rewrite option_guard_True by exact Hw. reflexivity.
    + rewrite decide_True.
      2:{ apply list_elem_of_filter. split; [exact Hw|]. apply elem_doc_keys. eauto. }
      rewrite option_guard_False by exact Hw. reflexivity.
  - destruct (decide _); reflexivity.
Qed.

Lemma filter_loop_fresh (words_to_check : gset string) (ds h1 h2 : list doc) :
  filter_loop words_to_check (seq (length h1) (length ds)) (h1 ++ ds ++ h2)
  = Ok (h1 ++ map (restrict words_to_check) ds ++ h2).
Proof.
  revert h1. induction ds as [|d ds IH]; intros h1; [reflexivity|].
  simpl length. simpl seq. cbn [filter_loop].
  assert (Hd : (h1 ++ (d :: ds) ++ h2) !! length h1 = Some d)
    by (rewrite lookup_app_r, Nat.sub_diag by lia; reflexivity).
  rewrite (deref_lookup _ _ _ Hd).
  rewrite (del_keys_spec _ _ _ d Hd).
  - rewrite foldl_delete_restrict, result_bind_Ok.
    replace (<[length h1 := restrict words_to_check d]> (h1 ++ (d :: ds) ++ h2))
      with ((h1 ++ [restrict words_to_check d]) ++ ds ++ h2).
    2:{ rewrite insert_app_r_alt, Nat.sub_diag by lia.
        simpl. rewrite <- app_assoc. reflexivity. }
    replace (S (length h1)) with (length (h1 ++ [restrict words_to_check d]))
      by (rewrite length_app; simpl; lia).
    rewrite IH. simpl. rewrite <- app_assoc. reflexivity.
  - apply NoDup_filter, doc_keys_NoDup.
  - intros k Hk. apply list_elem_of_filter in Hk as [_ Hk]. apply elem_doc_keys, Hk.
Qed.

Lemma map_deref_fresh (ds h1 h2 : list doc) :
  map (deref (h1 ++ ds ++ h2)) (seq (length h1) (length ds)) = ds.
Proof.
  revert h1. induction ds as [|d ds IH]; intros h1; [reflexivity|].
  simpl length. simpl seq. simpl map. f_equal.
  - apply deref_lookup. rewrite lookup_app_r, Nat.sub_diag by lia. reflexivity.
  - change (h1 ++ d :: ds ++ h2) with (h1 ++ [d] ++ (ds ++ h2)).
    rewrite (app_assoc h1 [d]).
    replace (S (length h1)) with (length (h1 ++ [d])) by (rewrite length_app; simpl; lia).
    apply IH.
Qed.

Lemma second_path_ne (json_path : string) : "second_" +:+ json_path <> json_path.
Proof.
  intros E. apply (f_equal String.length) in E.
  simpl in E. change ("" +:+ json_path) with json_path in E. lia.
Qed.

(** What [format_posts] does to the files and to the object store. *)
Lemma format_posts_spec (set_order : list string -> list string)
    (json_path : string) (st : state) (d : dump) (wd : odict) :
  files st !! json_path = Some d -> dump_words d = WordsDict wd ->
  let words_to_check : gset string := list_to_set (keys wd) in
  let posts' := map (restrict words_to_check) (dump_posts d) in
  let llm' := map (restrict words_to_check) (dump_llm_responses d) in
  format_posts set_order json_path st
  = Ok (State (<["second_" +:+ json_path :=
                  Dump posts' llm' (WordsList (set_order (elements words_to_check)))]>
                 (files st))
              (heap st ++ posts' ++ llm')).
Proof.
  intros Hf Hw words_to_check posts' llm'.
  unfold format_posts, json_load, alloc_docs. rewrite Hf, result_bind_Ok, Hw.
  cbn [words_keys heap files]. rewrite result_bind_Ok. fold words_to_check.
  rewrite <- app_assoc.
  rewrite (filter_loop_fresh words_to_check (dump_posts d) (heap st) (dump_llm_responses d)).
  rewrite result_bind_Ok. fold posts'.
  pose proof (filter_loop_fresh words_to_check (dump_llm_responses d) (heap st ++ posts') [])
    as H2.
  rewrite !app_nil_r in H2. fold llm' in H2. rewrite <- !app_assoc in H2.
  assert (Hlen : length (heap st ++ dump_posts d) = length (heap st ++ posts')).
  { unfold posts'. rewrite !length_app, length_map. reflexivity. }
  rewrite Hlen, H2, result_bind_Ok.
  f_equal. f_equal. f_equal. f_equal.
  - replace (length (dump_posts d)) with (length posts') by apply length_map.
    apply map_deref_fresh.
  - replace (length (dump_llm_responses d)) with (length llm') by apply length_map.
    pose proof (map_deref_fresh llm' (heap st ++ posts') []) as H3.
    rewrite app_nil_r, <- app_assoc in H3. exact H3.
Qed.

(** ** The test on an empty corpus *)

(** The observed statistic of an empty corpus: the first division by zero. *)
Lemma observed_diff_of_empty (posts llm_responses : list doc) (word : string) :
  posts = [] \/ llm_responses = [] ->
  bounded_counts (counts posts word) ->
  observed_diff_of (counts posts word) (counts llm_responses word)
  = Err "ZeroDivisionError".
Proof.
  intros Hempty Hb. unfold observed_diff_of. destruct posts as [|d posts].
  - reflexivity.
  - destruct Hempty as [?| ->]; [discriminate|].
    destruct (truediv_mean (counts (d :: posts) word) ltac:(discriminate) Hb) as [-> _].
    reflexivity.
Qed.

(** ** The batch driver *)

Lemma run_p_values_loop_raise (posts llm_responses : list doc) (ws1 : list string)
    (word : string) (ws2 : list string) (tape : nat -> Z) (e : exn) :
  forall (final : p_values) (pos : nat) (final1 : p_values) (reqs1 reqs2 : list (Z * Z)),
  run (p_values_loop posts llm_responses ws1 final) tape pos
  = Some (Returned final1, reqs1) ->
  run (calculate_p_value posts llm_responses word) tape (pos + length reqs1)
  = Some (Raised e, reqs2) ->
  run (p_values_loop posts llm_responses (ws1 ++ word :: ws2) final) tape pos
  = Some (Raised e, reqs1 ++ reqs2).
Proof.
  induction ws1 as [|w ws1 IH]; intros final pos final1 reqs1 reqs2 H1 H2.
  - simpl in H1. injection H1 as <- <-. simpl length in H2. rewrite Nat.add_0_r in H2.
    cbn [app p_values_loop]. rewrite run_bind, H2. reflexivity.
  - cbn [app p_values_loop] in *. rewrite run_bind in H1 |- *.
    destruct (run (calculate_p_value posts llm_responses w) tape pos)
      as [[[r|e'] rq]|]; try discriminate.
    destruct (run (p_values_loop posts llm_responses ws1 (<[w:=r]> final)) tape
                (pos + length rq)) as [[o rq']|] eqn:E; try discriminate.
    injection H1 as -> <-.
    rewrite length_app, Nat.add_assoc in H2.
    rewrite (IH _ _ _ _ _ E H2), app_assoc. reflexivity.
Qed.

Lemma run_trials_loop_raise (set_order : list string -> list string)
    (ps1 : list string) (path : string) (ps2 : list string)
    (tape : nat -> Z) (e : exn) :
  forall (st : state) (results : list p_values) (pos : nat)
         (results1 : list p_values) (st1 st2 : state) (reqs1 reqs2 : list (Z * Z)),
  run (trials_loop set_order ps1 st results) tape pos
  = Some (Returned (results1, st1), reqs1) ->
  format_posts set_order path st1 = Ok st2 ->
  run (calculate_p_values path st2) tape (pos + length reqs1) = Some (Raised e, reqs2) ->
  run (trials_loop set_order (ps1 ++ path :: ps2) st results) tape pos
  = Some (Raised e, reqs1 ++ reqs2).
Proof.
  induction ps1 as [|p ps1 IH]; intros st results pos results1 st1 st2 reqs1 reqs2 H1 Hf H2.
  - simpl in H1. injection H1 as <- <- <-. simpl length in H2. rewrite Nat.add_0_r in H2.
    cbn [app trials_loop]. rewrite Hf. cbn [lift]. rewrite bind_Ret, run_bind, H2.
    reflexivity.
  - cbn [app trials_loop] in *.
    destruct (format_posts set_order p st) as [st'|e']; cbn [lift] in *;
      [rewrite bind_Ret in H1 |- *|discriminate].
    rewrite run_bind in H1 |- *.
    destruct (run (calculate_p_values p st') tape pos) as [[[r|e'] rq]|]; try discriminate.
    destruct (run (trials_loop set_order ps1 st' (results ++ [r])) tape (pos + length rq))
      as [[o rq']|] eqn:E; try discriminate.
    injection H1 as -> <-.
    rewrite length_app, Nat.add_assoc in H2.
    rewrite (IH _ _ _ _ _ _ _ _ E Hf H2), app_assoc. reflexivity.
Qed.

(** * The claims *)

(** ** The permutation test *)

(** C1.  For corpora of [n >= 1] and [m >= 1] documents the test pools the
    [n + m] per-document counts of the word, runs exactly 10000 rounds, and in
    each round asks [random.randint] for [n] indices (resample A) and then [m]
    indices (resample B), every request being for the whole range
    [0 .. n+m-1] whatever was drawn before; the counter is the number of rounds
    whose [|mean(A) - mean(B)|] is [>=] the observed difference (ties
    included), and the value returned is counter / 10000.  With [randint]
    uniform, a resample is a sequence of independent draws, each equal to [v]
    with probability (positions of the pool holding [v]) / (n + m), and the
    resamples A and B of a round are independent.  Counts are taken below
    [2^1022] in absolute value, so that no mean overflows a float. *)
Theorem calculate_p_value_empirical_p_value
    (posts llm_responses : list doc) (word : string) (tape : nat -> Z) :
  let n := length posts in
  let m := length llm_responses in
  let pool := counts posts word ++ counts llm_responses word in
  let observed := spec_diff (counts posts word) (counts llm_responses word) in
  let hit := fun i : nat =>
    float_ge (spec_diff (drawn pool tape (i * (n + m)) n)
                        (drawn pool tape (i * (n + m) + n) m)) observed in
  let counter := len (filter (fun i => hit i = true) (seq 0 (Z.to_nat 10000))) in
  let requests := repeat (0, Z.of_nat (n + m) - 1) (Z.to_nat 10000 * (n + m)) in
  (1 <= n)%nat -> (1 <= m)%nat ->
  bounded_counts pool -> valid_tape tape (Z.of_nat (n + m)) ->
  run (calculate_p_value posts llm_responses word) tape 0
  = Some (Returned [observed; spec_p_value counter], requests)
  /\ run (determine_p_values.calculate_p_value posts llm_responses word) tape 0
  = Some (Returned (spec_p_value counter), requests)
  /\ spec_p_value counter = SFdiv prec emax (int_to_float counter) (int_to_float 10000)
  /\ 0 <= counter <= 10000
  /\ (forall vs : list Z,
        prob (resample pool (length vs)) (returns vs)
        = Qc_prod (map (fun v => (Qc_of_Z (multiplicity pool v)
                                  / Qc_of_Z (Z.of_nat (n + m)))%Qc) vs))
  /\ (forall va vb : list Z,
        prob (round_resamples pool (Z.of_nat n) (Z.of_nat m)) (returns (va, vb))
        = (prob (resample pool n) (returns va) * prob (resample pool m) (returns vb))%Qc).
Proof.
  intros n m pool observed hit counter requests Hn Hm Hb Hv.
  destruct (run_calculate_p_value posts llm_responses word tape Hn Hm Hb Hv) as [H1 H2].
  change (Z.to_nat ROUNDS) with (Z.to_nat 10000) in H1, H2.
  split; [exact H1|]. split; [exact H2|]. split; [reflexivity|].
  split; [apply (spec_counter_range pool tape n m observed (Z.to_nat 10000))|].
  assert (Hlen : len pool = Z.of_nat (n + m)).
  { unfold len, pool. rewrite length_app, !counts_length. reflexivity. }
  assert (Hne : pool <> []).
  { intros E. rewrite E in Hlen. unfold len in Hlen. simpl in Hlen. lia. }
  split.
  - intros vs. rewrite <- Hlen. apply prob_resample, Hne.
  - intros va vb. rewrite prob_round_resamples, !Nat2Z.id. reflexivity.
Qed.

Lemma calculate_p_value_empirical_p_value_witness :
  exists (observed p : float) (requests : list (Z * Z)),
    run (calculate_p_value example_posts example_llm_responses "x") (fun _ => 0) 0
    = Some (Returned [observed; p], requests)
    /\ length requests = (Z.to_nat 10000 * 6)%nat.
Proof.
  pose proof (calculate_p_value_empirical_p_value
                example_posts example_llm_responses "x" (fun _ => 0)
                ltac:(simpl; lia) ltac:(simpl; lia) example_bounded
                ltac:(intros i; simpl; lia)) as H.
  do 3 eexists. split; [exact (proj1 H)|]. apply repeat_length.
Defined.

(** C2.  The observed statistic that the test computes, and returns first, is
    [|mean(communityValues) - mean(generatedValues)|] over the per-document
    counts [d.get(word, 0)]; for community counts [2, 0, 1] and generated
    counts [0, 0, 0] the means are 3/3 and 0/3 and the statistic is exactly
    [1.0]. *)
Theorem observed_statistic_abs_mean_difference
    (posts llm_responses : list doc) (word : string) (tape : nat -> Z) :
  let communityValues := map (fun d => get d word 0) posts in
  let generatedValues := map (fun d => get d word 0) llm_responses in
  let statistic :=
    float_abs (float_sub (spec_mean communityValues) (spec_mean generatedValues)) in
  (1 <= length posts)%nat -> (1 <= length llm_responses)%nat ->
  bounded_counts (communityValues ++ generatedValues) ->
  valid_tape tape (Z.of_nat (length posts + length llm_responses)) ->
  observed_diff_of communityValues generatedValues = Ok statistic
  /\ (exists (p : float) (requests : list (Z * Z)),
        run (calculate_p_value posts llm_responses word) tape 0
        = Some (Returned [statistic; p], requests))
  /\ (communityValues = [2; 0; 1] -> generatedValues = [0; 0; 0] ->
      spec_mean communityValues = float_one
      /\ spec_mean generatedValues = float_zero
      /\ statistic = float_one).
Proof.
  intros cv gv statistic Hn Hm Hb Hv.
  assert (Hp : cv <> []).
  { unfold cv. nonempty. }
  assert (Hl : gv <> []).
  { unfold gv. nonempty. }
  split; [exact (observed_diff_of_ok cv gv Hp Hl Hb)|]. split.
  - destruct (run_calculate_p_value posts llm_responses word tape Hn Hm Hb Hv) as [H _].
    eexists. eexists. exact H.
  - intros Ec Eg. unfold statistic. rewrite Ec, Eg. repeat split; reflexivity.
Qed.

Lemma observed_statistic_abs_mean_difference_witness :
  observed_diff_of [2; 0; 1] [0; 0; 0] = Ok float_one
  /\ exists (p : float) (requests : list (Z * Z)),
       run (calculate_p_value example_posts example_llm_responses "x") (fun _ => 0) 0
       = Some (Returned [float_one; p], requests).
Proof.
  pose proof (observed_statistic_abs_mean_difference
                example_posts example_llm_responses "x" (fun _ => 0)
                ltac:(simpl; lia) ltac:(simpl; lia) example_bounded
                ltac:(intros i; simpl; lia)) as (H1 & H2 & _).
  split; [exact H1|exact H2].
Defined.

(** C3, as the code has it.  With an empty community or generated corpus the
    test returns nothing and draws nothing: the division of the mean raises
    Python's [ZeroDivisionError].  (Counts of the community corpus are taken
    below [2^1022], so that its own mean, computed first, is a float.) *)
Theorem calculate_p_value_empty_corpus
    (posts llm_responses : list doc) (word : string) :
  posts = [] \/ llm_responses = [] ->
  bounded_counts (counts posts word) ->
  calculate_p_value posts llm_responses word = Raise "ZeroDivisionError"
  /\ determine_p_values.calculate_p_value posts llm_responses word = Raise "ZeroDivisionError".
Proof.
  intros Hempty Hb.
  pose proof (observed_diff_of_empty posts llm_responses word Hempty Hb) as Hobs.
  unfold calculate_p_value, determine_p_values.calculate_p_value.
  fold (counts posts word) (counts llm_responses word).
  rewrite Hobs. split; reflexivity.
Qed.

Lemma calculate_p_value_empty_corpus_witness :
  calculate_p_value example_posts [] "x" = Raise "ZeroDivisionError"
  /\ determine_p_values.calculate_p_value example_posts [] "x" = Raise "ZeroDivisionError".
Proof.
  apply (calculate_p_value_empty_corpus example_posts [] "x").
  - right. reflexivity.
  - unfold bounded_counts. repeat constructor.
Defined.

(** C3, counterexample to the error named by the claim: on an empty community
    corpus the exception is [ZeroDivisionError], not a
    [DegenerateInputError]. *)
Lemma calculate_p_value_empty_corpus_not_degenerate_input_error :
  calculate_p_value [] example_llm_responses "x" = Raise "ZeroDivisionError"
  /\ calculate_p_value [] example_llm_responses "x" <> Raise "DegenerateInputError".
Proof. split; [reflexivity|discriminate]. Qed.

(** C8.  When the community and the generated counts of the word are the same
    multiset (of at least one document), the observed difference is [+0.0],
    each of the 10000 rounds increments the counter, and the p-value returned
    is exactly [1.0]. *)
Theorem identical_multisets_p_value_one
    (posts llm_responses : list doc) (word : string) (tape : nat -> Z) :
  let n := length posts in
  let m := length llm_responses in
  let pool := counts posts word ++ counts llm_responses word in
  Permutation (counts posts word) (counts llm_responses word) ->
  (1 <= n)%nat -> bounded_counts (counts posts word) ->
  valid_tape tape (Z.of_nat (n + m)) ->
  spec_diff (counts posts word) (counts llm_responses word) = float_zero
  /\ (forall i : nat, round_hit pool tape n m float_zero i = true)
  /\ spec_counter pool tape n m float_zero (Z.to_nat 10000) = 10000
  /\ run (calculate_p_value posts llm_responses word) tape 0
     = Some (Returned [float_zero; float_one],
             repeat (0, Z.of_nat (n + m) - 1) (Z.to_nat 10000 * (n + m)))
  /\ run (determine_p_values.calculate_p_value posts llm_responses word) tape 0
     = Some (Returned float_one,
             repeat (0, Z.of_nat (n + m) - 1) (Z.to_nat 10000 * (n + m))).
Proof.
  intros n m pool Hperm Hn Hb Hv.
  assert (Hm : (1 <= m)%nat).
  { unfold m. rewrite <- (counts_length llm_responses word),
      <- (Permutation_length Hperm), counts_length. exact Hn. }
  assert (Hbg : bounded_counts (counts llm_responses word)).
  { unfold bounded_counts in *. rewrite <- Hperm. exact Hb. }
  assert (Hbp : bounded_counts pool) by (apply bounded_counts_app; split; assumption).
  assert (Hobs : spec_diff (counts posts word) (counts llm_responses word) = float_zero).
  { unfold spec_diff. rewrite <- (spec_mean_Permutation _ _ Hperm).
    rewrite float_sub_self; [reflexivity|].
    apply truediv_mean; [|exact Hb].
    fold n in Hn. nonempty. }
  assert (Hall : forall i : nat, round_hit pool tape n m float_zero i = true).
  { intros i. apply round_hit_zero; [exact Hbp|lia|lia]. }
  pose proof (spec_counter_all_hits pool tape n m float_zero (Z.to_nat 10000) Hall) as Hcnt.
  rewrite Z2Nat.id in Hcnt by lia.
  destruct (run_calculate_p_value posts llm_responses word tape Hn Hm Hbp Hv) as [H1 H2].
  fold n m pool in H1, H2. rewrite Hobs in H1, H2.
  change (Z.to_nat ROUNDS) with (Z.to_nat 10000) in H1, H2.
  rewrite Hcnt in H1, H2.
  repeat split; assumption.
Qed.

Lemma identical_multisets_p_value_one_witness :
  exists requests : list (Z * Z),
    run (calculate_p_value example_posts (reverse example_posts) "x") (fun _ => 0) 0
    = Some (Returned [float_zero; float_one], requests).
Proof.
  pose proof (identical_multisets_p_value_one
                example_posts (reverse example_posts) "x" (fun _ => 0)
                ltac:(exact (Permutation_rev [2; 0; 1]))
                ltac:(simpl; lia) ltac:(unfold bounded_counts; repeat constructor)
                ltac:(intros i; simpl; lia)) as (_ & _ & _ & H & _).
  eexists. exact H.
Defined.

(** ** The selector *)

Section SelectorClaims.

Variable detect : string -> result string.
Variable set_order : list string -> list string.
Hypothesis set_order_perm : forall l : list string, set_order l ≡ₚ l.

(** C5.  Every word returned by the selector occurs at least once in the
    community tokens and at least once in the generated tokens, is not one
    of the [x] most common words, is classified English by the detector and
    contains no apostrophe; its value is its community count. *)
Theorem selector_invariant (fs : gmap string csv) (y x : Z)
    (discussion_csv llm_csv : string) (res : odict) :
  make_y_most_common_word_dicts detect set_order fs y x discussion_csv llm_csv = Ok res ->
  exists exclude discussion_row llm_row : list string,
    x_most_common_words fs x = Ok exclude
    /\ dataset_to_list fs discussion_csv = Ok (Some discussion_row)
    /\ dataset_to_list fs llm_csv = Ok (Some llm_row)
    /\ forall (w : string) (c : Z), (w, c) ∈ res ->
         1 <= occurrences discussion_row w
         /\ 1 <= occurrences llm_row w
         /\ (w ∉ exclude)
         /\ detect w = Ok "en" /\ apostrophe_in w = false
         /\ c = occurrences discussion_row w.
Proof.
  intros H.
  apply (make_y_most_common_word_dicts_inv _ _ set_order_perm) in H
    as (exclude & drow & lrow & Hx & Hd & Hl & ->).
  exists exclude, drow, lrow. repeat (split; [assumption|]).
  intros w c Hin. apply (selected_elem _ _ set_order_perm) in Hin as [Hs ->].
  apply elem_survivors in Hs as (H1 & H2 & H3 & H4 & H5).
  rewrite <- !occurrences_pos. repeat split; assumption.
Qed.

(** C6.  The selector returns at most [y] words; it returns exactly
    [min y s] of the [s] words that survive the exclusion, language and
    both-corpora filters, never a word twice, and all of them when [s <= y]. *)
Theorem selector_size (fs : gmap string csv) (y : nat) (x : Z)
    (discussion_csv llm_csv : string) (res : odict) :
  make_y_most_common_word_dicts detect set_order fs (Z.of_nat y) x discussion_csv llm_csv
  = Ok res ->
  (length res <= y)%nat
  /\ exists exclude discussion_row llm_row : list string,
       x_most_common_words fs x = Ok exclude
       /\ dataset_to_list fs discussion_csv = Ok (Some discussion_row)
       /\ dataset_to_list fs llm_csv = Ok (Some llm_row)
       /\ let surviving := survivors detect exclude discussion_row llm_row in
          length res = Nat.min y (length surviving)
          /\ NoDup (keys res)
          /\ (forall w, w ∈ keys res -> w ∈ surviving)
          /\ ((length surviving <= y)%nat -> keys res ≡ₚ surviving).
Proof.
  intros H.
  apply (make_y_most_common_word_dicts_inv _ _ set_order_perm) in H
    as (exclude & drow & lrow & Hx & Hd & Hl & ->).
  pose proof (selected_length detect set_order set_order_perm (Z.of_nat y) exclude drow lrow)
    as Hlen.
  rewrite Nat2Z.id in Hlen.
  split; [lia|]. exists exclude, drow, lrow.
  split; [exact Hx|]. split; [exact Hd|]. split; [exact Hl|].
  intros surviving. split; [exact Hlen|].
  destruct (selected_keys_sorted detect set_order set_order_perm (Z.of_nat y) exclude drow lrow)
    as (full & Hfull & Hperm).
  assert (Hnd : NoDup (keys full)).
  { rewrite Hperm. apply NoDup_filter, NoDup_remove_dups. }
  split; [|split].
  - rewrite Hfull, keys_take. eapply sublist_NoDup; [exact Hnd|apply sublist_take].
  - intros w Hw. rewrite Hfull, keys_take in Hw.
    apply (fun H => elem_of_submseteq _ _ _ H (sublist_submseteq _ _ (sublist_take _ _))) in Hw.
    rewrite Hperm in Hw. exact Hw.
  - intros Hle. apply (selected_all _ _ set_order_perm).
    rewrite Nat2Z.id. exact Hle.
Qed.

(** C7.  The language filter (English, no apostrophe) is applied to the
    community words only: the generated dictionary keeps every word outside
    the exclusion set.  A word on which the detector raises is left out, the
    selection succeeds all the same, and it is the selection obtained with a
    detector that answers a non-English code instead of raising. *)
Theorem language_filter_community_side_only (fs : gmap string csv) (y x : Z)
    (discussion_csv llm_csv : string) (exclude discussion_row llm_row : list string) :
  x_most_common_words fs x = Ok exclude ->
  dataset_to_list fs discussion_csv = Ok (Some discussion_row) ->
  dataset_to_list fs llm_csv = Ok (Some llm_row) ->
  let words_to_exclude : gset string := list_to_set exclude in
  let discussion_list := filter (fun word => word ∉ words_to_exclude) discussion_row in
  let llm_list := filter (fun word => word ∉ words_to_exclude) llm_row in
  (forall w, w ∈ keys (llm_dict_of llm_list) <-> w ∈ llm_row /\ (w ∉ exclude))
  /\ (forall w, w ∈ keys (discussion_dict_of detect discussion_list)
                <-> w ∈ discussion_row /\ (w ∉ exclude)
                    /\ detect w = Ok "en" /\ apostrophe_in w = false)
  /\ (exists res,
        make_y_most_common_word_dicts detect set_order fs y x discussion_csv llm_csv = Ok res
        /\ forall w e, detect w = Err e ->
             (w ∉ keys res) /\ (w ∉ keys (discussion_dict_of detect discussion_list)))
  /\ make_y_most_common_word_dicts detect set_order fs y x discussion_csv llm_csv
     = make_y_most_common_word_dicts
         (fun w => match detect w with Ok lang => Ok lang | Err _ => Ok "" end)
         set_order fs y x discussion_csv llm_csv.
Proof.
  intros Hx Hd Hl words_to_exclude discussion_list llm_list.
  split; [intros w; apply elem_keys_llm_dict_of|].
  split.
  { intros w. unfold discussion_list, words_to_exclude.
    rewrite elem_keys_discussion_dict_of, passes_filter_true. tauto. }
  split.
  - eexists. split;
      [apply (make_y_most_common_word_dicts_ok _ _ set_order_perm _ y x _ _ _ _ _ Hx Hd Hl)|].
    intros w e He. split.
    + intros Hin. apply list_elem_of_In, in_map_iff in Hin as ([w' c] & Hw & Hin).
      simpl in Hw. subst w'. apply list_elem_of_In in Hin.
      apply (selected_elem _ _ set_order_perm) in Hin as [Hs _].
      apply elem_survivors in Hs as (_ & _ & _ & Hen & _). congruence.
    + unfold discussion_list, words_to_exclude.
      rewrite elem_keys_discussion_dict_of, (passes_filter_raises _ _ _ He).
      intros (_ & _ & ?). discriminate.
  - apply make_y_most_common_word_dicts_total_detect, set_order_perm.
Qed.

End SelectorClaims.

Lemma selector_invariant_witness :
  exists exclude discussion_row llm_row : list string,
    x_most_common_words example_fs 2 = Ok exclude
    /\ dataset_to_list example_fs "words.csv" = Ok (Some discussion_row)
    /\ dataset_to_list example_fs "llm.csv" = Ok (Some llm_row)
    /\ forall (w : string) (c : Z), (w, c) ∈ [("hike", 2); ("a", 1)] ->
         1 <= occurrences discussion_row w
         /\ 1 <= occurrences llm_row w
         /\ (w ∉ exclude)
         /\ example_detect w = Ok "en" /\ apostrophe_in w = false
         /\ c = occurrences discussion_row w.
Proof.
  apply (selector_invariant example_detect example_set_order
           (fun l => Permutation_refl l) example_fs 2 2 "words.csv" "llm.csv").
  vm_compute. reflexivity.
Defined.

Lemma selector_size_witness :
  (length [("hike", 2); ("a", 1); ("short", 1)] <= 10)%nat
  /\ make_y_most_common_word_dicts example_detect example_set_order example_fs
       (Z.of_nat 10) 2 "words.csv" "llm.csv"
     = Ok [("hike", 2); ("a", 1); ("short", 1)].
Proof.
  assert (H : make_y_most_common_word_dicts example_detect example_set_order example_fs
                (Z.of_nat 10) 2 "words.csv" "llm.csv"
              = Ok [("hike", 2); ("a", 1); ("short", 1)])
    by (vm_compute; reflexivity).
  split; [|exact H].
  exact (proj1 (selector_size example_detect example_set_order
                  (fun l => Permutation_refl l) example_fs 10 2 "words.csv" "llm.csv"
                  _ H)).
Defined.

Lemma language_filter_community_side_only_witness :
  exists res,
    make_y_most_common_word_dicts example_detect example_set_order example_fs 10 2
      "words.csv" "llm.csv" = Ok res
    /\ forall w e, example_detect w = Err e ->
         (w ∉ keys res)
         /\ (w ∉ keys (discussion_dict_of example_detect
                         (filter (fun word => word ∉ (list_to_set ["the"; "of"] : gset string))
                                 ["the"; "hike"; "is"; "a"; "short"; "hike"; "it's"; "zzz";
                                  "chat"; "of"]))).
Proof.
  exact (proj1 (proj2 (proj2
    (language_filter_community_side_only example_detect example_set_order
       (fun l => Permutation_refl l) example_fs 10 2 "words.csv" "llm.csv"
       ["the"; "of"]
       ["the"; "hike"; "is"; "a"; "short"; "hike"; "it's"; "zzz"; "chat"; "of"]
       ["a"; "hike"; "the"; "short"; "zzz"; "it's"; "chat"]
       eq_refl eq_refl eq_refl)))).
Defined.

(** C10.  [dataset_to_list] returns the first row of its file and nothing
    else: the rows after it are ignored; for a file without rows it returns
    [None], and the selector then fails with [TypeError] when it iterates
    over that value, on the community side as on the generated side. *)
Theorem dataset_to_list_first_row_only (fs : gmap string csv) (file_path : string) :
  (forall (row : list string) (rest : csv),
      fs !! file_path = Some (row :: rest) ->
      dataset_to_list fs file_path = Ok (Some row))
  /\ (fs !! file_path = Some [] ->
      dataset_to_list fs file_path = Ok None
      /\ forall (detect : string -> result string) (set_order : list string -> list string)
           (y x : Z) (other : string) (exclude : list string),
           x_most_common_words fs x = Ok exclude -> is_Some (fs !! other) ->
           make_y_most_common_word_dicts detect set_order fs y x file_path other
           = Err "TypeError"
           /\ make_y_most_common_word_dicts detect set_order fs y x other file_path
              = Err "TypeError").
Proof.
  split.
  - intros row rest H. rewrite dataset_to_list_cases, H. reflexivity.
  - intros H.
    assert (Hd : dataset_to_list fs file_path = Ok None)
      by (rewrite dataset_to_list_cases, H; reflexivity).
    split; [exact Hd|].
    intros detect set_order y x other exclude Hx [rows Hother].
    assert (Ho : exists v, dataset_to_list fs other = Ok v).
    { rewrite dataset_to_list_cases, Hother. destruct rows; eexists; reflexivity. }
    destruct Ho as [v Ho].
    unfold make_y_most_common_word_dicts. rewrite Hx, Hd, Ho.
    split; [reflexivity|]. destruct v; reflexivity.
Qed.

Lemma dataset_to_list_first_row_only_witness :
  dataset_to_list example_fs "llm.csv"
  = Ok (Some ["a"; "hike"; "the"; "short"; "zzz"; "it's"; "chat"])
  /\ dataset_to_list example_fs "empty.csv" = Ok None
  /\ make_y_most_common_word_dicts example_detect example_set_order example_fs 10 2
       "empty.csv" "llm.csv" = Err "TypeError".
Proof.
  split; [|split].
  - exact (proj1 (dataset_to_list_first_row_only example_fs "llm.csv") _ [] eq_refl).
  - exact (proj1 (proj2 (dataset_to_list_first_row_only example_fs "empty.csv") eq_refl)).
  - refine (proj1 (proj2 (proj2 (dataset_to_list_first_row_only example_fs "empty.csv") eq_refl)
                     example_detect example_set_order 10 2 "llm.csv" ["the"; "of"] eq_refl _)).
    eexists. reflexivity.
Defined.

(** ** [format_posts] *)

(** C9, as the code has it.  [format_posts] filters the documents it has
    loaded by deleting keys from them in place: after the call the object at
    each loaded address holds the loaded document restricted to the candidate
    words.  The objects that existed before the call and the file that was
    read are unchanged, and the filtered corpora are written to the new file
    [second_<json_path>]. *)
Theorem format_posts_filters_in_place (set_order : list string -> list string)
    (json_path : string) (st : state) (d : dump) (wd : odict) :
  files st !! json_path = Some d -> dump_words d = WordsDict wd ->
  let words_to_check : gset string := list_to_set (keys wd) in
  exists (posts llm_responses : list loc) (st1 st2 : state),
    json_load json_path st = Ok (posts, llm_responses, WordsDict wd, st1)
    /\ format_posts set_order json_path st = Ok st2
    /\ map (deref (heap st1)) posts = dump_posts d
    /\ map (deref (heap st1)) llm_responses = dump_llm_responses d
    /\ map (deref (heap st2)) posts = map (restrict words_to_check) (dump_posts d)
    /\ map (deref (heap st2)) llm_responses
       = map (restrict words_to_check) (dump_llm_responses d)
    /\ (forall l : loc, (l < length (heap st))%nat -> heap st2 !! l = heap st !! l)
    /\ files st2 !! json_path = Some d
    /\ (forall p : string, p <> "second_" +:+ json_path -> files st2 !! p = files st !! p)
    /\ files st2 !! ("second_" +:+ json_path)
       = Some (Dump (map (restrict words_to_check) (dump_posts d))
                    (map (restrict words_to_check) (dump_llm_responses d))
                    (WordsList (set_order (elements words_to_check)))).
Proof.
  intros Hf Hw words_to_check.
  pose proof (format_posts_spec set_order json_path st d wd Hf Hw) as Hfp. cbv zeta in Hfp.
  fold words_to_check in Hfp.
  set (posts' := map (restrict words_to_check) (dump_posts d)) in *.
  set (llm' := map (restrict words_to_check) (dump_llm_responses d)) in *.
  eexists _, _, _, _. split.
  { unfold json_load, alloc_docs. rewrite Hf, Hw. reflexivity. }
  split; [exact Hfp|]. cbn [heap files].
  split.
  { rewrite <- app_assoc. apply map_deref_fresh. }
  split.
  { pose proof (map_deref_fresh (dump_llm_responses d) (heap st ++ dump_posts d) []) as H.
    rewrite app_nil_r in H. exact H. }
  split.
  { replace (length (dump_posts d)) with (length posts') by apply length_map.
    apply map_deref_fresh. }
  split.
  { replace (length (dump_llm_responses d)) with (length llm') by apply length_map.
    replace (length (heap st ++ dump_posts d)) with (length (heap st ++ posts'))
      by (unfold posts'; rewrite !length_app, length_map; reflexivity).
    pose proof (map_deref_fresh llm' (heap st ++ posts') []) as H.
    rewrite app_nil_r, <- app_assoc in H. exact H. }
  split.
  { intros l Hl. apply lookup_app_l, Hl. }
  split.
  { rewrite lookup_insert_ne by apply second_path_ne. exact Hf. }
  split.
  { intros p Hp. apply lookup_insert_ne. congruence. }
  apply lookup_insert_eq.
Qed.

Lemma format_posts_filters_in_place_witness :
  exists (posts llm_responses : list loc) (st1 st2 : state),
    json_load "0dump.json" example_state
    = Ok (posts, llm_responses, WordsDict [("hike", 2)], st1)
    /\ format_posts example_set_order "0dump.json" example_state = Ok st2
    /\ map (deref (heap st1)) posts = [ {[ "hike" := 2; "the" := 1 ]}; {[ "a" := 1 ]} ]
    /\ map (deref (heap st2)) posts = [ {[ "hike" := 2 ]}; ∅ ].
Proof.
  destruct (format_posts_filters_in_place example_set_order "0dump.json" example_state
              (Dump [ {[ "hike" := 2; "the" := 1 ]}; {[ "a" := 1 ]} ]
                    [ {[ "hike" := 1; "so" := 3 ]} ]
                    (WordsDict [("hike", 2)]))
              [("hike", 2)] eq_refl eq_refl)
    as (posts & llm & st1 & st2 & H1 & H2 & H3 & _ & H5 & _).
  exists posts, llm, st1, st2.
  split; [exact H1|]. split; [exact H2|]. split; [exact H3|].
  rewrite H5. vm_compute. reflexivity.
Defined.

(** C9, counterexample: filtering edits the loaded documents themselves.  The
    object at address 0 is the first community document as loaded; after the
    filtering loop, and after [format_posts], the same object has lost its
    entry for ["the"]. *)
Lemma format_posts_mutates_loaded_document :
  exists st1 st2 : state,
    json_load "0dump.json" example_state = Ok ([0; 1]%nat, [2%nat], WordsDict [("hike", 2)], st1)
    /\ format_posts example_set_order "0dump.json" example_state = Ok st2
    /\ deref (heap st1) 0%nat = {[ "hike" := 2; "the" := 1 ]}
    /\ deref (heap st2) 0%nat = {[ "hike" := 2 ]}
    /\ deref (heap st2) 0%nat <> deref (heap st1) 0%nat
    /\ filter_loop {[ "hike" ]} [0%nat] (heap st1) = Ok (<[0%nat := {[ "hike" := 2 ]}]> (heap st1)).
Proof.
  eexists _, _. split; [reflexivity|]. split; [vm_compute; reflexivity|].
  split; [reflexivity|]. split; [reflexivity|]. split.
  - intros E. apply (f_equal (fun m : doc => m !! "the")) in E. vm_compute in E. discriminate.
  - vm_compute. reflexivity.
Qed.

(** ** The batch driver *)

(** C4, as the code has it.  The driver catches nothing.  When the test of a
    word raises, [calculate_p_values] raises the same exception: the entries
    computed for the words before it are dropped and the words after it are
    not tested.  When a trial raises, [calculate_p_values_from_scratch] raises
    too: the results of the trials before it are dropped and the trials after
    it do not run.  In particular a dump with an empty corpus makes the whole
    run end in [ZeroDivisionError]. *)
Theorem batch_driver_propagates_failures :
  (forall (json_path : string) (st : state) (d : dump) (ws1 : list string) (word : string)
          (ws2 : list string) (tape : nat -> Z) (final1 : p_values)
          (reqs1 reqs2 : list (Z * Z)) (e : exn),
      files st !! ("second_" +:+ json_path) = Some d ->
      words_iter (dump_words d) = ws1 ++ word :: ws2 ->
      run (p_values_loop (dump_posts d) (dump_llm_responses d) ws1 ∅) tape 0
      = Some (Returned final1, reqs1) ->
      run (calculate_p_value (dump_posts d) (dump_llm_responses d) word) tape (length reqs1)
      = Some (Raised e, reqs2) ->
      run (calculate_p_values json_path st) tape 0 = Some (Raised e, reqs1 ++ reqs2))
  /\ (forall (set_order : list string -> list string)
             (ps1 : list string) (path : string) (ps2 : list string) (st : state)
             (tape : nat -> Z) (results1 : list p_values) (st1 st2 : state)
             (reqs1 reqs2 : list (Z * Z)) (e : exn),
      run (trials_loop set_order ps1 st []) tape 0
      = Some (Returned (results1, st1), reqs1) ->
      format_posts set_order path st1 = Ok st2 ->
      run (calculate_p_values path st2) tape (length reqs1) = Some (Raised e, reqs2) ->
      run (calculate_p_values_from_scratch set_order (ps1 ++ path :: ps2) st) tape 0
      = Some (Raised e, reqs1 ++ reqs2))
  /\ (forall (json_path : string) (st : state) (d : dump) (word : string)
             (rest : list string),
      files st !! ("second_" +:+ json_path) = Some d ->
      words_iter (dump_words d) = word :: rest ->
      dump_posts d = [] \/ dump_llm_responses d = [] ->
      bounded_counts (counts (dump_posts d) word) ->
      calculate_p_values json_path st = Raise "ZeroDivisionError").
Proof.
  split; [|split].
  - intros json_path st d ws1 word ws2 tape final1 reqs1 reqs2 e Hf Hw H1 H2.
    unfold calculate_p_values. rewrite Hf, Hw.
    apply (run_p_values_loop_raise _ _ _ _ _ _ _ _ _ _ _ _ H1 H2).
  - intros set_order ps1 path ps2 st tape results1 st1 st2 reqs1 reqs2 e H1 Hf H2.
    unfold calculate_p_values_from_scratch. rewrite run_bind.
    rewrite (run_trials_loop_raise _ _ _ _ _ _ _ _ _ _ _ _ _ _ H1 Hf H2). reflexivity.
  - intros json_path st d word rest Hf Hw Hempty Hb.
    unfold calculate_p_values. rewrite Hf, Hw. cbn [p_values_loop].
    unfold calculate_p_value.
    fold (counts (dump_posts d) word) (counts (dump_llm_responses d) word).
    rewrite (observed_diff_of_empty _ _ word Hempty Hb). reflexivity.
Qed.

Lemma batch_driver_propagates_failures_witness :
  run (calculate_p_values_from_scratch example_set_order ["0dump.json"; "1dump.json"]
         example_trials_state)
      (fun _ => 0) 0
  = Some (Raised "ZeroDivisionError", []).
Proof.
  refine (proj1 (proj2 batch_driver_propagates_failures)
            example_set_order [] "0dump.json" ["1dump.json"] example_trials_state (fun _ => 0)
            [] example_trials_state _ [] [] "ZeroDivisionError" eq_refl _ _).
  - vm_compute. reflexivity.
  - vm_compute. reflexivity.
Defined.

(** C4, counterexample.  In a dump where the test of ["hike"] overflows and
    the test of ["a"] is fine, [calculate_p_values] yields the exception and
    no entry for either word.  In a run of two trials whose first dump has no
    community document, [calculate_p_values_from_scratch] yields
    [ZeroDivisionError] alone, although the second trial on its own returns a
    mapping with an entry for its word. *)
Lemma batch_driver_aborts_on_failure :
  calculate_p_values "dump.json" example_overflow_state = Raise "OverflowError"
  /\ (forall tape : nat -> Z, valid_tape tape 2 ->
      exists (r : list float) (requests : list (Z * Z)),
        run (calculate_p_value [ {[ "hike" := 2 ^ 1100; "a" := 1 ]} ] [ {[ "a" := 1 ]} ] "a")
            tape 0 = Some (Returned r, requests))
  /\ calculate_p_values_from_scratch example_set_order ["0dump.json"; "1dump.json"]
       example_trials_state
     = Raise "ZeroDivisionError"
  /\ (forall tape : nat -> Z, valid_tape tape 2 ->
      exists (st1 : state) (res : p_values) (requests : list (Z * Z)),
        format_posts example_set_order "1dump.json" example_trials_state = Ok st1
        /\ run (calculate_p_values "1dump.json" st1) tape 0 = Some (Returned res, requests)
        /\ is_Some (res !! "hike")).
Proof.
  split; [vm_compute; reflexivity|]. split; [|split; [vm_compute; reflexivity|]].
  - intros tape Hv.
    destruct (run_calculate_p_value
                [ {[ "hike" := 2 ^ 1100; "a" := 1 ]} ] [ {[ "a" := 1 ]} ] "a" tape
                ltac:(simpl; lia) ltac:(simpl; lia)
                ltac:(unfold bounded_counts; repeat constructor) Hv) as [H _].
    eexists _, _. exact H.
  - intros tape Hv.
    destruct (run_calculate_p_value
                [ {[ "hike" := 2 ]} ] [ {[ "hike" := 1 ]} ] "hike" tape
                ltac:(simpl; lia) ltac:(simpl; lia)
                ltac:(unfold bounded_counts; repeat constructor) Hv) as [H _].
    eexists _, _, _. split; [vm_compute; reflexivity|]. split.
    + unfold calculate_p_values.
      match goal with |- context [files ?s !! ?p] =>
        replace (files s !! p)
          with (Some (Dump [ {[ "hike" := 2 ]} ] [ {[ "hike" := 1 ]} ] (WordsList ["hike"])))
          by (vm_compute; reflexivity) end.
      cbn [dump_posts dump_llm_responses dump_words words_iter p_values_loop].
      rewrite run_bind, H. cbn [run]. reflexivity.
    + rewrite lookup_insert_eq. eexists. reflexivity.
Qed.

(** * Further properties of the code *)

(** ** The test on arbitrary counts *)

Lemma SFdiv_int_not_nan (a b : Z) :
  b <> 0 -> is_nan (SFdiv prec emax (int_to_float a) (int_to_float b)) = false.
Proof.
  intros Hb.
  destruct a as [|pa|pa], b as [|pb|pb]; try lia; try reflexivity;
    unfold int_to_float, SFdiv, SFdiv_core_binary.
  all: set (mm := match _ with Z0 => _ | Zpos _ => _ | Zneg _ => _ end);
    assert (Hmm : 0 <= mm) by
      (subst mm; match goal with |- context [match ?s with _ => _ end] =>
         destruct s; try lia; apply Z.shiftl_nonneg; lia end).
  all: pose proof (Z.div_eucl_eq mm (Z.pos pb) ltac:(lia)) as Hdiv;
    pose proof (Z.mod_pos_bound mm (Z.pos pb) ltac:(lia)) as Hmod;
    unfold Z.modulo in Hmod;
    destruct (Z.div_eucl mm (Z.pos pb)) as [q r];
    apply binary_round_aux_not_nan; nia.
Qed.

(** A division by a non-zero int gives a finite float or [OverflowError]. *)
Lemma truediv_cases (a b : Z) :
  b <> 0 ->
  (exists q, truediv a b = Ok q /\ is_finite q = true)
  \/ truediv a b = Err "OverflowError".
Proof.
  intros Hb. unfold truediv. destruct (Z.eqb_spec b 0) as [?|_]; [contradiction|].
  pose proof (SFdiv_int_not_nan a b Hb) as Hnan.
  destruct (SFdiv prec emax (int_to_float a) (int_to_float b)) as [s|s| |s m e];
    try discriminate; [left|right|left]; try reflexivity; eexists; split; reflexivity.
Qed.

(** Every quotient counter / 10000 with [0 <= counter <= 10000] lies between
    [0.0] and [1.0], by evaluation of the 10001 divisions. *)
Lemma spec_p_value_range_all :
  forallb (fun c => float_ge (spec_p_value (Z.of_nat c)) float_zero
                    && float_ge float_one (spec_p_value (Z.of_nat c)))
          (seq 0 (Z.to_nat 10001)) = true.
Proof. vm_compute. reflexivity. Qed.

Lemma spec_p_value_range (c : Z) :
  0 <= c <= 10000 ->
  float_ge (spec_p_value c) float_zero = true
  /\ float_ge float_one (spec_p_value c) = true.
Proof.
  intros Hc. pose proof spec_p_value_range_all as H.
  rewrite forallb_forall in H. specialize (H (Z.to_nat c)).
  rewrite Z2Nat.id in H by lia. apply andb_true_iff, H, in_seq. lia.
Qed.

(** The loop on a valid tape, whatever the counts: it reaches the end, or a
    mean overflows; nothing else can happen. *)
Lemma run_resample_loop_any (pool : list Z) (tape : nat -> Z) (n m : nat)
    (observed : float) :
  (0 < n)%nat -> (0 < m)%nat -> valid_tape tape (len pool) ->
  forall (iters pos : nat) (count : Z),
  exists (o : outcome Z) (k : nat),
    run (resample_loop iters pool (Z.of_nat n) (Z.of_nat m) observed count) tape pos
    = Some (o, repeat (0, len pool - 1) k)
    /\ match o with
       | Returned c => k = (iters * (n + m))%nat /\ count <= c <= count + Z.of_nat iters
       | Raised e => e = "OverflowError" /\ (k <= iters * (n + m))%nat
       end.
Proof.
  intros Hn Hm Hv. induction iters as [|iters IH]; intros pos count.
  - exists (Returned count), 0%nat. split; [reflexivity|]. split; [reflexivity|lia].
  - cbn [resample_loop]. rewrite run_bind, run_round_resamples by assumption.
    rewrite length_app, !repeat_length, <- repeat_app. cbn [fst snd].
    destruct (truediv_cases (py_sum (drawn pool tape pos n)) (Z.of_nat n) ltac:(lia))
      as [(mua & -> & _)| ->].
    2:{ exists (Raised "OverflowError"), (n + m)%nat. cbn [lift mbind prog_bind prog_bind_fix run].
        rewrite app_nil_r. split; [reflexivity|]. split; [reflexivity|lia]. }
    cbn [lift]. rewrite bind_Ret.
    destruct (truediv_cases (py_sum (drawn pool tape (pos + n) m)) (Z.of_nat m) ltac:(lia))
      as [(mub & -> & _)| ->].
    2:{ exists (Raised "OverflowError"), (n + m)%nat. cbn [lift mbind prog_bind prog_bind_fix run].
        rewrite app_nil_r. split; [reflexivity|]. split; [reflexivity|lia]. }
    cbn [lift]. rewrite bind_Ret.
    destruct (IH (pos + (n + m))%nat
                 (if float_ge (float_abs (float_sub mua mub)) observed
                  then count + 1 else count)) as (o & k & -> & Ho).
    exists o, (n + m + k)%nat. rewrite <- repeat_app. split; [reflexivity|].
    destruct o as [c|e].
    + destruct Ho as [-> Hc]. split; [lia|].
      destruct (float_ge _ observed); lia.
    + destruct Ho as [-> Hk]. split; [reflexivity|lia].
Qed.

(** The observed statistic of two non-empty corpora: a finite or infinite
    non-negative float, or [OverflowError]. *)
Lemma observed_diff_of_cases (post_nums llm_response_nums : list Z) :
  post_nums <> [] -> llm_response_nums <> [] ->
  (exists s, observed_diff_of post_nums llm_response_nums = Ok s
             /\ float_ge s float_zero = true)
  \/ observed_diff_of post_nums llm_response_nums = Err "OverflowError".
Proof.
  intros Hp Hl. unfold observed_diff_of.
  assert (Hlp : len post_nums <> 0) by (unfold len; destruct post_nums; [congruence|simpl; lia]).
  assert (Hll : len llm_response_nums <> 0)
    by (unfold len; destruct llm_response_nums; [congruence|simpl; lia]).
  destruct (truediv_cases (py_sum post_nums) _ Hlp) as [(a & -> & Ha)| ->]; [|right; reflexivity].
  destruct (truediv_cases (py_sum llm_response_nums) _ Hll) as [(b & -> & Hb)| ->];
    [|right; reflexivity].
  left. eexists. split; [reflexivity|].
  apply float_ge_abs_zero, float_sub_not_nan; assumption.
Qed.

(** The test of two non-empty corpora on a valid tape. *)
Lemma run_calculate_p_value_any (posts llm_responses : list doc) (word : string)
    (tape : nat -> Z) (pos : nat) :
  let n := length posts in
  let m := length llm_responses in
  (1 <= n)%nat -> (1 <= m)%nat -> valid_tape tape (Z.of_nat (n + m)) ->
  exists (o : outcome (list float)) (k : nat),
    run (calculate_p_value posts llm_responses word) tape pos
    = Some (o, repeat (0, Z.of_nat (n + m) - 1) k)
    /\ match o with
       | Returned r =>
           k = (Z.to_nat 10000 * (n + m))%nat
           /\ exists (s p : float),
                r = [s; p]
                /\ observed_diff_of (counts posts word) (counts llm_responses word) = Ok s
                /\ float_ge s float_zero = true
                /\ float_ge p float_zero = true /\ float_ge float_one p = true
       | Raised e => e = "OverflowError" /\ (k <= Z.to_nat 10000 * (n + m))%nat
       end.
Proof.
  intros n m Hn Hm Hv.
  set (pool := counts posts word ++ counts llm_responses word).
  assert (Hlen : len pool = Z.of_nat (n + m)).
  { unfold len, pool. rewrite length_app, !counts_length. reflexivity. }
  assert (Hp : counts posts word <> []) by nonempty.
  assert (Hl : counts llm_responses word <> []) by nonempty.
  unfold calculate_p_value. fold (counts posts word) (counts llm_responses word). fold pool.
  unfold len at 1 2. rewrite !counts_length. fold n m.
  destruct (observed_diff_of_cases _ _ Hp Hl) as [(s & Hs & Hs0)|Hs]; rewrite Hs.
  2:{ exists (Raised "OverflowError"), 0%nat. split; [reflexivity|]. split; [reflexivity|lia]. }
  cbn [lift]. rewrite !bind_Ret, run_bind.
  rewrite <- Hlen in Hv.
  destruct (run_resample_loop_any pool tape n m s Hn Hm Hv (Z.to_nat ROUNDS) pos 0)
    as (o & k & -> & Ho).
  rewrite Hlen. destruct o as [c|e].
  - destruct Ho as [-> Hc]. rewrite bind_Ret.
    assert (Hc' : 0 <= c <= ROUNDS) by (unfold ROUNDS in *; lia).
    rewrite (truediv_counter c Hc'). cbn [lift mbind prog_bind prog_bind_fix run].
    rewrite app_nil_r. eexists _, _. split; [reflexivity|].
    split; [reflexivity|]. exists s, (spec_p_value c).
    split; [reflexivity|]. split; [reflexivity|]. split; [exact Hs0|].
    apply spec_p_value_range. exact Hc'.
  - destruct Ho as [-> Hk]. eexists _, _. split; [reflexivity|]. split; [reflexivity|exact Hk].
Qed.

(** ** Symmetry of the float difference *)

Lemma binary_round_aux_abs (s s' : bool) (m e : Z) (l : location) :
  SFabs (binary_round_aux prec emax s m e l) = SFabs (binary_round_aux prec emax s' m e l).
Proof.
  unfold binary_round_aux. destruct (shr_fexp prec emax m e l) as [mrs' e'].
  destruct (shr_fexp prec emax _ e' loc_Exact) as [mrs'' e''].
  destruct (shr_m mrs'') as [|p|p]; try reflexivity.
  destruct (e'' <=? emax - prec); reflexivity.
Qed.

Lemma binary_normalize_abs_opp (z e : Z) :
  SFabs (binary_normalize prec emax (- z) e false)
  = SFabs (binary_normalize prec emax z e false).
Proof.
  destruct z as [|p|p]; [reflexivity| |].
  - change (- Z.pos p) with (Z.neg p). unfold binary_normalize, binary_round.
    destruct (shl_align _ _ _) as [mz ez]. apply binary_round_aux_abs.
  - change (- Z.neg p) with (Z.pos p). unfold binary_normalize, binary_round.
    destruct (shl_align _ _ _) as [mz ez]. apply binary_round_aux_abs.
Qed.

Lemma float_abs_sub_comm (x y : float) :
  is_finite x = true -> is_finite y = true ->
  float_abs (float_sub x y) = float_abs (float_sub y x).
Proof.
  destruct x as [sx| | |sx mx ex], y as [sy| | |sy my ey]; try discriminate; intros _ _.
  - destruct sx, sy; reflexivity.
  - cbn. destruct sy; reflexivity.
  - cbn. destruct sx; reflexivity.
  - unfold float_abs, float_sub, SFsub. rewrite (Z.min_comm ey ex).
    rewrite <- binary_normalize_abs_opp. f_equal. f_equal. lia.
Qed.

Lemma observed_diff_of_comm (post_nums llm_response_nums : list Z) (s : float) :
  observed_diff_of post_nums llm_response_nums = Ok s ->
  observed_diff_of llm_response_nums post_nums = Ok s.
Proof.
  unfold observed_diff_of. intros H.
  destruct (Z.eq_dec (len post_nums) 0) as [E|Hp].
  { rewrite E in H. discriminate. }
  destruct (truediv_cases (py_sum post_nums) _ Hp) as [(a & Ea & Ha)|Ea];
    rewrite Ea in H; [|discriminate].
  rewrite result_bind_Ok in H.
  destruct (Z.eq_dec (len llm_response_nums) 0) as [E|Hl].
  { rewrite E in H. discriminate. }
  destruct (truediv_cases (py_sum llm_response_nums) _ Hl) as [(b & Eb & Hb)|Eb];
    rewrite Eb in H; [|discriminate].
  rewrite result_bind_Ok in H. injection H as <-.
  rewrite Ea, Eb, !result_bind_Ok. f_equal. apply float_abs_sub_comm; assumption.
Qed.

Lemma counts_Permutation (corpus corpus' : list doc) (word : string) :
  Permutation corpus corpus' -> Permutation (counts corpus word) (counts corpus' word).
Proof. apply Permutation_map. Qed.

Lemma observed_diff_of_Permutation (a a' b b' : list Z) :
  Permutation a a' -> Permutation b b' -> observed_diff_of a b = observed_diff_of a' b'.
Proof.
  intros Ha Hb. unfold observed_diff_of, len.
  rewrite (Permutation_py_sum _ _ Ha), (Permutation_py_sum _ _ Hb).
  rewrite (Permutation_length Ha), (Permutation_length Hb). reflexivity.
Qed.

(** ** A word that occurs nowhere *)

Lemma py_sum_zeros (l : list Z) : Forall (fun v => v = 0) l -> py_sum l = 0.
Proof.
  induction 1 as [|v l -> _ IH]; [reflexivity|]. rewrite py_sum_cons, IH. reflexivity.
Qed.

Lemma spec_mean_zeros (l : list Z) :
  l <> [] -> Forall (fun v => v = 0) l -> spec_mean l = float_zero.
Proof.
  intros Hne Hz. unfold spec_mean. rewrite (py_sum_zeros l Hz).
  unfold len. destruct l; [congruence|]. reflexivity.
Qed.

Lemma bounded_counts_zeros (l : list Z) :
  Forall (fun v => v = 0) l -> bounded_counts l.
Proof.
  unfold bounded_counts. intros H. eapply Forall_impl; [exact H|].
  intros v ->. apply count_bound_pos.
Qed.

(** ** The reference list, [x_most_common_words] *)

Lemma x_most_common_loop_spec (x : Z) (rows : csv) :
  forall (i : Z) (data : list string),
  let first := take (Z.to_nat (x - i)) rows in
  (Forall (fun row => row <> []) first ->
   x_most_common_loop x i rows data = Ok (data ++ map (hd "") first))
  /\ (Exists (fun row => row = []) first ->
      x_most_common_loop x i rows data = Err "IndexError").
Proof.
  induction rows as [|row rest IH]; intros i data; cbn zeta.
  - rewrite take_nil. split; intros H.
    + cbn. rewrite app_nil_r. reflexivity.
    + inversion H.
  - cbn [x_most_common_loop]. destruct (Z.leb_spec x i) as [Hle|Hlt].
    + replace (Z.to_nat (x - i)) with 0%nat by lia. cbn [take]. split; intros H.
      * cbn. rewrite app_nil_r. reflexivity.
      * inversion H.
    + replace (Z.to_nat (x - i)) with (S (Z.to_nat (x - (i + 1)))) by lia.
      cbn [take]. specialize (IH (i + 1)).
      destruct row as [|word tl].
      * split; intros H; [|reflexivity]. inversion H; congruence.
      * destruct (IH (data ++ [word])) as [IH1 IH2]. split; intros H.
        -- rewrite IH1 by (inversion H; assumption).
           rewrite <- app_assoc. reflexivity.
        -- apply IH2. inversion H; [discriminate|assumption].
Qed.

Lemma Forall_or_Exists_empty (rows : csv) :
  Forall (fun row => row <> []) rows \/ Exists (fun row : list string => row = []) rows.
Proof.
  induction rows as [|[|w tl] rest [IH|IH]].
  - left. constructor.
  - right. left. reflexivity.
  - right. left. reflexivity.
  - left. constructor; [discriminate|assumption].
  - right. right. assumption.
Qed.

Lemma x_most_common_words_cases (fs : gmap string csv) (x : Z) :
  (exists rows, fs !! "unigram_freq.csv" = Some rows
                /\ x_most_common_words fs x = Ok (map (hd "") (take (Z.to_nat x) rows))
                /\ Forall (fun row => row <> []) (take (Z.to_nat x) rows))
  \/ x_most_common_words fs x = Err "IndexError"
  \/ x_most_common_words fs x = Err "FileNotFoundError".
Proof.
  destruct (fs !! "unigram_freq.csv") as [rows|] eqn:Hf.
  - pose proof (x_most_common_loop_spec x rows 0 []) as [H1 H2].
    rewrite Z.sub_0_r in H1, H2.
    unfold x_most_common_words, open_csv. rewrite Hf, result_bind_Ok.
    destruct (Forall_or_Exists_empty (take (Z.to_nat x) rows)) as [H|H].
    + left. exists rows. auto.
    + right. left. auto.
  - right. right. unfold x_most_common_words, open_csv. rewrite Hf. reflexivity.
Qed.

Lemma take_take_le {A : Type} (n k : nat) (l : list A) :
  (n <= k)%nat -> take n (take k l) = take n l.
Proof. intros H. rewrite take_take. f_equal. lia. Qed.

(** ** The ranking made by the selector *)

Lemma insert_desc_sorted (item : string * Z) (l : odict) :
  Sorted.StronglySorted count_desc l -> Sorted.StronglySorted count_desc (insert_desc item l).
Proof.
  induction 1 as [|q rest Hs IH Hq]; cbn [insert_desc].
  - repeat constructor.
  - destruct (Z.leb_spec (snd q) (snd item)) as [Hle|Hlt].
    + constructor; [constructor; assumption|].
      constructor; [exact Hle|].
      eapply Forall_impl; [exact Hq|]. unfold count_desc. intros r Hr. lia.
    + constructor; [exact IH|].
      rewrite (insert_desc_perm item rest). constructor; [|exact Hq].
      unfold count_desc. lia.
Qed.

Lemma sorted_desc_sorted (l : odict) : Sorted.StronglySorted count_desc (sorted_desc l).
Proof.
  induction l as [|item l IH]; [constructor|]. apply insert_desc_sorted, IH.
Qed.

Lemma take_sorted (n : nat) (l : odict) :
  Sorted.StronglySorted count_desc l -> Sorted.StronglySorted count_desc (take n l).
Proof.
  intros H. rewrite <- (take_drop n l) in H. eapply sorting.StronglySorted_app_1_l, H.
Qed.

Section SelectorRanking.

Variable detect : string -> result string.
Variable set_order : list string -> list string.
Hypothesis set_order_perm : forall l : list string, set_order l ≡ₚ l.

(** The whole ranking, of which [selected] is the first [y] entries. *)
Lemma selected_ranking (exclude discussion_row llm_row : list string) :
  exists full : odict,
    (forall y : Z,
        selected detect set_order y exclude discussion_row llm_row = take (Z.to_nat y) full)
    /\ Sorted.StronglySorted count_desc full
    /\ NoDup (keys full)
    /\ forall (w : string) (c : Z),
         (w, c) ∈ full
         <-> w ∈ survivors detect exclude discussion_row llm_row
             /\ c = occurrences discussion_row w.
Proof.
  eexists. split; [intros y; unfold selected; reflexivity|].
  set (full := sorted_desc _).
  assert (Hsel : selected detect set_order (Z.of_nat (length full))
                   exclude discussion_row llm_row = full).
  { unfold selected. fold full. rewrite Nat2Z.id. apply firstn_all. }
  assert (Hperm : keys full ≡ₚ survivors detect exclude discussion_row llm_row).
  { unfold full. rewrite (keys_perm _ _ (sorted_desc_perm _)), keys_pairs.
    apply (candidates_survivors detect set_order set_order_perm). }
  split; [|split].
  - apply sorted_desc_sorted.
  - rewrite Hperm. apply NoDup_filter, NoDup_remove_dups.
  - intros w c. split.
    + intros Hin. rewrite <- Hsel in Hin.
      apply (selected_elem detect set_order set_order_perm) in Hin. exact Hin.
    + intros [Hs ->].
      assert (Hk : w ∈ keys full) by (rewrite Hperm; exact Hs).
      unfold keys in Hk. apply list_elem_of_fmap in Hk as ([w' c'] & -> & Hin).
      pose proof Hin as Hin'. rewrite <- Hsel in Hin'.
      apply (selected_elem detect set_order set_order_perm) in Hin' as [_ ->]. exact Hin.
Qed.

End SelectorRanking.

(** ** Filtered documents *)

Lemma get_restrict_in (words_to_check : gset string) (d : doc) (w : string) :
  w ∈ words_to_check -> get (restrict words_to_check d) w 0 = get d w 0.
Proof.
  intros Hw. unfold get, restrict. destruct (d !! w) as [v|] eqn:E.
  - rewrite (proj2 (map_lookup_filter_Some _ d w v)); [reflexivity|]. split; assumption.
  - rewrite (proj2 (map_lookup_filter_None _ d w)); [reflexivity|]. left. exact E.
Qed.

Lemma get_restrict_out (words_to_check : gset string) (d : doc) (w : string) :
  w ∉ words_to_check -> get (restrict words_to_check d) w 0 = 0.
Proof.
  intros Hw. unfold get, restrict.
  rewrite (proj2 (map_lookup_filter_None _ d w)); [reflexivity|].
  right. intros v _. exact Hw.
Qed.

Lemma counts_restrict_in (words_to_check : gset string) (docs : list doc) (w : string) :
  w ∈ words_to_check -> counts (map (restrict words_to_check) docs) w = counts docs w.
Proof.
  intros Hw. unfold counts. rewrite map_map. apply map_ext. intros d.
  apply get_restrict_in, Hw.
Qed.

Lemma counts_restrict_out (words_to_check : gset string) (docs : list doc) (w : string) :
  w ∉ words_to_check ->
  Forall (fun v => v = 0) (counts (map (restrict words_to_check) docs) w).
Proof.
  intros Hw. unfold counts. rewrite map_map. apply Forall_forall. intros v Hv.
  apply list_elem_of_In, in_map_iff in Hv as (d & <- & _). apply get_restrict_out, Hw.
Qed.

(** The test reads the documents through the counts of the word alone. *)
Lemma calculate_p_value_counts (posts posts' llm_responses llm_responses' : list doc)
    (word : string) :
  counts posts' word = counts posts word ->
  counts llm_responses' word = counts llm_responses word ->
  calculate_p_value posts' llm_responses' word = calculate_p_value posts llm_responses word.
Proof.
  intros Hp Hl. unfold calculate_p_value.
  change (map (fun post => get post word 0) posts') with (counts posts' word).
  change (map (fun response => get response word 0) llm_responses')
    with (counts llm_responses' word).
  rewrite Hp, Hl. reflexivity.
Qed.

(** ** The batch driver on non-empty corpora *)

Lemma run_p_values_loop_ext (posts posts' llm_responses llm_responses' : list doc)
    (tape : nat -> Z) (words : list string) :
  (forall w, w ∈ words ->
     counts posts' w = counts posts w
     /\ counts llm_responses' w = counts llm_responses w) ->
  forall (final : p_values) (pos : nat),
  run (p_values_loop posts' llm_responses' words final) tape pos
  = run (p_values_loop posts llm_responses words final) tape pos.
Proof.
  induction words as [|w words IH]; intros Hw final pos; [reflexivity|].
  cbn [p_values_loop]. rewrite !run_bind.
  destruct (Hw w ltac:(left)) as [Hp Hl].
  rewrite (calculate_p_value_counts _ _ _ _ _ Hp Hl).
  destruct (run (calculate_p_value posts llm_responses w) tape pos) as [[[r|e] rq]|];
    try reflexivity.
  rewrite IH; [reflexivity|]. intros w' Hw'. apply Hw. right. exact Hw'.
Qed.

Lemma run_p_values_loop_any (posts llm_responses : list doc) (tape : nat -> Z) :
  let n := length posts in
  let m := length llm_responses in
  (1 <= n)%nat -> (1 <= m)%nat -> valid_tape tape (Z.of_nat (n + m)) ->
  forall (words : list string) (final : p_values) (pos : nat),
  exists (o : outcome p_values) (k : nat),
    run (p_values_loop posts llm_responses words final) tape pos
    = Some (o, repeat (0, Z.of_nat (n + m) - 1) k)
    /\ match o with
       | Returned final' =>
           k = (length words * (Z.to_nat 10000 * (n + m)))%nat
           /\ (forall w, w ∈ words ->
                 exists r, final' !! w = Some r /\ tested posts llm_responses w r)
           /\ (forall w, w ∉ words -> final' !! w = final !! w)
       | Raised e =>
           e = "OverflowError" /\ (k <= length words * (Z.to_nat 10000 * (n + m)))%nat
       end.
Proof.
  intros n m Hn Hm Hv. induction words as [|w words IH]; intros final pos.
  - exists (Returned final), 0%nat. split; [reflexivity|]. split; [reflexivity|].
    split; [|reflexivity]. intros w Hw. inversion Hw.
  - cbn [p_values_loop]. rewrite run_bind.
    destruct (run_calculate_p_value_any posts llm_responses w tape pos Hn Hm Hv)
      as (o1 & k1 & -> & Ho1).
    fold n m. fold n m in Ho1.
    destruct o1 as [r|e].
    2:{ exists (Raised e), k1. split; [reflexivity|]. destruct Ho1 as [-> Hk].
        split; [reflexivity|]. cbn [length]. lia. }
    destruct Ho1 as (-> & s & p & -> & Hs & Hs0 & Hp0 & Hp1).
    rewrite repeat_length.
    destruct (IH (<[w := [s; p]]> final) (pos + Z.to_nat 10000 * (n + m))%nat)
      as (o & k & -> & Ho).
    exists o, (Z.to_nat 10000 * (n + m) + k)%nat. rewrite <- repeat_app.
    split; [reflexivity|].
    destruct o as [final'|e].
    + destruct Ho as (-> & Hin & Hout). split; [cbn [length]; lia|]. split.
      * intros w' Hw'. destruct (decide (w' ∈ words)) as [Hd|Hd]; [apply Hin, Hd|].
        apply elem_of_cons in Hw' as [->|Hw']; [|contradiction].
        rewrite (Hout w Hd), lookup_insert_eq. eexists. split; [reflexivity|].
        exists s, p. auto.
      * intros w' Hw'. rewrite not_elem_of_cons in Hw'. destruct Hw' as [Hne Hw'].
        rewrite (Hout w' Hw'). apply lookup_insert_ne. congruence.
    + destruct Ho as [-> Hk]. split; [reflexivity|]. cbn [length]. lia.
Qed.

(** The same when the corpora may be empty, provided there is then no word
    to test. *)
Lemma run_p_values_loop_cond (posts llm_responses : list doc) (tape : nat -> Z)
    (words : list string) (final : p_values) (pos : nat) :
  let n := length posts in
  let m := length llm_responses in
  (words <> [] -> (1 <= n)%nat /\ (1 <= m)%nat /\ valid_tape tape (Z.of_nat (n + m))) ->
  exists (o : outcome p_values) (k : nat),
    run (p_values_loop posts llm_responses words final) tape pos
    = Some (o, repeat (0, Z.of_nat (n + m) - 1) k)
    /\ match o with
       | Returned final' =>
           (forall w, w ∈ words ->
              exists r, final' !! w = Some r /\ tested posts llm_responses w r)
           /\ (forall w, w ∉ words -> final' !! w = final !! w)
       | Raised e => e = "OverflowError"
       end.
Proof.
  intros n m Hcond. destruct words as [|w words].
  - exists (Returned final), 0%nat. split; [reflexivity|].
    split; [intros w Hw; inversion Hw|reflexivity].
  - destruct (Hcond ltac:(discriminate)) as (Hn & Hm & Hv).
    destruct (run_p_values_loop_any posts llm_responses tape Hn Hm Hv (w :: words) final pos)
      as (o & k & Hrun & Ho).
    exists o, k. split; [exact Hrun|]. destruct o as [final'|e]; [|apply Ho].
    destruct Ho as (_ & Hin & Hout). split; assumption.
Qed.

(** [combined_dict.update]: the entry of a word comes from the last trial
    that has one. *)
Lemma combine_snoc (results : list p_values) (r : p_values) :
  combine (results ++ [r]) = r ∪ combine results.
Proof. unfold combine. rewrite foldl_app. reflexivity. Qed.

Lemma combine_lookup_None (results : list p_values) (w : string) :
  combine results !! w = None <-> forall r, r ∈ results -> r !! w = None.
Proof.
  induction results as [|r results IH] using rev_ind.
  - split; [intros _ r Hr; inversion Hr|reflexivity].
  - rewrite combine_snoc, lookup_union_None, IH. split.
    + intros [Hr Hrs] r' Hr'. apply elem_of_app in Hr' as [Hr'|Hr'].
      * apply Hrs, Hr'.
      * apply list_elem_of_singleton in Hr'. congruence.
    + intros H. split.
      * apply H, elem_of_app. right. apply list_elem_of_singleton. reflexivity.
      * intros r' Hr'. apply H, elem_of_app. left. exact Hr'.
Qed.

Lemma combine_lookup_Some (results : list p_values) (w : string) (v : list float) :
  combine results !! w = Some v -> exists r, r ∈ results /\ r !! w = Some v.
Proof.
  induction results as [|r results IH] using rev_ind.
  - unfold combine. cbn. rewrite lookup_empty. discriminate.
  - rewrite combine_snoc. intros H. apply lookup_union_Some_raw in H as [H|[_ H]].
    + exists r. split; [|exact H]. apply elem_of_app. right.
      apply list_elem_of_singleton. reflexivity.
    + destruct (IH H) as (r' & Hr' & Hv). exists r'. split; [|exact Hv].
      apply elem_of_app. left. exact Hr'.
Qed.

(** ** The outcomes of [format_posts] *)

Lemma format_posts_cases (set_order : list string -> list string)
    (json_path : string) (st : state) :
  format_posts set_order json_path st
  = match files st !! json_path with
    | None => Err "FileNotFoundError"
    | Some d =>
        match dump_words d with
        | WordsList _ => Err "AttributeError"
        | WordsDict wd =>
            let words_to_check : gset string := list_to_set (keys wd) in
            let posts' := map (restrict words_to_check) (dump_posts d) in
            let llm' := map (restrict words_to_check) (dump_llm_responses d) in
            Ok (State (<["second_" +:+ json_path :=
                          Dump posts' llm' (WordsList (set_order (elements words_to_check)))]>
                         (files st))
                      (heap st ++ posts' ++ llm'))
        end
    end.
Proof.
  destruct (files st !! json_path) as [d|] eqn:Hf.
  - destruct (dump_words d) as [wd|l] eqn:Hw.
    + apply (format_posts_spec set_order json_path st d wd Hf Hw).
    + unfold format_posts, json_load, alloc_docs. rewrite Hf, result_bind_Ok, Hw.
      reflexivity.
  - unfold format_posts, json_load. rewrite Hf. reflexivity.
Qed.

(** ** The trials on dumps of the same corpora *)

Lemma run_trials_loop_any (set_order : list string -> list string)
    (set_order_perm : forall l : list string, set_order l ≡ₚ l)
    (posts llm_responses : list doc) (tape : nat -> Z) (all : list string) :
  let n := length posts in
  let m := length llm_responses in
  (forall p q, p ∈ all -> q ∈ all -> q <> "second_" +:+ p) ->
  forall (paths : list string) (wds : list odict) (st : state)
         (results : list p_values) (pos : nat),
  ((exists wd, wd ∈ wds /\ wd <> []) ->
   (1 <= n)%nat /\ (1 <= m)%nat /\ valid_tape tape (Z.of_nat (n + m))) ->
  Forall2 (fun p wd => p ∈ all
                       /\ files st !! p = Some (Dump posts llm_responses (WordsDict wd)))
          paths wds ->
  exists (o : outcome (list p_values * state)) (k : nat),
    run (trials_loop set_order paths st results) tape pos
    = Some (o, repeat (0, Z.of_nat (n + m) - 1) k)
    /\ match o with
       | Returned (rs, _) =>
           exists new : list p_values,
             rs = results ++ new
             /\ Forall2 (fun wd r =>
                           (forall w, w ∈ keys wd ->
                              exists v, r !! w = Some v /\ tested posts llm_responses w v)
                           /\ (forall w, w ∉ keys wd -> r !! w = None))
                        wds new
       | Raised e => e = "OverflowError"
       end.
Proof.
  intros n m Hall.
  induction paths as [|path paths IH]; intros wds st results pos Hcond HF.
  - inversion HF; subst. exists (Returned (results, st)), 0%nat. split; [reflexivity|].
    exists []. rewrite app_nil_r. split; [reflexivity|constructor].
  - inversion HF as [|p wd ps wds' [Hin Hf] HF']; subst. cbn [trials_loop].
    rewrite format_posts_cases, Hf. cbn [dump_words dump_posts dump_llm_responses lift].
    set (W := list_to_set (keys wd) : gset string).
    set (posts' := map (restrict W) posts).
    set (llm' := map (restrict W) llm_responses).
    set (words := set_order (elements W)).
    set (st2 := State _ _).
    rewrite bind_Ret, run_bind.
    assert (Hwords : forall w, w ∈ words <-> w ∈ keys wd).
    { intros w. unfold words. rewrite (set_order_perm (elements W)), elem_of_elements.
      unfold W. apply elem_of_list_to_set. }
    assert (Hrun : run (calculate_p_values path st2) tape pos
                   = run (p_values_loop posts llm_responses words ∅) tape pos).
    { unfold calculate_p_values, st2. cbn [files]. rewrite lookup_insert_eq.
      cbn [dump_words dump_posts dump_llm_responses words_iter]. fold words.
      apply run_p_values_loop_ext. intros w Hw. apply Hwords in Hw.
      assert (HwW : w ∈ W) by (unfold W; apply elem_of_list_to_set, Hw).
      split; apply counts_restrict_in, HwW. }
    rewrite Hrun.
    destruct (run_p_values_loop_cond posts llm_responses tape words ∅ pos)
      as (o1 & k1 & -> & Ho1).
    { intros Hne. apply Hcond. exists wd. split; [left|]. intros ->. apply Hne.
      destruct words as [|w0 ?]; [reflexivity|].
      pose proof (proj1 (Hwords w0) ltac:(left)) as Hc. inversion Hc. }
    fold n m.
    destruct o1 as [r|e].
    2:{ exists (Raised e), k1. split; [reflexivity|]. apply Ho1. }
    destruct Ho1 as (Hr_in & Hr_out). rewrite repeat_length.
    destruct (IH wds' st2 (results ++ [r]) (pos + k1)%nat) as (o & k & -> & Ho).
    { intros (wd' & Hwd' & Hne). apply Hcond. exists wd'. split; [right; exact Hwd'|exact Hne]. }
    { eapply Forall2_impl; [exact HF'|]. intros q wdq [Hq Hfq]. split; [exact Hq|].
      unfold st2. cbn [files]. rewrite lookup_insert_ne; [exact Hfq|].
      intros E. exact (Hall path q Hin Hq (eq_sym E)). }
    exists o, (k1 + k)%nat. rewrite <- repeat_app. split; [reflexivity|].
    destruct o as [[rs st']|e]; [|exact Ho].
    destruct Ho as (new & -> & Hnew). exists (r :: new). rewrite <- app_assoc.
    split; [reflexivity|]. constructor; [|exact Hnew]. split.
    + intros w Hw. apply Hr_in, Hwords, Hw.
    + intros w Hw. rewrite Hr_out; [apply lookup_empty|]. rewrite Hwords. exact Hw.
Qed.

(** ** Strings and [str] *)

Lemma length_append (s t : string) :
  String.length (s +:+ t) = (String.length s + String.length t)%nat.
Proof. induction s as [|c s IH]; [reflexivity|]. simpl. f_equal. exact IH. Qed.

Lemma append_inv_tail (s1 s2 t : string) : s1 +:+ t = s2 +:+ t -> s1 = s2.
Proof.
  revert s2. induction s1 as [|c s1 IH]; intros [|c' s2] H.
  - reflexivity.
  - apply (f_equal String.length) in H. rewrite !length_append in H. simpl in H. lia.
  - apply (f_equal String.length) in H. rewrite !length_append in H. simpl in H. lia.
  - simpl in H. injection H as -> H. f_equal. apply IH, H.
Qed.

Lemma to_uint_nonnil (n : nat) : Nat.to_uint n <> Decimal.Nil.
Proof.
  rewrite <- (DecimalNat.Unsigned.of_to n) at 1. rewrite DecimalNat.Unsigned.to_of.
  apply DecimalFacts.unorm_nonnil.
Qed.

Lemma str_inj (i j : nat) : str i = str j -> i = j.
Proof.
  unfold str. intros H. apply DecimalNat.Unsigned.to_uint_inj.
  apply (f_equal DecimalString.NilEmpty.uint_of_string) in H.
  rewrite !DecimalString.NilEmpty.usu in H. congruence.
Qed.

(** A decimal numeral does not start with the letter s. *)
Lemma str_not_second (j : nat) (s t : string) : str j +:+ s <> "second_" +:+ t.
Proof.
  unfold str. pose proof (to_uint_nonnil j) as Hn.
  destruct (Nat.to_uint j); [congruence| | | | | | | | | |]; cbn; discriminate.
Qed.

Lemma dump_path_inj (i j : nat) : str i +:+ "dump.json" = str j +:+ "dump.json" -> i = j.
Proof. intros H. apply str_inj, (append_inv_tail _ _ _ H). Qed.

(** ** Counters as documents *)

Lemma lookup_json_doc (c : odict) (w : string) : json_doc c !! w = dict_get c w.
Proof.
  unfold json_doc. induction c as [|[k v] c IH]; cbn [list_to_map foldr dict_get].
  - apply lookup_empty.
  - cbn [fst snd uncurry]. destruct (decide (k = w)) as [->|Hne].
    + apply lookup_insert_eq.
    + rewrite lookup_insert_ne by exact Hne. exact IH.
Qed.

Lemma get_json_doc (c : odict) (w : string) : get (json_doc c) w 0 = counter_getitem c w.
Proof. unfold get, counter_getitem. rewrite lookup_json_doc. reflexivity. Qed.

Lemma counts_json_doc (cs : list odict) (w : string) :
  counts (map json_doc cs) w = map (fun c => counter_getitem c w) cs.
Proof.
  unfold counts. rewrite map_map. apply map_ext. intros c. apply get_json_doc.
Qed.

Lemma py_sum_app (l1 l2 : list Z) : py_sum (l1 ++ l2) = py_sum l1 + py_sum l2.
Proof.
  induction l1 as [|v l1 IH]; [reflexivity|].
  cbn [app]. rewrite !py_sum_cons, IH. lia.
Qed.

Lemma occurrences_app (l1 l2 : list string) (w : string) :
  occurrences (l1 ++ l2) w = occurrences l1 w + occurrences l2 w.
Proof. unfold occurrences, len. rewrite filter_app, length_app. lia. Qed.

Lemma occurrences_all_zero (l : list string) : (forall w, occurrences l w = 0) -> l = [].
Proof.
  destruct l as [|w l]; [reflexivity|]. intros H. specialize (H w).
  rewrite occurrences_cons, decide_True in H by reflexivity.
  pose proof (occurrences_nonneg l w). lia.
Qed.

(** ** The aggregation of the scraped threads *)

Section DatasetProofs.

Variable split : string -> list string.
Variable clean : string -> string.
Variable scrape_for_posts : string -> result (list string).
Variable scrape_for_content : nat -> string -> result (list string * list string).
Variable generate_content : nat -> string -> result (option string).

Lemma words_loop_spec (words : list (list string)) :
  forall (total_contents : list string) (reply_contents : list odict),
  words_loop words total_contents reply_contents
  = (total_contents ++ concat words, reply_contents ++ map Counter words).
Proof.
  induction words as [|sublist words IH]; intros tc rc; cbn [words_loop concat map].
  - rewrite !app_nil_r. reflexivity.
  - rewrite IH, <- !app_assoc. reflexivity.
Qed.

Lemma scrape_inv_words (total_ops : csv) (op_content : list string)
    (words : list (list string)) (total_contents : list string)
    (reply_contents : list odict) :
  op_content <> [] -> words <> [] ->
  scrape_inv total_ops total_contents reply_contents ->
  scrape_inv (total_ops ++ [op_content]) (total_contents ++ concat words)
             (reply_contents ++ map Counter words).
Proof.
  intros Hop Hwords (Hsum & Hlen & _ & Hne). split; [|split; [|split]].
  - intros w. rewrite map_app, py_sum_app, occurrences_app, Hsum. f_equal.
    clear Hwords. induction words as [|sublist words IH]; [reflexivity|].
    cbn [map concat]. rewrite py_sum_cons, occurrences_app, IH, Counter_getitem.
    reflexivity.
  - rewrite !length_app, length_map. cbn [length].
    destruct words; [congruence|]. cbn [length]. lia.
  - intros E. destruct total_ops; discriminate.
  - apply Forall_app. split; [exact Hne|]. constructor; [exact Hop|constructor].
Qed.

Lemma links_loop_inv (links : list string) :
  forall (call : nat) (total_ops : csv) (total_contents : list string)
         (reply_contents : list odict) (total_ops' : csv)
         (total_contents' : list string) (reply_contents' : list odict),
  links_loop split scrape_for_content links call total_ops total_contents reply_contents
  = Ok (total_ops', total_contents', reply_contents') ->
  scrape_inv total_ops total_contents reply_contents ->
  scrape_inv total_ops' total_contents' reply_contents'.
Proof.
  induction links as [|link links IH]; intros call ops tc rc ops' tc' rc' H Hinv.
  - cbn in H. injection H as <- <- <-. exact Hinv.
  - cbn [links_loop] in H.
    destruct (scrape_for_content call link) as [[op_content thread_content]|e];
      [|discriminate].
    rewrite result_bind_Ok in H.
    destruct (bool_decide (op_content = []) || bool_decide (thread_content = [])) eqn:E.
    + exact (IH _ _ _ _ _ _ _ H Hinv).
    + apply orb_false_iff in E as [E1 E2].
      apply bool_decide_eq_false in E1, E2.
      rewrite words_loop_spec in H. apply (IH _ _ _ _ _ _ _ H).
      apply scrape_inv_words; [exact E1| |exact Hinv].
      destruct thread_content; [congruence|discriminate].
Qed.

Lemma combined_scrape_inv (fs fs' : gmap string csv)
    (url contents_filename op_filename : string) (reply_contents : list odict) :
  combined_scrape split scrape_for_posts scrape_for_content fs url contents_filename
    op_filename = Ok (reply_contents, fs') ->
  exists (total_ops : csv) (total_contents : list string),
    fs' = write_rows (write_rows fs contents_filename [total_contents])
                     op_filename total_ops
    /\ scrape_inv total_ops total_contents reply_contents.
Proof.
  unfold combined_scrape. intros H.
  destruct (scrape_for_posts url) as [links|e]; [|discriminate].
  rewrite result_bind_Ok in H.
  destruct (links_loop split scrape_for_content links 0 [] [] [])
    as [[[total_ops total_contents] rc]|e] eqn:E; [|discriminate].
  rewrite result_bind_Ok in H. injection H as <- <-.
  exists total_ops, total_contents. split; [reflexivity|].
  apply (links_loop_inv _ _ _ _ _ _ _ _ E).
  split; [intros w; reflexivity|]. split; [reflexivity|]. split; [reflexivity|constructor].
Qed.

(** ** The generated responses *)

Lemma topics_loop_length (game_title : string) (topics : csv) :
  forall (call : nat) (all_responses all_responses' : list string),
  topics_loop generate_content game_title topics call all_responses = Ok all_responses' ->
  length all_responses' = (length all_responses + length topics)%nat
  /\ Forall (fun topic : list string => (2 <= length topic)%nat) topics.
Proof.
  induction topics as [|topic topics IH]; intros call all all' H.
  - cbn in H. injection H as <-. split; [cbn; lia|constructor].
  - cbn [topics_loop] in H.
    destruct (generate_llm_response generate_content call game_title topic)
      as [response|e] eqn:E; [|discriminate].
    rewrite result_bind_Ok in H. apply IH in H as [Hlen Hall].
    rewrite length_app in Hlen. cbn [length] in *. split; [lia|].
    constructor; [|exact Hall].
    destruct topic as [|t0 [|t1 topic]]; [discriminate|discriminate|cbn; lia].
Qed.

Lemma generate_all_responses_inv (fs fs' : gmap string csv)
    (game_title old_csv_path new_csv_path : string) (responses : list odict) :
  generate_all_responses split clean generate_content fs game_title old_csv_path
    new_csv_path = Ok (responses, fs') ->
  exists (topics : csv) (row : list string),
    fs !! old_csv_path = Some topics
    /\ length responses = length topics
    /\ Forall (fun topic : list string => (2 <= length topic)%nat) topics
    /\ fs' = write_rows fs new_csv_path [row].
Proof.
  unfold generate_all_responses, read_from_csv, open_csv. intros H.
  destruct (fs !! old_csv_path) as [topics|]; [|discriminate].
  rewrite result_bind_Ok in H.
  destruct (topics_loop generate_content game_title topics 0 []) as [all|e] eqn:E;
    [|discriminate].
  rewrite result_bind_Ok in H. injection H as <- <-.
  apply topics_loop_length in E as [Hlen Hall].
  eexists topics, _. split; [reflexivity|]. split; [rewrite length_map; exact Hlen|].
  split; [exact Hall|reflexivity].
Qed.

End DatasetProofs.

(** ** The dumps *)

Lemma dump_loop_spec (posts llm_responses : list doc) (words_to_check : list odict) :
  forall (index : nat) (st : state) (paths : list string),
  let new := map (fun i => str i +:+ "dump.json") (seq index (length words_to_check)) in
  exists st' : state,
    dump_loop posts llm_responses index words_to_check st paths = (paths ++ new, st')
    /\ heap st' = heap st
    /\ (forall p : string, p ∉ new -> files st' !! p = files st !! p)
    /\ Forall2 (fun p d => files st' !! p
                           = Some (Dump posts llm_responses (WordsDict d)))
               new words_to_check.
Proof.
  induction words_to_check as [|d ds IH]; intros index st paths new.
  - exists st. subst new. cbn. rewrite app_nil_r. repeat split. constructor.
  - cbn [dump_loop].
    set (path := str index +:+ "dump.json").
    set (st1 := State _ _).
    destruct (IH (S index) st1 (paths ++ [path])) as (st' & Hrun & Hheap & Hother & HF).
    exists st'. subst new. cbn [length seq map]. fold path.
    rewrite Hrun, <- app_assoc. split; [reflexivity|]. split; [exact Hheap|].
    assert (Hfresh : path ∉ map (fun i => str i +:+ "dump.json") (seq (S index) (length ds))).
    { intros Hin. apply list_elem_of_fmap in Hin as (j & Hj & Hin).
      apply dump_path_inj in Hj. subst j. apply elem_of_seq in Hin. lia. }
    split; [|constructor; [|exact HF]].
    + intros p Hp. rewrite not_elem_of_cons in Hp. destruct Hp as [Hne Hp].
      rewrite (Hother p Hp). unfold st1. cbn [files]. apply lookup_insert_ne. congruence.
    + rewrite (Hother path Hfresh). unfold st1. cbn [files]. apply lookup_insert_eq.
Qed.

Section SelectorLoop.

Variable detect : string -> result string.
Variable set_order : list string -> list string.

Lemma selector_loop_spec (fs : gmap string csv) (num_common_word_intervals : Z)
    (contents_filename new_csv_path : string) (trials : list Z) :
  forall (words_to_check words_to_check' : list odict),
  selector_loop detect set_order fs num_common_word_intervals contents_filename
    new_csv_path trials words_to_check = Ok words_to_check' ->
  exists new : list odict,
    words_to_check' = words_to_check ++ new
    /\ Forall2 (fun i d =>
                  make_y_most_common_word_dicts detect set_order fs NUM_COMMON_WORDS
                    (NUM_MOST_ENGLISH_WORDS + i * num_common_word_intervals)
                    contents_filename new_csv_path = Ok d)
               trials new.
Proof.
  induction trials as [|i trials IH]; intros acc acc' H.
  - cbn in H. injection H as <-. exists []. rewrite app_nil_r. split; [reflexivity|constructor].
  - cbn [selector_loop] in H.
    destruct (make_y_most_common_word_dicts detect set_order fs NUM_COMMON_WORDS _ _ _)
      as [d|e] eqn:E; [|discriminate].
    rewrite result_bind_Ok in H. apply IH in H as (new & -> & HF).
    exists (d :: new). rewrite <- app_assoc. split; [reflexivity|].
    constructor; [exact E|exact HF].
Qed.

End SelectorLoop.

(** The combined mapping of trials whose results are as [run_trials_loop_any]
    gives them. *)
Lemma combine_trials (posts llm_responses : list doc) (wds : list odict)
    (new : list p_values) :
  Forall2 (fun wd r =>
             (forall w, w ∈ keys wd ->
                exists v, r !! w = Some v /\ tested posts llm_responses w v)
             /\ (forall w, w ∉ keys wd -> r !! w = None))
          wds new ->
  (forall w : string,
      is_Some (combine new !! w) <-> exists wd, wd ∈ wds /\ w ∈ keys wd)
  /\ (forall (w : string) (v : list float),
        combine new !! w = Some v ->
        tested posts llm_responses w v /\ exists wd, wd ∈ wds /\ w ∈ keys wd).
Proof.
  intros Hnew.
  assert (Hsome : forall w v, combine new !! w = Some v ->
                    tested posts llm_responses w v /\ exists wd, wd ∈ wds /\ w ∈ keys wd).
  { intros w v Hv'. apply combine_lookup_Some in Hv' as (r & Hr & Hrw).
    apply list_elem_of_lookup in Hr as [i Hi].
    destruct (Forall2_lookup_r _ _ _ _ _ Hnew Hi) as (wd & Hwd & Hin & Hout).
    destruct (decide (w ∈ keys wd)) as [Hk|Hk].
    - destruct (Hin w Hk) as (v' & Hrw' & Ht). split; [congruence|].
      exists wd. split; [eapply list_elem_of_lookup_2, Hwd|exact Hk].
    - rewrite (Hout w Hk) in Hrw. discriminate. }
  split; [|exact Hsome].
  intros w. split.
  - intros [v Hv']. apply (Hsome w v Hv').
  - intros (wd & Hwd & Hk). apply list_elem_of_lookup in Hwd as [i Hi].
    destruct (Forall2_lookup_l _ _ _ _ _ Hnew Hi) as (r & Hr & Hin & _).
    destruct (Hin w Hk) as (v & Hrw & _).
    destruct (combine new !! w) as [v'|] eqn:E; [eexists; reflexivity|].
    rewrite combine_lookup_None in E.
    rewrite (E r (list_elem_of_lookup_2 _ _ _ Hr)) in Hrw. discriminate.
Qed.

(** ** [write_all_relevant_data] *)

Section WriteProofs.

Variable split : string -> list string.
Variable clean : string -> string.
Variable scrape_for_posts : string -> result (list string).
Variable scrape_for_content : nat -> string -> result (list string * list string).
Variable generate_content : nat -> string -> result (option string).
Variable detect : string -> result string.
Variable set_order : list string -> list string.

Lemma write_all_relevant_data_inv (num_common_word_intervals num_common_word_trials : Z)
    (url game_title contents_filename op_filename new_csv_path : string)
    (fs fs' : gmap string csv) (st st' : state) (paths : list string) :
  write_all_relevant_data split clean scrape_for_posts scrape_for_content generate_content
    detect set_order num_common_word_intervals num_common_word_trials url game_title
    contents_filename op_filename new_csv_path fs st = Ok (paths, fs', st') ->
  exists (posts llm_responses : list odict) (total_ops : csv)
         (total_contents row : list string) (words_to_check : list odict),
    scrape_inv total_ops total_contents posts
    /\ fs' = write_rows (write_rows (write_rows fs contents_filename [total_contents])
                                    op_filename total_ops)
                        new_csv_path [row]
    /\ length llm_responses = length total_ops
    /\ Forall2 (fun i d =>
                  make_y_most_common_word_dicts detect set_order fs' NUM_COMMON_WORDS
                    (NUM_MOST_ENGLISH_WORDS + i * num_common_word_intervals)
                    contents_filename new_csv_path = Ok d)
               (range num_common_word_trials) words_to_check
    /\ dump_loop (map json_doc posts) (map json_doc llm_responses) 0 words_to_check st []
       = (paths, st').
Proof.
  unfold write_all_relevant_data. intros H.
  destruct (combined_scrape split scrape_for_posts scrape_for_content fs url
              contents_filename op_filename) as [[posts fs1]|e] eqn:Es; [|discriminate].
  rewrite result_bind_Ok in H.
  destruct (generate_all_responses split clean generate_content fs1 game_title op_filename
              new_csv_path) as [[llm fs2]|e] eqn:Eg; [|discriminate].
  rewrite result_bind_Ok in H.
  destruct (selector_loop detect set_order fs2 num_common_word_intervals contents_filename
              new_csv_path (range num_common_word_trials) []) as [wds|e] eqn:El;
    [|discriminate].
  rewrite result_bind_Ok in H.
  destruct (dump_loop (map json_doc posts) (map json_doc llm) 0 wds st []) as [ps st2] eqn:Ed.
  injection H as <- <- <-.
  apply combined_scrape_inv in Es as (total_ops & tc & -> & Hinv).
  apply generate_all_responses_inv in Eg as (topics & row & Htopics & Hlen & _ & ->).
  unfold write_rows in Htopics at 1. rewrite lookup_insert_eq in Htopics.
  injection Htopics as <-.
  apply selector_loop_spec in El as (new & -> & HF).
  exists posts, llm, total_ops, tc, row, new. auto.
Qed.

End WriteProofs.

(** The words of a selection occur in the community tokens. *)
Lemma selector_keys_occur (detect : string -> result string)
    (set_order : list string -> list string)
    (set_order_perm : forall l : list string, set_order l ≡ₚ l)
    (fs : gmap string csv) (y x : Z) (discussion_csv llm_csv : string)
    (discussion_row : list string) (res : odict) (w : string) :
  dataset_to_list fs discussion_csv = Ok (Some discussion_row) ->
  make_y_most_common_word_dicts detect set_order fs y x discussion_csv llm_csv = Ok res ->
  w ∈ keys res -> 1 <= occurrences discussion_row w.
Proof.
  intros Hd H Hw.
  apply (make_y_most_common_word_dicts_inv _ _ set_order_perm) in H
    as (exclude & drow & lrow & _ & Hd' & _ & ->).
  rewrite Hd in Hd'. injection Hd' as <-.
  unfold keys in Hw. apply list_elem_of_fmap in Hw as ([w' c] & -> & Hin).
  apply (selected_elem _ _ set_order_perm) in Hin as [Hs _].
  apply elem_survivors in Hs as (Hin & _). apply occurrences_pos, Hin.
Qed.

(** * Further properties *)

(** ** The permutation test, continued *)

(** X1.  On two non-empty corpora and a valid tape the test always halts,
    whatever the counts: either it returns after exactly 10000 * (n + m)
    draws, or a mean is too large for a float and it raises [OverflowError]
    after at most that many draws.  The list indexing never raises
    [IndexError], [randint] never raises [ValueError], and every draw is
    requested on the range [0 .. n+m-1]. *)
Theorem calculate_p_value_halts (posts llm_responses : list doc) (word : string)
    (tape : nat -> Z) (pos : nat) :
  let n := length posts in
  let m := length llm_responses in
  (1 <= n)%nat -> (1 <= m)%nat -> valid_tape tape (Z.of_nat (n + m)) ->
  exists (o : outcome (list float)) (requests : list (Z * Z)),
    run (calculate_p_value posts llm_responses word) tape pos = Some (o, requests)
    /\ Forall (fun request => request = (0, Z.of_nat (n + m) - 1)) requests
    /\ (length requests <= Z.to_nat 10000 * (n + m))%nat
    /\ ((exists r, o = Returned r /\ length requests = (Z.to_nat 10000 * (n + m))%nat)
        \/ o = Raised "OverflowError").
Proof.
  intros n m Hn Hm Hv.
  destruct (run_calculate_p_value_any posts llm_responses word tape pos Hn Hm Hv)
    as (o & k & Hrun & Ho).
  exists o, (repeat (0, Z.of_nat (n + m) - 1) k). split; [exact Hrun|].
  split; [apply Forall_forall; intros x Hx; apply list_elem_of_In in Hx;
          apply repeat_spec in Hx; exact Hx|].
  rewrite repeat_length. destruct o as [r|e].
  - destruct Ho as [-> _]. split; [lia|]. left. exists r. split; reflexivity.
  - destruct Ho as [-> Hk]. split; [exact Hk|]. right. reflexivity.
Qed.

Lemma calculate_p_value_halts_witness :
  exists (o : outcome (list float)) (requests : list (Z * Z)),
    run (calculate_p_value example_posts example_llm_responses "x") (fun _ => 0) 7
    = Some (o, requests)
    /\ (length requests <= Z.to_nat 10000 * (3 + 3))%nat.
Proof.
  destruct (calculate_p_value_halts example_posts example_llm_responses "x" (fun _ => 0) 7
              ltac:(simpl; lia) ltac:(simpl; lia) ltac:(intros i; simpl; lia))
    as (o & requests & H1 & _ & H3 & _).
  exists o, requests. split; [exact H1|exact H3].
Defined.

(** X2.  Whatever the test returns is a pair [[observed, p]] where [observed]
    is the observed statistic, a float [>= 0.0] (never a NaN), and [p] is a
    float with [0.0 <= p <= 1.0]. *)
Theorem calculate_p_value_result_ranges (posts llm_responses : list doc) (word : string)
    (tape : nat -> Z) (pos : nat) (r : list float) (requests : list (Z * Z)) :
  (1 <= length posts)%nat -> (1 <= length llm_responses)%nat ->
  valid_tape tape (Z.of_nat (length posts + length llm_responses)) ->
  run (calculate_p_value posts llm_responses word) tape pos = Some (Returned r, requests) ->
  exists observed p : float,
    r = [observed; p]
    /\ observed_diff_of (counts posts word) (counts llm_responses word) = Ok observed
    /\ float_ge observed float_zero = true
    /\ float_ge p float_zero = true
    /\ float_ge float_one p = true.
Proof.
  intros Hn Hm Hv Hrun.
  destruct (run_calculate_p_value_any posts llm_responses word tape pos Hn Hm Hv)
    as (o & k & Hrun' & Ho).
  rewrite Hrun in Hrun'. injection Hrun' as <- _.
  destruct Ho as (_ & s & p & -> & Hs & H1 & H2 & H3).
  exists s, p. repeat split; assumption.
Qed.

Lemma calculate_p_value_result_ranges_witness :
  exists observed p : float,
    float_ge observed float_zero = true
    /\ float_ge p float_zero = true
    /\ float_ge float_one p = true.
Proof.
  destruct (run_calculate_p_value example_posts example_llm_responses "x" (fun _ => 0)
              ltac:(simpl; lia) ltac:(simpl; lia) example_bounded
              ltac:(intros i; simpl; lia)) as [Hrun _].
  destruct (calculate_p_value_result_ranges example_posts example_llm_responses "x"
              (fun _ => 0) 0 _ _
              ltac:(simpl; lia) ltac:(simpl; lia) ltac:(intros i; simpl; lia) Hrun)
    as (observed & p & _ & _ & H1 & H2 & H3).
  exists observed, p. repeat split; assumption.
Defined.

(** X3.  The two source files agree: on every tape, the test of
    [determine_p_values.py] consumes the same draws as the test of [main.py]
    and returns its second component, or raises the same exception. *)
Theorem determine_p_values_agrees_with_main (posts llm_responses : list doc)
    (word : string) (tape : nat -> Z) (pos : nat) :
  run (determine_p_values.calculate_p_value posts llm_responses word) tape pos
  = match run (calculate_p_value posts llm_responses word) tape pos with
    | Some (Returned r, requests) =>
        match r with
        | [_; p] => Some (Returned p, requests)
        | _ => None
        end
    | Some (Raised e, requests) => Some (Raised e, requests)
    | None => None
    end.
Proof.
  unfold calculate_p_value, determine_p_values.calculate_p_value.
  destruct (observed_diff_of _ _) as [s|e]; [|reflexivity].
  cbn [lift]. rewrite !bind_Ret, !run_bind.
  destruct (run (resample_loop _ _ _ _ s 0) tape pos) as [[[c|e] reqs]|]; try reflexivity.
  rewrite bind_Ret. destruct (truediv c ROUNDS) as [p|e]; reflexivity.
Qed.

(** X4.  The observed statistic depends only on the two multisets of
    per-document counts: reordering the documents of either corpus does not
    change it (nor the exception, if it fails); and when it is computed,
    exchanging the two corpora gives the same float. *)
Theorem observed_statistic_order_and_symmetry (posts posts' llm_responses llm_responses'
    : list doc) (word : string) :
  Permutation posts posts' -> Permutation llm_responses llm_responses' ->
  observed_diff_of (counts posts word) (counts llm_responses word)
  = observed_diff_of (counts posts' word) (counts llm_responses' word)
  /\ forall s : float,
       observed_diff_of (counts posts word) (counts llm_responses word) = Ok s ->
       observed_diff_of (counts llm_responses' word) (counts posts' word) = Ok s.
Proof.
  intros Hp Hl.
  pose proof (observed_diff_of_Permutation _ _ _ _
                (counts_Permutation _ _ word Hp) (counts_Permutation _ _ word Hl)) as H.
  split; [exact H|]. intros s Hs. apply observed_diff_of_comm. rewrite <- H. exact Hs.
Qed.

Lemma observed_statistic_order_and_symmetry_witness :
  observed_diff_of (counts example_llm_responses "x") (counts (reverse example_posts) "x")
  = Ok float_one.
Proof.
  apply (observed_statistic_order_and_symmetry
           example_posts (reverse example_posts)
           example_llm_responses example_llm_responses "x"
           (Permutation_rev example_posts) (Permutation_refl _)).
  reflexivity.
Defined.

(** X5.  A word that occurs in no document of either corpus is tested
    without error, whatever the sizes [n, m >= 1] of the corpora: the observed
    difference is [+0.0] and the p-value is exactly [1.0]. *)
Theorem absent_word_p_value_one (posts llm_responses : list doc) (word : string)
    (tape : nat -> Z) :
  let n := length posts in
  let m := length llm_responses in
  (1 <= n)%nat -> (1 <= m)%nat ->
  (forall d : doc, d ∈ posts ++ llm_responses -> d !! word = None) ->
  valid_tape tape (Z.of_nat (n + m)) ->
  run (calculate_p_value posts llm_responses word) tape 0
  = Some (Returned [float_zero; float_one],
          repeat (0, Z.of_nat (n + m) - 1) (Z.to_nat 10000 * (n + m))).
Proof.
  intros n m Hn Hm Habsent Hv.
  assert (Hz : forall corpus : list doc,
             (forall d, d ∈ corpus -> d ∈ posts ++ llm_responses) ->
             Forall (fun v => v = 0) (counts corpus word)).
  { intros corpus Hsub. apply Forall_forall. intros v Hin.
    apply list_elem_of_In, in_map_iff in Hin as (d & <- & Hd).
    unfold get. rewrite (Habsent d); [reflexivity|]. apply Hsub, list_elem_of_In, Hd. }
  pose proof (Hz posts ltac:(intros d Hd; apply elem_of_app; left; exact Hd)) as Hzp.
  pose proof (Hz llm_responses ltac:(intros d Hd; apply elem_of_app; right; exact Hd)) as Hzl.
  set (pool := counts posts word ++ counts llm_responses word).
  assert (Hb : bounded_counts pool).
  { apply bounded_counts_app. split; apply bounded_counts_zeros; assumption. }
  assert (Hobs : spec_diff (counts posts word) (counts llm_responses word) = float_zero).
  { unfold spec_diff. rewrite !spec_mean_zeros by (assumption || nonempty). reflexivity. }
  destruct (run_calculate_p_value posts llm_responses word tape Hn Hm Hb Hv) as [H _].
  fold n m pool in H. rewrite Hobs in H.
  rewrite (spec_counter_all_hits pool tape n m float_zero (Z.to_nat ROUNDS)) in H
    by (intros i; apply round_hit_zero; [exact Hb|lia|lia]).
  exact H.
Qed.

Lemma absent_word_p_value_one_witness :
  exists requests : list (Z * Z),
    run (calculate_p_value example_posts [ ∅ ] "hike") (fun _ => 0) 0
    = Some (Returned [float_zero; float_one], requests).
Proof.
  eexists.
  apply (absent_word_p_value_one example_posts [ ∅ ] "hike" (fun _ => 0)).
  - simpl. lia.
  - simpl. lia.
  - intros d Hd. unfold example_posts in Hd.
    repeat (apply elem_of_cons in Hd as [->|Hd]; [vm_compute; reflexivity|]).
    apply elem_of_nil in Hd. contradiction.
  - intros i. simpl. lia.
Defined.

(** X6.  [x_most_common_words x] reads the first column of the first [x]
    rows of [unigram_freq.csv], in order: of all rows when the file has fewer
    than [x], of none when [x <= 0].  A row after the first [x] is never
    looked at; a blank row among the first [x] raises [IndexError]. *)
Theorem x_most_common_words_first_column (fs : gmap string csv) (x : Z) (rows : csv) :
  fs !! "unigram_freq.csv" = Some rows ->
  let first := take (Z.to_nat x) rows in
  (Forall (fun row => row <> []) first ->
   x_most_common_words fs x = Ok (map (hd "") first)
   /\ length (map (hd "") first) = Nat.min (Z.to_nat x) (length rows))
  /\ (Exists (fun row => row = []) first ->
      x_most_common_words fs x = Err "IndexError").
Proof.
  intros Hf first. unfold x_most_common_words, open_csv. rewrite Hf, result_bind_Ok.
  pose proof (x_most_common_loop_spec x rows 0 []) as [H1 H2].
  rewrite Z.sub_0_r in H1, H2. fold first in H1, H2. split.
  - intros H. split; [exact (H1 H)|].
    unfold first. rewrite length_map, length_take. reflexivity.
  - exact H2.
Qed.

Lemma x_most_common_words_first_column_witness :
  x_most_common_words example_fs 2 = Ok ["the"; "of"]
  /\ x_most_common_words (<["unigram_freq.csv" := [["the"]; []; ["of"]]]> example_fs) 1
     = Ok ["the"]
  /\ x_most_common_words (<["unigram_freq.csv" := [["the"]; []; ["of"]]]> example_fs) 2
     = Err "IndexError".
Proof.
  split; [|split].
  - refine (proj1 (proj1 (x_most_common_words_first_column example_fs 2 _ eq_refl) _)).
    vm_compute. repeat constructor; discriminate.
  - refine (proj1 (proj1 (x_most_common_words_first_column
                            (<["unigram_freq.csv" := [["the"]; []; ["of"]]]> example_fs) 1
                            [["the"]; []; ["of"]] eq_refl) _)).
    vm_compute. repeat constructor; discriminate.
  - refine (proj2 (x_most_common_words_first_column
                     (<["unigram_freq.csv" := [["the"]; []; ["of"]]]> example_fs) 2
                     [["the"]; []; ["of"]] eq_refl) _).
    vm_compute. right. left. reflexivity.
Defined.

(** X7.  The reference lists are nested: when the list of the [x'] most
    common words can be read, so can the list for every [x <= x'], and it is
    the first [x] entries of the longer one. *)
Theorem x_most_common_words_nested (fs : gmap string csv) (x x' : Z)
    (common' : list string) :
  x <= x' -> x_most_common_words fs x' = Ok common' ->
  x_most_common_words fs x = Ok (take (Z.to_nat x) common').
Proof.
  intros Hx H'.
  destruct (x_most_common_words_cases fs x') as [(rows & Hf & Hok & Hall)|[He|He]];
    [|congruence|congruence].
  rewrite Hok in H'. injection H' as <-.
  unfold x_most_common_words, open_csv. rewrite Hf, result_bind_Ok.
  pose proof (x_most_common_loop_spec x rows 0 []) as [H1 _].
  rewrite Z.sub_0_r in H1. cbn [app] in H1.
  rewrite <- (take_take_le (Z.to_nat x) (Z.to_nat x') rows) in H1 by lia.
  rewrite H1 by (apply Forall_take; exact Hall).
  rewrite <- fmap_take. reflexivity.
Qed.

Lemma x_most_common_words_nested_witness :
  x_most_common_words example_fs 1 = Ok ["the"].
Proof.
  apply (x_most_common_words_nested example_fs 1 3 ["the"; "of"; "and"]).
  - lia.
  - reflexivity.
Defined.

Section SelectorExtras.

Variable detect : string -> result string.
Variable set_order : list string -> list string.
Hypothesis set_order_perm : forall l : list string, set_order l ≡ₚ l.

(** X8.  The selector returns its words by decreasing community count, and
    the cut after [y] entries drops only words that occur no more often than
    each word kept: a surviving word that is not returned has a community
    count at most that of every returned word, and then exactly [y] words
    are returned. *)
Theorem selector_ranked (fs : gmap string csv) (y x : Z)
    (discussion_csv llm_csv : string) (exclude discussion_row llm_row : list string)
    (res : odict) :
  x_most_common_words fs x = Ok exclude ->
  dataset_to_list fs discussion_csv = Ok (Some discussion_row) ->
  dataset_to_list fs llm_csv = Ok (Some llm_row) ->
  make_y_most_common_word_dicts detect set_order fs y x discussion_csv llm_csv = Ok res ->
  Sorted.StronglySorted count_desc res
  /\ forall w : string,
       w ∈ survivors detect exclude discussion_row llm_row -> w ∉ keys res ->
       length res = Z.to_nat y
       /\ forall (k : string) (v : Z), (k, v) ∈ res -> occurrences discussion_row w <= v.
Proof.
  intros Hx Hd Hl H.
  rewrite (make_y_most_common_word_dicts_ok _ _ set_order_perm _ y x _ _ _ _ _ Hx Hd Hl) in H.
  injection H as <-.
  destruct (selected_ranking detect set_order set_order_perm exclude discussion_row llm_row)
    as (full & Hsel & Hsorted & Hnd & Hfull).
  rewrite Hsel. split; [apply take_sorted, Hsorted|].
  intros w Hw Hnot.
  assert (Hin : (w, occurrences discussion_row w) ∈ full) by (apply Hfull; auto).
  rewrite <- (take_drop (Z.to_nat y) full) in Hin, Hsorted.
  apply elem_of_app in Hin as [Hin|Hin].
  { exfalso. apply Hnot. unfold keys. apply list_elem_of_fmap.
    exists (w, occurrences discussion_row w). split; [reflexivity|exact Hin]. }
  split.
  - rewrite length_take. destruct (Nat.le_gt_cases (length full) (Z.to_nat y)) as [Hle|Hgt];
      [|lia].
    rewrite drop_ge in Hin by exact Hle. inversion Hin.
  - intros k v Hk.
    exact (sorting.StronglySorted_app_1_elem_of _ _ _ _ _ Hsorted Hk Hin).
Qed.


(** X10.  The only exceptions that leave the selector are
    [FileNotFoundError] (one of the three files is missing), [IndexError] (a
    blank row among the first [x] of the reference file) and [TypeError] (a
    token file without rows).  In particular the lookups
    [discussion_dict[key]] on the plain dict never raise [KeyError], and no
    exception of the detector escapes. *)
Theorem selector_exceptions (fs : gmap string csv) (y x : Z)
    (discussion_csv llm_csv : string) (e : exn) :
  make_y_most_common_word_dicts detect set_order fs y x discussion_csv llm_csv = Err e ->
  (e = "FileNotFoundError"
   /\ (fs !! "unigram_freq.csv" = None \/ fs !! discussion_csv = None
       \/ fs !! llm_csv = None))
  \/ (e = "IndexError"
      /\ exists rows, fs !! "unigram_freq.csv" = Some rows
                      /\ Exists (fun row => row = []) (take (Z.to_nat x) rows))
  \/ (e = "TypeError"
      /\ (fs !! discussion_csv = Some [] \/ fs !! llm_csv = Some [])).
Proof.
  intros H.
  destruct (x_most_common_words fs x) as [exclude|e'] eqn:Hx.
  2:{ unfold make_y_most_common_word_dicts in H. rewrite Hx in H.
      injection H as <-.
      destruct (fs !! "unigram_freq.csv") as [rows|] eqn:Hf.
      - right. left.
        destruct (x_most_common_words_cases fs x) as [(rows' & _ & Hok & _)|[He|He]];
          [congruence| |].
        + split; [congruence|]. exists rows. split; [reflexivity|].
          destruct (Forall_or_Exists_empty (take (Z.to_nat x) rows)) as [Hall|Hex];
            [|exact Hex].
          pose proof (x_most_common_loop_spec x rows 0 []) as [H1 _].
          rewrite Z.sub_0_r in H1. specialize (H1 Hall).
          unfold x_most_common_words, open_csv in Hx.
          rewrite Hf, result_bind_Ok, H1 in Hx. discriminate.
        + unfold x_most_common_words, open_csv in He.
          rewrite Hf, result_bind_Ok in He.
          pose proof (x_most_common_loop_spec x rows 0 []) as [H1 H2].
          rewrite Z.sub_0_r in H1, H2.
          destruct (Forall_or_Exists_empty (take (Z.to_nat x) rows)) as [Hall|Hex].
          * rewrite (H1 Hall) in He. discriminate.
          * rewrite (H2 Hex) in He. discriminate.
      - left. unfold x_most_common_words, open_csv in Hx. rewrite Hf in Hx.
        injection Hx as <-. auto. }
  pose proof (dataset_to_list_cases fs discussion_csv) as Hd.
  pose proof (dataset_to_list_cases fs llm_csv) as Hl.
  destruct (fs !! discussion_csv) as [[|drow drest]|] eqn:Ed.
  - destruct (fs !! llm_csv) as [lrows|] eqn:El.
    + right. right. unfold make_y_most_common_word_dicts in H.
      rewrite Hx, Hd, Hl in H. destruct lrows; injection H as <-; auto.
    + left. unfold make_y_most_common_word_dicts in H.
      rewrite Hx, Hd, Hl in H. injection H as <-. auto.
  - destruct (fs !! llm_csv) as [[|lrow lrest]|] eqn:El.
    + right. right. unfold make_y_most_common_word_dicts in H.
      rewrite Hx, Hd, Hl in H. injection H as <-. auto.
    + rewrite (make_y_most_common_word_dicts_ok _ _ set_order_perm _ y x _ _ _ _ _ Hx Hd Hl)
        in H. discriminate.
    + left. unfold make_y_most_common_word_dicts in H.
      rewrite Hx, Hd, Hl in H. injection H as <-. auto.
  - left. unfold make_y_most_common_word_dicts in H.
    rewrite Hx, Hd in H. injection H as <-. auto.
Qed.

End SelectorExtras.

Lemma selector_ranked_witness :
  Sorted.StronglySorted count_desc [("hike", 2); ("a", 1)]
  /\ forall w : string,
       w ∈ survivors example_detect ["the"; "of"]
             ["the"; "hike"; "is"; "a"; "short"; "hike"; "it's"; "zzz"; "chat"; "of"]
             ["a"; "hike"; "the"; "short"; "zzz"; "it's"; "chat"] ->
       w ∉ keys [("hike", 2); ("a", 1)] ->
       length [("hike", 2); ("a", 1)] = Z.to_nat 2
       /\ forall (k : string) (v : Z), (k, v) ∈ [("hike", 2); ("a", 1)] ->
            occurrences ["the"; "hike"; "is"; "a"; "short"; "hike"; "it's"; "zzz";
                         "chat"; "of"] w <= v.
Proof.
  apply (selector_ranked example_detect example_set_order (fun l => Permutation_refl l)
           example_fs 2 2 "words.csv" "llm.csv").
  - reflexivity.
  - reflexivity.
  - reflexivity.
  - vm_compute. reflexivity.
Defined.


Lemma selector_exceptions_witness :
  ("TypeError" = "FileNotFoundError"
   /\ (example_fs !! "unigram_freq.csv" = None \/ example_fs !! "empty.csv" = None
       \/ example_fs !! "llm.csv" = None))
  \/ ("TypeError" = "IndexError"
      /\ exists rows, example_fs !! "unigram_freq.csv" = Some rows
                      /\ Exists (fun row => row = []) (take (Z.to_nat 2) rows))
  \/ ("TypeError" = "TypeError"
      /\ (example_fs !! "empty.csv" = Some [] \/ example_fs !! "llm.csv" = Some [])).
Proof.
  apply (selector_exceptions example_detect example_set_order (fun l => Permutation_refl l)
           example_fs 10 2 "empty.csv" "llm.csv" "TypeError").
  vm_compute. reflexivity.
Defined.

(** X11.  [format_posts] fails in two ways only: [FileNotFoundError] when
    the dump is missing, [AttributeError] when the third entry of the file is
    a list and not a dict.  The deletions never raise [KeyError].  It cannot
    be applied to its own output: after a successful call, the call on
    [second_<json_path>] raises [AttributeError]. *)
Theorem format_posts_exceptions (set_order : list string -> list string)
    (json_path : string) (st : state) :
  (forall e : exn,
      format_posts set_order json_path st = Err e ->
      (e = "FileNotFoundError" /\ files st !! json_path = None)
      \/ (e = "AttributeError"
          /\ exists (d : dump) (l : list string),
               files st !! json_path = Some d /\ dump_words d = WordsList l))
  /\ (forall st2 : state,
        format_posts set_order json_path st = Ok st2 ->
        format_posts set_order ("second_" +:+ json_path) st2 = Err "AttributeError").
Proof.
  rewrite (format_posts_cases set_order json_path st). split.
  - intros e H. destruct (files st !! json_path) as [d|] eqn:Hf.
    + destruct (dump_words d) as [wd|l] eqn:Hw; [discriminate|].
      injection H as <-. right. split; [reflexivity|]. exists d, l. auto.
    + injection H as <-. left. auto.
  - intros st2 H. destruct (files st !! json_path) as [d|] eqn:Hf; [|discriminate].
    destruct (dump_words d) as [wd|l] eqn:Hw; [|discriminate].
    injection H as <-. rewrite format_posts_cases. cbn [files].
    rewrite lookup_insert_eq. reflexivity.
Qed.

Lemma format_posts_exceptions_witness :
  format_posts example_set_order "1dump.json" example_state = Err "FileNotFoundError"
  /\ exists st2,
       format_posts example_set_order "0dump.json" example_state = Ok st2
       /\ format_posts example_set_order "second_0dump.json" st2 = Err "AttributeError".
Proof.
  split.
  - destruct (format_posts example_set_order "1dump.json" example_state) as [st2|e] eqn:E.
    + vm_compute in E. discriminate.
    + destruct (proj1 (format_posts_exceptions example_set_order "1dump.json" example_state)
                  e E) as [[-> _]|[_ (d & l & Hf & _)]]; [reflexivity|].
      vm_compute in Hf. discriminate.
  - destruct (format_posts example_set_order "0dump.json" example_state) as [st2|e] eqn:E.
    + exists st2. split; [reflexivity|].
      exact (proj2 (format_posts_exceptions example_set_order "0dump.json" example_state)
               st2 E).
    + vm_compute in E. discriminate.
Defined.

(** X12.  Filtering does not change a test: for each candidate word the
    filtered corpora written by [format_posts] have the same number of
    documents and the same per-document counts as the corpora of the dump,
    so that [calculate_p_value] is the same program on both; a word outside
    the candidate set has count 0 in every filtered document. *)
Theorem format_posts_preserves_tests (set_order : list string -> list string)
    (json_path : string) (st st2 : state) (d : dump) (wd : odict) :
  files st !! json_path = Some d -> dump_words d = WordsDict wd ->
  format_posts set_order json_path st = Ok st2 ->
  exists d2 : dump,
    files st2 !! ("second_" +:+ json_path) = Some d2
    /\ length (dump_posts d2) = length (dump_posts d)
    /\ length (dump_llm_responses d2) = length (dump_llm_responses d)
    /\ (forall w : string, w ∈ keys wd ->
          counts (dump_posts d2) w = counts (dump_posts d) w
          /\ counts (dump_llm_responses d2) w = counts (dump_llm_responses d) w
          /\ calculate_p_value (dump_posts d2) (dump_llm_responses d2) w
             = calculate_p_value (dump_posts d) (dump_llm_responses d) w)
    /\ (forall w : string, w ∉ keys wd ->
          Forall (fun v => v = 0)
                 (counts (dump_posts d2) w ++ counts (dump_llm_responses d2) w)).
Proof.
  intros Hf Hw H. rewrite format_posts_cases, Hf, Hw in H. injection H as <-.
  eexists. cbn [files]. rewrite lookup_insert_eq. split; [reflexivity|].
  cbn [dump_posts dump_llm_responses]. rewrite !length_map.
  split; [reflexivity|]. split; [reflexivity|]. split.
  - intros w Hin.
    assert (HW : w ∈ (list_to_set (keys wd) : gset string))
      by (apply elem_of_list_to_set, Hin).
    pose proof (counts_restrict_in _ (dump_posts d) w HW) as Hp.
    pose proof (counts_restrict_in _ (dump_llm_responses d) w HW) as Hl.
    split; [exact Hp|]. split; [exact Hl|]. apply calculate_p_value_counts; assumption.
  - intros w Hout.
    assert (HW : w ∉ (list_to_set (keys wd) : gset string))
      by (rewrite elem_of_list_to_set; exact Hout).
    apply Forall_app. split; apply counts_restrict_out, HW.
Qed.

Lemma format_posts_preserves_tests_witness :
  exists (st2 : state) (d2 : dump),
    format_posts example_set_order "0dump.json" example_state = Ok st2
    /\ files st2 !! "second_0dump.json" = Some d2
    /\ counts (dump_posts d2) "hike" = [2; 0]
    /\ Forall (fun v => v = 0)
              (counts (dump_posts d2) "the" ++ counts (dump_llm_responses d2) "the").
Proof.
  destruct (format_posts example_set_order "0dump.json" example_state) as [st2|e] eqn:E;
    [|vm_compute in E; discriminate].
  destruct (format_posts_preserves_tests example_set_order "0dump.json" example_state st2
              (Dump [ {[ "hike" := 2; "the" := 1 ]}; {[ "a" := 1 ]} ]
                    [ {[ "hike" := 1; "so" := 3 ]} ] (WordsDict [("hike", 2)]))
              [("hike", 2)] eq_refl eq_refl E)
    as (d2 & Hf & _ & _ & Hin & Hout).
  exists st2, d2. split; [reflexivity|]. split; [exact Hf|]. split.
  - destruct (Hin "hike" ltac:(vm_compute; left)) as [Hp _]. rewrite Hp. reflexivity.
  - apply Hout. vm_compute. intros Hc. inversion Hc as [|? ? ? Hc']; inversion Hc'.
Defined.

(** X13.  The written word list holds each candidate word once: the list in
    [second_<json_path>] has no duplicates and the same elements as the keys
    of the dict in the dump, in the iteration order of the set. *)
Theorem format_posts_word_list (set_order : list string -> list string)
    (json_path : string) (st st2 : state) (d : dump) (wd : odict) :
  (forall l : list string, set_order l ≡ₚ l) ->
  files st !! json_path = Some d -> dump_words d = WordsDict wd ->
  format_posts set_order json_path st = Ok st2 ->
  exists (d2 : dump) (words : list string),
    files st2 !! ("second_" +:+ json_path) = Some d2
    /\ dump_words d2 = WordsList words
    /\ NoDup words
    /\ (forall w : string, w ∈ words <-> w ∈ keys wd)
    /\ (length words <= length wd)%nat.
Proof.
  intros Hperm Hf Hw H. rewrite format_posts_cases, Hf, Hw in H. injection H as <-.
  eexists _, _. cbn [files]. rewrite lookup_insert_eq. split; [reflexivity|].
  cbn [dump_words]. split; [reflexivity|].
  assert (Helem : forall w, w ∈ set_order (elements (list_to_set (keys wd) : gset string))
                            <-> w ∈ keys wd).
  { intros w. rewrite (Hperm _), elem_of_elements. apply elem_of_list_to_set. }
  assert (Hnd : NoDup (set_order (elements (list_to_set (keys wd) : gset string)))).
  { rewrite (Hperm _). apply NoDup_elements. }
  split; [exact Hnd|]. split; [exact Helem|].
  replace (length wd) with (length (keys wd)) by (unfold keys; apply length_map).
  apply submseteq_length, NoDup_submseteq; [exact Hnd|]. intros w. apply Helem.
Qed.

Lemma format_posts_word_list_witness :
  exists (st2 : state) (d2 : dump),
    format_posts example_set_order "0dump.json" example_state = Ok st2
    /\ files st2 !! "second_0dump.json" = Some d2
    /\ dump_words d2 = WordsList ["hike"].
Proof.
  destruct (format_posts example_set_order "0dump.json" example_state) as [st2|e] eqn:E;
    [|vm_compute in E; discriminate].
  destruct (format_posts_word_list example_set_order "0dump.json" example_state st2
              (Dump [ {[ "hike" := 2; "the" := 1 ]}; {[ "a" := 1 ]} ]
                    [ {[ "hike" := 1; "so" := 3 ]} ] (WordsDict [("hike", 2)]))
              [("hike", 2)] (fun l => Permutation_refl l) eq_refl eq_refl E)
    as (d2 & words & Hf & Hw & Hnd & Helem & Hlen).
  exists st2, d2. split; [reflexivity|]. split; [exact Hf|]. rewrite Hw. f_equal.
  destruct words as [|w [|w' words]]; cbn in Hlen; [|f_equal|lia].
  - pose proof (proj2 (Helem "hike") ltac:(vm_compute; left)) as Hc. inversion Hc.
  - pose proof (proj1 (Helem w) ltac:(left)) as Hc. vm_compute in Hc.
    apply list_elem_of_singleton in Hc. exact Hc.
Defined.

(** X14.  [calculate_p_values] on a filtered dump with non-empty corpora,
    on every tape of valid indices: it either returns a mapping with exactly
    one entry per word of the list, each holding the observed statistic of
    that word and a p-value between [0.0] and [1.0], after
    [10000 * (n + m)] draws per listed word; or it raises [OverflowError].
    Every draw is [randint(0, n + m - 1)]. *)
Theorem calculate_p_values_total (json_path : string) (st : state) (d : dump)
    (tape : nat -> Z) (pos : nat) :
  let n := length (dump_posts d) in
  let m := length (dump_llm_responses d) in
  let words := words_iter (dump_words d) in
  files st !! ("second_" +:+ json_path) = Some d ->
  (1 <= n)%nat -> (1 <= m)%nat -> valid_tape tape (Z.of_nat (n + m)) ->
  exists (o : outcome p_values) (k : nat),
    run (calculate_p_values json_path st) tape pos
    = Some (o, repeat (0, Z.of_nat (n + m) - 1) k)
    /\ match o with
       | Returned final_p_values =>
           k = (length words * (Z.to_nat 10000 * (n + m)))%nat
           /\ (forall w : string, w ∈ words ->
                 exists r, final_p_values !! w = Some r
                           /\ tested (dump_posts d) (dump_llm_responses d) w r)
           /\ (forall w : string, w ∉ words -> final_p_values !! w = None)
       | Raised e =>
           e = "OverflowError" /\ (k <= length words * (Z.to_nat 10000 * (n + m)))%nat
       end.
Proof.
  intros n m words Hf Hn Hm Hv. unfold calculate_p_values. rewrite Hf.
  destruct (run_p_values_loop_any (dump_posts d) (dump_llm_responses d) tape Hn Hm Hv
              words ∅ pos) as (o & k & Hrun & Ho).
  exists o, k. split; [exact Hrun|].
  destruct o as [final'|e]; [|exact Ho].
  destruct Ho as (Hk & Hin & Hout). split; [exact Hk|]. split; [exact Hin|].
  intros w Hw. rewrite (Hout w Hw). apply lookup_empty.
Qed.

Lemma calculate_p_values_total_witness :
  exists (o : outcome p_values) (k : nat),
    run (calculate_p_values "dump.json"
           example_filtered_state)
        (fun _ => 0) 0
    = Some (o, repeat (0, Z.of_nat (length example_posts + length example_llm_responses) - 1) k).
Proof.
  destruct (calculate_p_values_total "dump.json"
              example_filtered_state
              (Dump example_posts example_llm_responses (WordsList ["x"; "y"]))
              (fun _ => 0) 0 ltac:(vm_compute; reflexivity)
              ltac:(simpl; lia) ltac:(simpl; lia) ltac:(intros i; simpl; lia))
    as (o & k & H & _).
  exists o, k. exact H.
Defined.

(** X15.  [combined_dict.update(p_value_dict)] trial after trial: a word has
    an entry in the combined mapping exactly when some trial has one, and
    the entry is that of the last trial that has one. *)
Theorem combine_last_trial_wins (results : list p_values) (w : string) :
  (combine results !! w = None <-> forall r, r ∈ results -> r !! w = None)
  /\ (forall (results1 : list p_values) (r : p_values) (results2 : list p_values)
             (v : list float),
        results = results1 ++ r :: results2 ->
        r !! w = Some v -> (forall r', r' ∈ results2 -> r' !! w = None) ->
        combine results !! w = Some v).
Proof.
  split; [apply combine_lookup_None|].
  intros results1 r results2 v -> Hr Hn. induction results2 as [|r2 results2 IH] using rev_ind.
  - rewrite combine_snoc. apply lookup_union_Some_raw. left. exact Hr.
  - rewrite app_comm_cons, app_assoc, combine_snoc. apply lookup_union_Some_raw. right.
    split.
    + apply Hn, elem_of_app. right. apply list_elem_of_singleton. reflexivity.
    + apply IH. intros r' Hr'. apply Hn, elem_of_app. left. exact Hr'.
Qed.

Lemma combine_last_trial_wins_witness :
  combine [ {[ "hike" := [float_zero; float_one] ]};
            {[ "hike" := [float_one; float_zero]; "a" := [] ]};
            {[ "a" := [float_one] ]} ] !! "hike"
  = Some [float_one; float_zero].
Proof.
  apply (proj2 (combine_last_trial_wins _ "hike")
           [ {[ "hike" := [float_zero; float_one] ]} ]
           {[ "hike" := [float_one; float_zero]; "a" := [] ]}
           [ {[ "a" := [float_one] ]} ] [float_one; float_zero] eq_refl).
  - vm_compute. reflexivity.
  - intros r' Hr'. apply list_elem_of_singleton in Hr' as ->. vm_compute. reflexivity.
Defined.

(** X16.  The two steps of a trial compose to a test on the unfiltered
    corpora: after [format_posts], [calculate_p_values] runs exactly as the
    loop over the distinct candidate words (in the iteration order of the
    set) on the corpora of the original dump, draw for draw. *)
Theorem filtering_is_transparent (set_order : list string -> list string)
    (json_path : string) (st : state) (d : dump) (wd : odict) :
  (forall l : list string, set_order l ≡ₚ l) ->
  files st !! json_path = Some d -> dump_words d = WordsDict wd ->
  exists st2 : state,
    format_posts set_order json_path st = Ok st2
    /\ forall (tape : nat -> Z) (pos : nat),
         run (calculate_p_values json_path st2) tape pos
         = run (p_values_loop (dump_posts d) (dump_llm_responses d)
                  (set_order (elements (list_to_set (keys wd) : gset string))) ∅)
               tape pos.
Proof.
  intros Hperm Hf Hw. rewrite format_posts_cases, Hf, Hw. eexists. split; [reflexivity|].
  intros tape pos. unfold calculate_p_values. cbn [files]. rewrite lookup_insert_eq.
  cbn [dump_words dump_posts dump_llm_responses words_iter].
  apply run_p_values_loop_ext. intros w Hin.
  rewrite (Hperm _), elem_of_elements in Hin.
  split; apply counts_restrict_in, Hin.
Qed.

Lemma filtering_is_transparent_witness :
  exists st2 : state,
    format_posts example_set_order "0dump.json" example_state = Ok st2
    /\ forall (tape : nat -> Z) (pos : nat),
         run (calculate_p_values "0dump.json" st2) tape pos
         = run (p_values_loop [ {[ "hike" := 2; "the" := 1 ]}; {[ "a" := 1 ]} ]
                  [ {[ "hike" := 1; "so" := 3 ]} ]
                  (example_set_order (elements (list_to_set (keys [("hike", 2)])
                                                : gset string))) ∅)
               tape pos.
Proof.
  exact (filtering_is_transparent example_set_order "0dump.json" example_state
           (Dump [ {[ "hike" := 2; "the" := 1 ]}; {[ "a" := 1 ]} ]
                 [ {[ "hike" := 1; "so" := 3 ]} ] (WordsDict [("hike", 2)]))
           [("hike", 2)] (fun l => Permutation_refl l) eq_refl eq_refl).
Defined.

(** X17.  The whole of [calculate_p_values_from_scratch] on dumps of the
    same two non-empty corpora (as [write_all_relevant_data] writes them),
    on every tape of valid indices: it either returns the combined mapping,
    which has an entry exactly for the words that are candidates of some
    trial, each entry being the observed statistic of the word on the
    unfiltered corpora and a p-value between [0.0] and [1.0]; or it raises
    [OverflowError].  No other exception is possible. *)
Theorem calculate_p_values_from_scratch_total (set_order : list string -> list string)
    (posts llm_responses : list doc) (paths : list string) (wds : list odict)
    (st : state) (tape : nat -> Z) :
  let n := length posts in
  let m := length llm_responses in
  (forall l : list string, set_order l ≡ₚ l) ->
  (1 <= n)%nat -> (1 <= m)%nat -> valid_tape tape (Z.of_nat (n + m)) ->
  (forall p q, p ∈ paths -> q ∈ paths -> q <> "second_" +:+ p) ->
  Forall2 (fun p wd => files st !! p = Some (Dump posts llm_responses (WordsDict wd)))
          paths wds ->
  exists (o : outcome p_values) (k : nat),
    run (calculate_p_values_from_scratch set_order paths st) tape 0
    = Some (o, repeat (0, Z.of_nat (n + m) - 1) k)
    /\ match o with
       | Returned combined_dict =>
           (forall w : string,
               is_Some (combined_dict !! w) <-> exists wd, wd ∈ wds /\ w ∈ keys wd)
           /\ (forall (w : string) (v : list float),
                 combined_dict !! w = Some v -> tested posts llm_responses w v)
       | Raised e => e = "OverflowError"
       end.
Proof.
  intros n m Hperm Hn Hm Hv Hsecond HF.
  assert (HF' : Forall2 (fun p wd => p ∈ paths
                  /\ files st !! p = Some (Dump posts llm_responses (WordsDict wd)))
                  paths wds).
  { apply Forall2_same_length_lookup. apply Forall2_same_length_lookup in HF as [Hlen HF].
    split; [exact Hlen|]. intros i p wd Hp Hwd. split; [|exact (HF i p wd Hp Hwd)].
    eapply list_elem_of_lookup_2, Hp. }
  destruct (run_trials_loop_any set_order Hperm posts llm_responses tape paths
              Hsecond paths wds st [] 0%nat (fun _ => conj Hn (conj Hm Hv)) HF')
    as (o & k & Hrun & Ho).
  unfold calculate_p_values_from_scratch. rewrite run_bind, Hrun.
  destruct o as [[rs st']|e].
  2:{ exists (Raised e), k. split; [reflexivity|exact Ho]. }
  cbn [run fst]. exists (Returned (combine rs)), k. rewrite app_nil_r.
  split; [reflexivity|].
  destruct Ho as (new & -> & Hnew). cbn [app].
  destruct (combine_trials posts llm_responses wds new Hnew) as [Hdom Htested].
  split; [exact Hdom|]. intros w v Hwv. apply (Htested w v Hwv).
Qed.

Lemma calculate_p_values_from_scratch_total_witness :
  exists (o : outcome p_values) (k : nat),
    run (calculate_p_values_from_scratch example_set_order ["0dump.json"; "1dump.json"]
           example_two_trials_state)
        (fun _ => 0) 0
    = Some (o, repeat (0, Z.of_nat (length example_posts + length example_llm_responses) - 1) k).
Proof.
  destruct (calculate_p_values_from_scratch_total example_set_order
              example_posts example_llm_responses ["0dump.json"; "1dump.json"]
              [ [("x", 3)]; [("y", 1); ("x", 3)] ]
              example_two_trials_state
              (fun _ => 0) (fun l => Permutation_refl l)
              ltac:(simpl; lia) ltac:(simpl; lia) ltac:(intros i; simpl; lia))
    as (o & k & H & _).
  - intros p q Hp Hq.
    repeat (apply elem_of_cons in Hp as [->|Hp]);
      repeat (apply elem_of_cons in Hq as [->|Hq]);
      try discriminate; try (apply elem_of_nil in Hp; contradiction);
      apply elem_of_nil in Hq; contradiction.
  - repeat constructor; vm_compute; reflexivity.
  - exists o, k. exact H.
Defined.

Section DatasetExtras.

Variable split : string -> list string.
Variable clean : string -> string.
Variable scrape_for_posts : string -> result (list string).
Variable scrape_for_content : nat -> string -> result (list string * list string).
Variable generate_content : nat -> string -> result (option string).
Variable detect : string -> result string.
Variable set_order : list string -> list string.

(** X18.  What [combined_scrape] writes and what it returns agree: for
    every word the counts of the returned per-reply counters add up to the
    number of occurrences of the word in the one row of the tokens file.
    That file always has its row, so [dataset_to_list] never returns [None]
    on it.  A thread contributes one row to the file of the original posts
    only if it contributes at least one reply, so there are at most as many
    original posts as replies, and none of them is blank. *)
Theorem combined_scrape_counts (fs fs' : gmap string csv)
    (url contents_filename op_filename : string) (reply_contents : list odict) :
  combined_scrape split scrape_for_posts scrape_for_content fs url contents_filename
    op_filename = Ok (reply_contents, fs') ->
  exists (total_ops : csv) (total_contents : list string),
    fs' !! op_filename = Some total_ops
    /\ (contents_filename <> op_filename ->
        dataset_to_list fs' contents_filename = Ok (Some total_contents))
    /\ (forall p : string, p <> contents_filename -> p <> op_filename -> fs' !! p = fs !! p)
    /\ (forall w : string,
          py_sum (counts (map json_doc reply_contents) w) = occurrences total_contents w)
    /\ (length total_ops <= length reply_contents)%nat
    /\ (reply_contents <> [] -> total_ops <> [])
    /\ Forall (fun op => op <> []) total_ops.
Proof.
  intros H. apply combined_scrape_inv in H as (total_ops & tc & -> & Hsum & Hlen & Hnil & Hne).
  exists total_ops, tc. unfold write_rows. split; [apply lookup_insert_eq|].
  split.
  { intros Hdiff. rewrite dataset_to_list_cases, lookup_insert_ne by congruence.
    rewrite lookup_insert_eq. reflexivity. }
  split.
  { intros p Hp1 Hp2. rewrite !lookup_insert_ne by congruence. reflexivity. }
  split.
  { intros w. rewrite counts_json_doc. apply Hsum. }
  split; [exact Hlen|]. split; [|exact Hne].
  intros Hrc Hops. apply Hrc, Hnil, Hops.
Qed.

(** X19.  [generate_all_responses] returns one counter per row of the file
    of original posts, each of which has a title and a content; the file it
    writes always has its one row; no other file changes. *)
Theorem generate_all_responses_rows (fs fs' : gmap string csv)
    (game_title old_csv_path new_csv_path : string) (responses : list odict) :
  generate_all_responses split clean generate_content fs game_title old_csv_path
    new_csv_path = Ok (responses, fs') ->
  exists (topics : csv) (row : list string),
    fs !! old_csv_path = Some topics
    /\ length responses = length topics
    /\ Forall (fun topic : list string => (2 <= length topic)%nat) topics
    /\ dataset_to_list fs' new_csv_path = Ok (Some row)
    /\ (forall p : string, p <> new_csv_path -> fs' !! p = fs !! p).
Proof.
  intros H. apply generate_all_responses_inv in H as (topics & row & Hf & Hlen & Hall & ->).
  exists topics, row. split; [exact Hf|]. split; [exact Hlen|]. split; [exact Hall|].
  unfold write_rows. split.
  - rewrite dataset_to_list_cases, lookup_insert_eq. reflexivity.
  - intros p Hp. apply lookup_insert_ne. congruence.
Qed.

(** X20.  When [write_all_relevant_data] returns, it has written one dump
    per trial, [0dump.json], [1dump.json], ...: the paths are distinct, none
    is the [second_] file of another, every dump holds the same two corpora
    and the word dict chosen by the selector for that trial, with
    [NUM_MOST_ENGLISH_WORDS + i * num_common_word_intervals] reference words
    excluded.  The generated corpus has at most as many documents as the
    community corpus.  No other JSON file changes. *)
Theorem write_all_relevant_data_dumps (num_common_word_intervals num_common_word_trials : Z)
    (url game_title contents_filename op_filename new_csv_path : string)
    (fs fs' : gmap string csv) (st st' : state) (paths : list string) :
  write_all_relevant_data split clean scrape_for_posts scrape_for_content generate_content
    detect set_order num_common_word_intervals num_common_word_trials url game_title
    contents_filename op_filename new_csv_path fs st = Ok (paths, fs', st') ->
  exists (posts llm_responses : list doc) (words_to_check : list odict),
    paths = map (fun i => str i +:+ "dump.json") (seq 0 (Z.to_nat num_common_word_trials))
    /\ NoDup paths
    /\ (forall p q : string, p ∈ paths -> q ∈ paths -> q <> "second_" +:+ p)
    /\ Forall2 (fun p d => files st' !! p = Some (Dump posts llm_responses (WordsDict d)))
               paths words_to_check
    /\ Forall2 (fun i d =>
                  make_y_most_common_word_dicts detect set_order fs' NUM_COMMON_WORDS
                    (NUM_MOST_ENGLISH_WORDS + i * num_common_word_intervals)
                    contents_filename new_csv_path = Ok d)
               (range num_common_word_trials) words_to_check
    /\ (length llm_responses <= length posts)%nat
    /\ (forall p : string, p ∉ paths -> files st' !! p = files st !! p)
    /\ heap st' = heap st.
Proof.
  intros H.
  apply write_all_relevant_data_inv in H
    as (posts & llm & total_ops & tc & row & wds & Hinv & _ & Hlen & HF & Hdump).
  destruct (dump_loop_spec (map json_doc posts) (map json_doc llm) wds 0 st [])
    as (st2 & Hrun & Hheap & Hother & HF2).
  rewrite Hdump in Hrun. cbn [app] in Hrun. injection Hrun as -> ->.
  assert (Hwds : length wds = Z.to_nat num_common_word_trials).
  { rewrite <- (Forall2_length _ _ _ HF). unfold range.
    rewrite length_map, length_seq. reflexivity. }
  rewrite Hwds in *.
  exists (map json_doc posts), (map json_doc llm), wds.
  split; [reflexivity|]. split.
  { apply NoDup_fmap_2_strong; [|apply NoDup_seq].
    intros i j _ _ Hij. apply dump_path_inj, Hij. }
  split.
  { intros p q _ Hq. apply list_elem_of_fmap in Hq as (j & -> & _). apply str_not_second. }
  split; [exact HF2|]. split; [exact HF|].
  split; [|split; [exact Hother|exact Hheap]].
  rewrite !length_map, Hlen. apply Hinv.
Qed.

(** X21.  The entire program, with the default arguments.  If the datasets
    or the selections cannot be made, the exception of
    [write_all_relevant_data] is the outcome and nothing is drawn.
    Otherwise, on every tape of valid indices, the program either returns
    the combined mapping, each entry of which is the observed statistic and
    a p-value between [0.0] and [1.0] of a word that occurs in some community
    reply, or it raises [OverflowError].  It never raises
    [ZeroDivisionError]: when nothing was scraped there is no word to test,
    and otherwise both corpora have documents. *)
Theorem entire_program_outcomes (fs : gmap string csv) (st : state) (tape : nat -> Z) :
  (forall l : list string, set_order l ≡ₚ l) ->
  match write_all_relevant_data split clean scrape_for_posts scrape_for_content
          generate_content detect set_order 500 3
          "https://steamcommunity.com/app/1055540/discussions/0/"
          "A Short Hike" "words.csv" "op.csv" "llm.csv" fs st with
  | Err e =>
      run (run_entire_program split clean scrape_for_posts scrape_for_content
             generate_content detect set_order fs st) tape 0
      = Some (Raised e, [])
  | Ok (paths, _, st') =>
      exists posts llm_responses : list doc,
        Forall (fun p => exists wd,
                    files st' !! p = Some (Dump posts llm_responses (WordsDict wd))) paths
        /\ (length llm_responses <= length posts)%nat
        /\ ((posts <> [] ->
             valid_tape tape (Z.of_nat (length posts + length llm_responses))) ->
            exists (o : outcome p_values) (k : nat),
              run (run_entire_program split clean scrape_for_posts scrape_for_content
                     generate_content detect set_order fs st) tape 0
              = Some (o, repeat (0, Z.of_nat (length posts + length llm_responses) - 1) k)
              /\ match o with
                 | Returned combined_dict =>
                     forall (w : string) (v : list float),
                       combined_dict !! w = Some v ->
                       tested posts llm_responses w v /\ 1 <= py_sum (counts posts w)
                 | Raised e => e = "OverflowError"
                 end)
  end.
Proof.
  intros Hperm.
  destruct (write_all_relevant_data _ _ _ _ _ _ _ _ _ _ _ _ _ _ _ _)
    as [[[paths fs'] st']|e] eqn:Hw.
  2:{ unfold run_entire_program. rewrite Hw. reflexivity. }
  pose proof Hw as Hinv.
  apply write_all_relevant_data_inv in Hinv
    as (rc & responses & total_ops & tc & row & wds & (Hsum & Hlen & Hnil & _) & Hfs
        & Hresp & HF & Hdump).
  destruct (dump_loop_spec (map json_doc rc) (map json_doc responses) wds 0 st [])
    as (st2 & Hrun & _ & _ & HF2).
  rewrite Hdump in Hrun. cbn [app] in Hrun. injection Hrun as Hpaths <-.
  set (posts := map json_doc rc) in *. set (llm := map json_doc responses) in *.
  assert (Hd : dataset_to_list fs' "words.csv" = Ok (Some tc)).
  { rewrite Hfs, dataset_to_list_cases. unfold write_rows.
    rewrite !lookup_insert_ne by discriminate. rewrite lookup_insert_eq. reflexivity. }
  assert (Hocc : forall wd w, wd ∈ wds -> w ∈ keys wd -> 1 <= py_sum (counts posts w)).
  { intros wd w Hwd Hk. apply list_elem_of_lookup in Hwd as [i Hi].
    destruct (Forall2_lookup_r _ _ _ _ _ HF Hi) as (x & _ & Hsel).
    unfold posts. rewrite counts_json_doc, Hsum.
    exact (selector_keys_occur detect set_order Hperm _ _ _ _ _ _ _ _ Hd Hsel Hk). }
  exists posts, llm. split.
  { apply Forall_forall. intros p Hp. apply list_elem_of_lookup in Hp as [i Hi].
    rewrite Hpaths in Hi.
    destruct (Forall2_lookup_l _ _ _ _ _ HF2 Hi) as (wd & _ & Hf). exists wd. exact Hf. }
  split.
  { unfold posts, llm. rewrite !length_map, Hresp. exact Hlen. }
  intros Hvalid. unfold run_entire_program. rewrite Hw. cbn [lift]. rewrite bind_Ret.
  assert (Hsecond : forall p q, p ∈ paths -> q ∈ paths -> q <> "second_" +:+ p).
  { intros p q _ Hq. rewrite Hpaths in Hq.
    apply list_elem_of_fmap in Hq as (j & -> & _). apply str_not_second. }
  assert (HF' : Forall2 (fun p wd => p ∈ paths
                  /\ files st' !! p = Some (Dump posts llm (WordsDict wd))) paths wds).
  { rewrite <- Hpaths in HF2.
    apply Forall2_same_length_lookup. apply Forall2_same_length_lookup in HF2 as [Hl HF2].
    split; [exact Hl|]. intros i p wd Hp Hwd. split; [|exact (HF2 i p wd Hp Hwd)].
    eapply list_elem_of_lookup_2, Hp. }
  assert (Hcond : (exists wd, wd ∈ wds /\ wd <> []) ->
                  (1 <= length posts)%nat /\ (1 <= length llm)%nat
                  /\ valid_tape tape (Z.of_nat (length posts + length llm))).
  { intros (wd & Hwd & Hne). destruct wd as [|[w c] wd]; [congruence|].
    pose proof (Hocc _ w Hwd ltac:(left)) as Hpos.
    assert (Hrc : rc <> []).
    { intros ->. unfold posts in Hpos. cbn in Hpos. lia. }
    assert (Hposts : posts <> []).
    { unfold posts. destruct rc; [congruence|discriminate]. }
    split; [destruct posts; [congruence|cbn; lia]|].
    split; [|exact (Hvalid Hposts)].
    unfold llm. rewrite length_map, Hresp.
    destruct total_ops; [exfalso; apply Hrc, Hnil; reflexivity|cbn; lia]. }
  destruct (run_trials_loop_any set_order Hperm posts llm tape paths Hsecond paths wds st'
              [] 0%nat Hcond HF') as (o & k & Hrun & Ho).
  unfold calculate_p_values_from_scratch. rewrite run_bind, Hrun.
  destruct o as [[rs st3]|e].
  2:{ exists (Raised e), k. split; [reflexivity|exact Ho]. }
  cbn [run fst]. exists (Returned (combine rs)), k. rewrite app_nil_r.
  split; [reflexivity|].
  destruct Ho as (new & -> & Hnew). cbn [app].
  destruct (combine_trials posts llm wds new Hnew) as [_ Htested].
  intros w v Hwv. destruct (Htested w v Hwv) as (Ht & wd & Hwd & Hk).
  split; [exact Ht|exact (Hocc wd w Hwd Hk)].
Qed.

(** X22.  The word dicts of the dumps agree with the community corpus of
    the dumps: the count stored for a selected word is the sum of its counts
    over the community documents, and it is at least 1.  (The names of the
    tokens file, of the file of original posts and of the generated file
    being distinct.) *)
Theorem dump_word_counts (num_common_word_intervals num_common_word_trials : Z)
    (url game_title contents_filename op_filename new_csv_path : string)
    (fs fs' : gmap string csv) (st st' : state) (paths : list string) :
  (forall l : list string, set_order l ≡ₚ l) ->
  contents_filename <> op_filename -> contents_filename <> new_csv_path ->
  write_all_relevant_data split clean scrape_for_posts scrape_for_content generate_content
    detect set_order num_common_word_intervals num_common_word_trials url game_title
    contents_filename op_filename new_csv_path fs st = Ok (paths, fs', st') ->
  forall p : string, p ∈ paths ->
  exists (d : dump) (wd : odict),
    files st' !! p = Some d /\ dump_words d = WordsDict wd
    /\ forall (w : string) (c : Z),
         (w, c) ∈ wd -> c = py_sum (counts (dump_posts d) w) /\ 1 <= c.
Proof.
  intros Hperm Hco Hcn H p Hp.
  apply write_all_relevant_data_inv in H
    as (rc & responses & total_ops & tc & row & wds & (Hsum & _) & Hfs & _ & HF & Hdump).
  destruct (dump_loop_spec (map json_doc rc) (map json_doc responses) wds 0 st [])
    as (st2 & Hrun & _ & _ & HF2).
  rewrite Hdump in Hrun. cbn [app] in Hrun. injection Hrun as Hpaths <-.
  rewrite Hpaths in Hp. apply list_elem_of_lookup in Hp as [i Hi].
  destruct (Forall2_lookup_l _ _ _ _ _ HF2 Hi) as (wd & Hwd & Hf).
  destruct (Forall2_lookup_r _ _ _ _ _ HF Hwd) as (x & _ & Hsel).
  eexists _, wd. split; [exact Hf|]. split; [reflexivity|].
  intros w c Hin. cbn [dump_posts]. rewrite counts_json_doc, Hsum.
  assert (Hd : dataset_to_list fs' contents_filename = Ok (Some tc)).
  { rewrite Hfs, dataset_to_list_cases. unfold write_rows.
    rewrite !lookup_insert_ne by congruence. rewrite lookup_insert_eq. reflexivity. }
  apply (make_y_most_common_word_dicts_inv _ _ Hperm) in Hsel
    as (exclude & drow & lrow & _ & Hd' & _ & ->).
  rewrite Hd in Hd'. injection Hd' as <-.
  apply (selected_elem _ _ Hperm) in Hin as [Hs ->]. split; [reflexivity|].
  apply elem_survivors in Hs as (Hin & _). apply occurrences_pos, Hin.
Qed.

End DatasetExtras.

Lemma combined_scrape_counts_witness :
  exists total_contents : list string,
    dataset_to_list example_scraped_fs "words.csv" = Ok (Some total_contents)
    /\ forall w : string,
         py_sum (counts (map json_doc example_reply_contents) w)
         = occurrences total_contents w.
Proof.
  destruct (combined_scrape_counts example_split example_scrape_for_posts
              example_scrape_for_content example_fs example_scraped_fs
              "url" "words.csv" "op.csv" example_reply_contents
              ltac:(vm_compute; reflexivity))
    as (total_ops & total_contents & _ & Hd & _ & Hsum & _).
  exists total_contents. split; [apply Hd; discriminate|exact Hsum].
Defined.

Lemma generate_all_responses_rows_witness :
  exists (topics : csv) (row : list string),
    example_scraped_fs !! "op.csv" = Some topics
    /\ length example_responses = length topics
    /\ dataset_to_list example_generated_fs "llm.csv" = Ok (Some row).
Proof.
  destruct (generate_all_responses_rows example_split example_clean
              example_generate_content example_scraped_fs example_generated_fs
              "A Short Hike" "op.csv" "llm.csv" example_responses
              ltac:(vm_compute; reflexivity))
    as (topics & row & Hf & Hlen & _ & Hd & _).
  exists topics, row. split; [exact Hf|]. split; [exact Hlen|exact Hd].
Defined.

Lemma write_all_relevant_data_dumps_witness :
  exists (posts llm_responses : list doc) (words_to_check : list odict),
    Forall2 (fun p d => files example_dumped_state !! p
                        = Some (Dump posts llm_responses (WordsDict d)))
            ["0dump.json"; "1dump.json"; "2dump.json"] words_to_check
    /\ (length llm_responses <= length posts)%nat.
Proof.
  destruct (write_all_relevant_data_dumps example_split example_clean
              example_scrape_for_posts example_scrape_for_content example_generate_content
              example_detect example_set_order 500 3 "url" "A Short Hike" "words.csv"
              "op.csv" "llm.csv" example_fs example_generated_fs example_empty_state
              example_dumped_state ["0dump.json"; "1dump.json"; "2dump.json"]
              ltac:(vm_compute; reflexivity))
    as (posts & llm & wds & Hpaths & _ & _ & HF & _ & Hlen & _).
  exists posts, llm, wds. split; [exact HF|exact Hlen].
Defined.

Lemma entire_program_outcomes_witness :
  match write_all_relevant_data example_split example_clean example_scrape_for_posts
          example_scrape_for_content example_generate_content example_detect
          example_set_order 500 3
          "https://steamcommunity.com/app/1055540/discussions/0/"
          "A Short Hike" "words.csv" "op.csv" "llm.csv" example_fs example_empty_state with
  | Err e =>
      run (run_entire_program example_split example_clean example_scrape_for_posts
             example_scrape_for_content example_generate_content example_detect
             example_set_order example_fs example_empty_state) (fun _ => 0) 0
      = Some (Raised e, [])
  | Ok (paths, _, st') =>
      exists posts llm_responses : list doc,
        Forall (fun p => exists wd,
                    files st' !! p = Some (Dump posts llm_responses (WordsDict wd))) paths
        /\ (length llm_responses <= length posts)%nat
        /\ ((posts <> [] ->
             valid_tape (fun _ => 0) (Z.of_nat (length posts + length llm_responses))) ->
            exists (o : outcome p_values) (k : nat),
              run (run_entire_program example_split example_clean example_scrape_for_posts
                     example_scrape_for_content example_generate_content example_detect
                     example_set_order example_fs example_empty_state) (fun _ => 0) 0
              = Some (o, repeat (0, Z.of_nat (length posts + length llm_responses) - 1) k)
              /\ match o with
                 | Returned combined_dict =>
                     forall (w : string) (v : list float),
                       combined_dict !! w = Some v ->
                       tested posts llm_responses w v /\ 1 <= py_sum (counts posts w)
                 | Raised e => e = "OverflowError"
                 end)
  end.
Proof.
  exact (entire_program_outcomes example_split example_clean example_scrape_for_posts
           example_scrape_for_content example_generate_content example_detect
           example_set_order example_fs example_empty_state (fun _ => 0)
           (fun l => Permutation_refl l)).
Defined.

Lemma dump_word_counts_witness :
  exists (d : dump) (wd : odict),
    files example_dumped_state !! "1dump.json" = Some d /\ dump_words d = WordsDict wd
    /\ forall (w : string) (c : Z),
         (w, c) ∈ wd -> c = py_sum (counts (dump_posts d) w) /\ 1 <= c.
Proof.
  apply (dump_word_counts example_split example_clean example_scrape_for_posts
           example_scrape_for_content example_generate_content example_detect
           example_set_order 500 3 "url" "A Short Hike" "words.csv" "op.csv" "llm.csv"
           example_fs example_generated_fs example_empty_state example_dumped_state
           ["0dump.json"; "1dump.json"; "2dump.json"] (fun l => Permutation_refl l)
           ltac:(discriminate) ltac:(discriminate) ltac:(vm_compute; reflexivity)).
  right. left.
Defined.
